(** * Social graph of the multiplayer gaming system

    A shallow embedding of [app/crud/neo4j_crud.py] and of the routes of
    [app/routes/neo4j_routes.py] that call it.  Every CRUD method sends one
    Cypher statement (two for [join_clan]) to the graph store; here each
    statement is a function on an explicit property graph, read clause by
    clause: a reading clause ([MATCH], [OPTIONAL MATCH], [WHERE]) computes a
    table of rows, an updating clause ([CREATE], [DELETE], [SET]) is applied
    once per row of that table, and [RETURN] projects the rows.

    Values the code takes from its environment are arguments: [now] is the
    value of Cypher's [datetime()] inside one statement, and the identifiers
    made by [generate_id()] are passed in. *)

From Stdlib Require Import String List ZArith Bool Arith Lia Sorted Permutation.
Import ListNotations.

Local Open Scope list_scope.

(** ** The property graph *)

(** Node labels with the properties the code stores under them. *)
Inductive NodeProps : Type :=
| Player (player_id username status : string) (created_at : Z)
| Conversation (conversation_id type : string) (name : option string)
    (created_at : Z) (last_message_at : option Z)
| Message (message_id content : string) (timestamp : Z) (edited : bool)
    (edited_at : option Z)
| Party (party_id game_id : string) (max_size : Z) (is_public : bool)
    (created_at : Z)
| Clan (clan_id name tag : string) (description : option string)
    (created_at : Z).

(** Relationship types with their properties. *)
Inductive RelProps : Type :=
| SENT_REQUEST (sent_at : Z) (message : string)
| FRIENDS_WITH (since : Z) (nickname : option string)
| BLOCKED (since : Z) (reason : option string)
| FOLLOWS (since : Z)
| MEMBER_OF (joined_at : Z) (role : string) (muted : bool)
| SENT
| CONTAINS
| IN_PARTY (joined_at : Z) (role : string)
| INVITED_TO (invited_by : string) (invited_at : Z)
| BELONGS_TO (joined_at : Z) (role : string) (rank : Z).

(** Nodes and relationships have an identity of their own, given by the
    store: two nodes may carry the same [player_id] (the code never declares
    a uniqueness constraint), and two relationships of one type may join the
    same pair of nodes. *)
Record Node : Type := mkNode { nid : nat; nprops : NodeProps }.

Record Rel : Type := mkRel { rid : nat; rsrc : nat; rdst : nat; rprops : RelProps }.

Record Graph : Type := mkGraph {
  nodes : list Node;
  rels : list Rel;
  next_node : nat;
  next_rel : nat
}.

Definition empty_graph : Graph := mkGraph [] [] 0 0.

(** *** Labels, types and property access *)

Definition is_Player (n : Node) : bool :=
  match nprops n with Player _ _ _ _ => true | _ => false end.

Definition has_player_id (pid : string) (n : Node) : bool :=
  match nprops n with Player p _ _ _ => String.eqb p pid | _ => false end.

Definition has_conversation_id (cid : string) (n : Node) : bool :=
  match nprops n with Conversation c _ _ _ _ => String.eqb c cid | _ => false end.

Definition has_message_id (mid : string) (n : Node) : bool :=
  match nprops n with Message m _ _ _ _ => String.eqb m mid | _ => false end.

Definition has_party_id (pid : string) (n : Node) : bool :=
  match nprops n with Party p _ _ _ _ => String.eqb p pid | _ => false end.

Definition has_clan_id (cid : string) (n : Node) : bool :=
  match nprops n with Clan c _ _ _ _ => String.eqb c cid | _ => false end.

Definition is_Conversation (n : Node) : bool :=
  match nprops n with Conversation _ _ _ _ _ => true | _ => false end.

Definition is_Party (n : Node) : bool :=
  match nprops n with Party _ _ _ _ _ => true | _ => false end.

Definition is_Clan (n : Node) : bool :=
  match nprops n with Clan _ _ _ _ _ => true | _ => false end.

(** Property reads.  They are only applied to nodes bound under the label
    that has the property; the default stands for Cypher's [null]. *)
Definition player_id_of (n : Node) : string :=
  match nprops n with Player p _ _ _ => p | _ => ""%string end.

Definition username_of (n : Node) : string :=
  match nprops n with Player _ u _ _ => u | _ => ""%string end.

Definition status_of (n : Node) : string :=
  match nprops n with Player _ _ s _ => s | _ => ""%string end.

Definition is_SENT_REQUEST (r : Rel) : bool :=
  match rprops r with SENT_REQUEST _ _ => true | _ => false end.

Definition is_FRIENDS_WITH (r : Rel) : bool :=
  match rprops r with FRIENDS_WITH _ _ => true | _ => false end.

Definition is_BLOCKED (r : Rel) : bool :=
  match rprops r with BLOCKED _ _ => true | _ => false end.

Definition is_FOLLOWS (r : Rel) : bool :=
  match rprops r with FOLLOWS _ => true | _ => false end.

Definition is_MEMBER_OF (r : Rel) : bool :=
  match rprops r with MEMBER_OF _ _ _ => true | _ => false end.

Definition is_SENT (r : Rel) : bool :=
  match rprops r with SENT => true | _ => false end.

Definition is_CONTAINS (r : Rel) : bool :=
  match rprops r with CONTAINS => true | _ => false end.

Definition is_IN_PARTY (r : Rel) : bool :=
  match rprops r with IN_PARTY _ _ => true | _ => false end.

Definition is_INVITED_TO (r : Rel) : bool :=
  match rprops r with INVITED_TO _ _ => true | _ => false end.

Definition is_BELONGS_TO (r : Rel) : bool :=
  match rprops r with BELONGS_TO _ _ _ => true | _ => false end.

(** *** Reading clauses *)

(** [MATCH (x:Label {key: $value})]: every node the selector accepts. *)
Definition match_nodes (g : Graph) (sel : Node -> bool) : list Node :=
  filter sel (nodes g).

Definition match_player (g : Graph) (pid : string) : list Node :=
  match_nodes g (has_player_id pid).

(** [(n)-[r:TYPE]->(m:Label)] with [n] bound: one row per relationship of
    the type leaving [n] and per node at its end that the selector accepts. *)
Definition expand_out (g : Graph) (ty : Rel -> bool) (sel : Node -> bool)
    (n : Node) : list (Rel * Node) :=
  flat_map
    (fun r => map (fun m => (r, m))
                (filter (fun m => sel m && Nat.eqb (nid m) (rdst r)) (nodes g)))
    (filter (fun r => ty r && Nat.eqb (rsrc r) (nid n)) (rels g)).

(** [(m:Label)-[r:TYPE]->(n)] with [n] bound. *)
Definition expand_in (g : Graph) (ty : Rel -> bool) (sel : Node -> bool)
    (n : Node) : list (Rel * Node) :=
  flat_map
    (fun r => map (fun m => (r, m))
                (filter (fun m => sel m && Nat.eqb (nid m) (rsrc r)) (nodes g)))
    (filter (fun r => ty r && Nat.eqb (rdst r) (nid n)) (rels g)).

(** [(a)-[r:TYPE]->(b)] with both ends bound. *)
Definition rels_from_to (g : Graph) (ty : Rel -> bool) (a b : Node) : list Rel :=
  filter (fun r => ty r && Nat.eqb (rsrc r) (nid a) && Nat.eqb (rdst r) (nid b))
    (rels g).

(** [(a)-[r:TYPE]-(b)], no direction, with both ends bound: a relationship
    is matched once, whichever way it points. *)
Definition rels_between (g : Graph) (ty : Rel -> bool) (a b : Node) : list Rel :=
  filter (fun r => ty r &&
            ((Nat.eqb (rsrc r) (nid a) && Nat.eqb (rdst r) (nid b)) ||
             (Nat.eqb (rsrc r) (nid b) && Nat.eqb (rdst r) (nid a))))
    (rels g).

(** [OPTIONAL MATCH]: a row without a match is kept once, with [null]. *)
Definition optional {A : Type} (matches : list A) : list (option A) :=
  match matches with
  | [] => [None]
  | _ => map Some matches
  end.

(** *** Updating clauses *)

Definition create_node (p : NodeProps) (g : Graph) : Graph :=
  mkGraph (nodes g ++ [mkNode (next_node g) p]) (rels g)
    (S (next_node g)) (next_rel g).

Fixpoint create_nodes (ps : list NodeProps) (g : Graph) : Graph :=
  match ps with
  | [] => g
  | p :: ps' => create_nodes ps' (create_node p g)
  end.

Definition create_rel (e : nat * nat * RelProps) (g : Graph) : Graph :=
  let '(src, dst, p) := e in
  mkGraph (nodes g) (rels g ++ [mkRel (next_rel g) src dst p])
    (next_node g) (S (next_rel g)).

(** A [CREATE] of one relationship, run for every row of the table. *)
Fixpoint create_rels (es : list (nat * nat * RelProps)) (g : Graph) : Graph :=
  match es with
  | [] => g
  | e :: es' => create_rels es' (create_rel e g)
  end.

(** [DELETE r] for every row; [ids] are the relationships bound to [r]. *)
Definition delete_rels (ids : list nat) (g : Graph) : Graph :=
  mkGraph (nodes g)
    (filter (fun r => negb (existsb (Nat.eqb (rid r)) ids)) (rels g))
    (next_node g) (next_rel g).

(** [SET n.key = value] for every row; [ids] are the nodes bound to [n]. *)
Definition set_nodes (ids : list nat) (upd : NodeProps -> NodeProps)
    (g : Graph) : Graph :=
  mkGraph
    (map (fun n => if existsb (Nat.eqb (nid n)) ids
                   then mkNode (nid n) (upd (nprops n)) else n) (nodes g))
    (rels g) (next_node g) (next_rel g).

(** [await result.single()]: the first record, [None] when there is none. *)
Definition single {A : Type} (records : list A) : option A := hd_error records.

(** Python's [x or d] on integers. *)
Definition py_or (x d : Z) : Z := if Z.eqb x 0 then d else x.

(** ** PlayerNodesCRUD *)

Record PlayerRecord : Type := mkPlayerRecord {
  pr_player_id : string;
  pr_username : string;
  pr_status : string
}.

(** [[
  CREATE (p:Player {player_id: $player_id, username: $username,
                    status: $status, created_at: datetime()})
  RETURN p.player_id as player_id, p.username as username, p.status as status
]]
    Nothing is matched first: the node is created whether or not a node
    with this [player_id] exists. *)
Definition create_player_node (now : Z) (player_id username status : string)
    (g : Graph) : option PlayerRecord * Graph :=
  (Some (mkPlayerRecord player_id username status),
   create_node (Player player_id username status now) g).

(** ** FriendshipsCRUD *)

Record FriendRequestRecord : Type := mkFriendRequestRecord {
  fr_from_player_id : string;
  fr_from_username : string;
  fr_to_player_id : string;
  fr_to_username : string;
  fr_message : string;
  fr_sent_at : Z
}.

(** [[
  MATCH (from:Player {player_id: $from_id})
  MATCH (to:Player {player_id: $to_id})
  CREATE (from)-[r:SENT_REQUEST {sent_at: datetime(), message: $message}]->(to)
  RETURN from.player_id, from.username, to.player_id, to.username,
         r.message, r.sent_at
]] *)
Definition send_friend_request (now : Z) (from_player_id to_player_id : string)
    (message : string) (g : Graph) : option FriendRequestRecord * Graph :=
  let rows := list_prod (match_player g from_player_id)
                        (match_player g to_player_id) in
  let g' := create_rels
              (map (fun row => (nid (fst row), nid (snd row),
                                SENT_REQUEST now message)) rows) g in
  let records :=
    map (fun row => mkFriendRequestRecord
                      (player_id_of (fst row)) (username_of (fst row))
                      (player_id_of (snd row)) (username_of (snd row))
                      message now) rows in
  (single records, g').

Record FriendshipRecord : Type := mkFriendshipRecord {
  fs_player1_id : string;
  fs_player2_id : string;
  fs_since : Z
}.

(** Rows of
    [(from:Player {player_id: $from_id})-[r:SENT_REQUEST]->(to:Player {player_id: $to_id})]. *)
Definition request_rows (g : Graph) (from_id to_id : string)
    : list (Node * (Rel * Node)) :=
  flat_map (fun from => map (fun rt => (from, rt))
                          (expand_out g is_SENT_REQUEST (has_player_id to_id) from))
    (match_player g from_id).

(** [[
  MATCH (from:Player {player_id: $from_id})-[r:SENT_REQUEST]->(to:Player {player_id: $to_id})
  DELETE r
  CREATE (from)-[f:FRIENDS_WITH {since: datetime()}]->(to)
  CREATE (to)-[f2:FRIENDS_WITH {since: datetime()}]->(from)
  RETURN from.player_id as player1_id, to.player_id as player2_id, f.since as since
]] *)
Definition accept_friend_request (now : Z) (from_player_id to_player_id : string)
    (g : Graph) : option FriendshipRecord * Graph :=
  let rows := request_rows g from_player_id to_player_id in
  let g1 := delete_rels (map (fun row => rid (fst (snd row))) rows) g in
  let g2 := create_rels
              (map (fun row => (nid (fst row), nid (snd (snd row)),
                                FRIENDS_WITH now None)) rows) g1 in
  let g3 := create_rels
              (map (fun row => (nid (snd (snd row)), nid (fst row),
                                FRIENDS_WITH now None)) rows) g2 in
  let records :=
    map (fun row => mkFriendshipRecord (player_id_of (fst row))
                      (player_id_of (snd (snd row))) now) rows in
  (single records, g3).

Definition request_message (r : Rel) : string :=
  match rprops r with SENT_REQUEST _ m => m | _ => ""%string end.

Definition request_sent_at (r : Rel) : option Z :=
  match rprops r with SENT_REQUEST t _ => Some t | _ => None end.

Record PendingRequestRecord : Type := mkPendingRequestRecord {
  pq_from_player_id : string;
  pq_from_username : string;
  pq_to_player_id : string;
  pq_to_username : string;
  pq_message : string;
  pq_sent_at : option Z
}.

(** [[
  MATCH (from:Player)-[r:SENT_REQUEST]->(to:Player {player_id: $player_id})
  RETURN from.player_id, from.username, to.player_id, to.username,
         r.message, r.sent_at
]] *)
Definition get_pending_requests (player_id : string) (g : Graph)
    : list PendingRequestRecord :=
  flat_map
    (fun to =>
       map (fun rf => mkPendingRequestRecord
                        (player_id_of (snd rf)) (username_of (snd rf))
                        (player_id_of to) (username_of to)
                        (request_message (fst rf)) (request_sent_at (fst rf)))
           (expand_in g is_SENT_REQUEST is_Player to))
    (match_player g player_id).

Record FriendRecord : Type := mkFriendRecord {
  fd_player_id : string;
  fd_username : string;
  fd_status : string;
  fd_friends_since : option Z;
  fd_nickname : option string
}.

Definition since_of (r : Rel) : option Z :=
  match rprops r with
  | FRIENDS_WITH s _ => Some s
  | BLOCKED s _ => Some s
  | FOLLOWS s => Some s
  | _ => None
  end.

Definition nickname_of (r : Rel) : option string :=
  match rprops r with FRIENDS_WITH _ n => n | _ => None end.

(** [[
  MATCH (p:Player {player_id: $player_id})-[f:FRIENDS_WITH]->(friend:Player)
  RETURN friend.player_id as player_id, friend.username as username,
         friend.status as status, f.since as friends_since, f.nickname as nickname
]] *)
Definition get_friends (player_id : string) (g : Graph) : list FriendRecord :=
  flat_map
    (fun p =>
       map (fun ff => mkFriendRecord
                        (player_id_of (snd ff)) (username_of (snd ff))
                        (status_of (snd ff)) (since_of (fst ff))
                        (nickname_of (fst ff)))
           (expand_out g is_FRIENDS_WITH is_Player p))
    (match_player g player_id).

(** A pattern predicate in [WHERE]: does the pattern have a match? *)
Definition pattern_exists {A : Type} (matches : list A) : bool :=
  match matches with [] => false | _ => true end.

(** Rows of the two-hop pattern
    [(p:Player {player_id: $player_id})-[:FRIENDS_WITH]->(friend:Player)-[:FRIENDS_WITH]->(suggestion:Player)]
    as [(p, (friend, suggestion))].  One pattern never binds the same
    relationship twice, hence the test on the identities of the two hops. *)
Definition two_hop_rows (g : Graph) (player_id : string)
    : list (Node * (Node * Node)) :=
  flat_map
    (fun p =>
       flat_map
         (fun ff =>
            map (fun fs => (p, (snd ff, snd fs)))
              (filter (fun fs => negb (Nat.eqb (rid (fst fs)) (rid (fst ff))))
                 (expand_out g is_FRIENDS_WITH is_Player (snd ff))))
         (expand_out g is_FRIENDS_WITH is_Player p))
    (match_player g player_id).

(** [[
  WHERE NOT (p)-[:FRIENDS_WITH]->(suggestion)
    AND NOT (p)-[:BLOCKED]->(suggestion)
    AND suggestion.player_id <> $player_id
]] *)
Definition suggestion_where (g : Graph) (player_id : string)
    (row : Node * (Node * Node)) : bool :=
  let p := fst row in
  let suggestion := snd (snd row) in
  negb (pattern_exists (rels_from_to g is_FRIENDS_WITH p suggestion))
  && negb (pattern_exists (rels_from_to g is_BLOCKED p suggestion))
  && negb (String.eqb (player_id_of suggestion) player_id).

Definition suggestion_rows (g : Graph) (player_id : string)
    : list (Node * (Node * Node)) :=
  filter (suggestion_where g player_id) (two_hop_rows g player_id).

(** The grouping key of [get_friend_suggestions]: the three properties of
    the suggested player that [RETURN] lists beside the count. *)
Definition suggestion_key (row : Node * (Node * Node)) : PlayerRecord :=
  mkPlayerRecord (player_id_of (snd (snd row))) (username_of (snd (snd row)))
    (status_of (snd (snd row))).

Definition PlayerRecord_eq_dec (x y : PlayerRecord) : {x = y} + {x <> y}.
Proof. decide equality; apply string_dec. Defined.

Record SuggestionRecord : Type := mkSuggestionRecord {
  sg_player : PlayerRecord;
  sg_mutual_friends : nat
}.

(** [RETURN k, count(x)]: the rows are grouped by the other returned
    expressions, and [count] is the number of rows of the group.  Cypher
    fixes no order of the groups; the one taken here is one of them. *)
Definition group_count (keys : list PlayerRecord) : list SuggestionRecord :=
  map (fun k => mkSuggestionRecord k (count_occ PlayerRecord_eq_dec keys k))
    (nodup PlayerRecord_eq_dec keys).

(** [ORDER BY mutual_friends DESC]; rows with equal counts keep their order. *)
Fixpoint insert_desc (x : SuggestionRecord) (l : list SuggestionRecord)
    : list SuggestionRecord :=
  match l with
  | [] => [x]
  | y :: l' =>
      if Nat.leb (sg_mutual_friends y) (sg_mutual_friends x)
      then x :: y :: l'
      else y :: insert_desc x l'
  end.

Fixpoint order_by_mutual_friends_desc (l : list SuggestionRecord)
    : list SuggestionRecord :=
  match l with
  | [] => []
  | x :: l' => insert_desc x (order_by_mutual_friends_desc l')
  end.

(** What a statement gives back to Python: its records, or an exception. *)
Inductive Outcome (A : Type) : Type :=
| Returned (a : A)
| Raised (error : string).

Arguments Returned {A} a.
Arguments Raised {A} error.

(** Cypher integers are 64-bit; the driver refuses to pack a larger one. *)
Definition int64_max : Z := 9223372036854775807.

(** [[
  MATCH (p:Player {player_id: $player_id})-[:FRIENDS_WITH]->(friend:Player)-[:FRIENDS_WITH]->(suggestion:Player)
  WHERE NOT (p)-[:FRIENDS_WITH]->(suggestion)
    AND NOT (p)-[:BLOCKED]->(suggestion)
    AND suggestion.player_id <> $player_id
  RETURN suggestion.player_id as player_id, suggestion.username as username,
         suggestion.status as status, count(friend) as mutual_friends
  ORDER BY mutual_friends DESC
  LIMIT $limit
]]
    [LIMIT] rejects a negative number when the statement runs. *)
Definition get_friend_suggestions (player_id : string) (limit : Z) (g : Graph)
    : Outcome (list SuggestionRecord) :=
  if Z.ltb limit 0 then Raised "LIMIT: must be a non-negative integer"%string
  else if Z.ltb int64_max limit then Raised "Integer out of range"%string
  else
    let keys := map suggestion_key (suggestion_rows g player_id) in
    Returned (firstn (Z.to_nat limit)
                (order_by_mutual_friends_desc (group_count keys))).

(** ** BlockingCRUD *)

Record BlockRecord : Type := mkBlockRecord {
  bl_blocked_player_id : string;
  bl_blocked_username : string;
  bl_blocked_since : option Z;
  bl_reason : option string
}.

(** Rows of
[[
  MATCH (blocker:Player {player_id: $blocker_id})
  MATCH (blocked:Player {player_id: $blocked_id})
  OPTIONAL MATCH (blocker)-[f:FRIENDS_WITH]-(blocked)
]] *)
Definition block_rows (g : Graph) (blocker_id blocked_id : string)
    : list ((Node * Node) * option Rel) :=
  flat_map
    (fun bb => map (fun f => (bb, f))
                 (optional (rels_between g is_FRIENDS_WITH (fst bb) (snd bb))))
    (list_prod (match_player g blocker_id) (match_player g blocked_id)).

(** The relationships a column of an [OPTIONAL MATCH] is bound to; [DELETE]
    of [null] does nothing. *)
Definition bound_rids (col : list (option Rel)) : list nat :=
  flat_map (fun o => match o with Some r => [rid r] | None => [] end) col.

(** [[
  MATCH (blocker:Player {player_id: $blocker_id})
  MATCH (blocked:Player {player_id: $blocked_id})
  OPTIONAL MATCH (blocker)-[f:FRIENDS_WITH]-(blocked)
  DELETE f
  CREATE (blocker)-[b:BLOCKED {since: datetime(), reason: $reason}]->(blocked)
  RETURN blocked.player_id as blocked_player_id, blocked.username as blocked_username,
         b.since as blocked_since, b.reason as reason
]] *)
Definition block_player (now : Z) (blocker_id blocked_id : string)
    (reason : option string) (g : Graph) : option BlockRecord * Graph :=
  let rows := block_rows g blocker_id blocked_id in
  let g1 := delete_rels (bound_rids (map snd rows)) g in
  let g2 := create_rels
              (map (fun row => (nid (fst (fst row)), nid (snd (fst row)),
                                BLOCKED now reason)) rows) g1 in
  let records :=
    map (fun row => mkBlockRecord (player_id_of (snd (fst row)))
                      (username_of (snd (fst row))) (Some now) reason) rows in
  (single records, g2).

Definition reason_of (r : Rel) : option string :=
  match rprops r with BLOCKED _ x => x | _ => None end.

(** [[
  MATCH (p:Player {player_id: $player_id})-[b:BLOCKED]->(blocked:Player)
  RETURN blocked.player_id as blocked_player_id, blocked.username as blocked_username,
         b.since as blocked_since, b.reason as reason
]] *)
Definition get_blocked_players (player_id : string) (g : Graph)
    : list BlockRecord :=
  flat_map
    (fun p =>
       map (fun bb => mkBlockRecord (player_id_of (snd bb)) (username_of (snd bb))
                        (since_of (fst bb)) (reason_of (fst bb)))
           (expand_out g is_BLOCKED is_Player p))
    (match_player g player_id).

(** ** FollowCRUD *)

(** [[
  MATCH (follower:Player {player_id: $follower_id})
  MATCH (following:Player {player_id: $following_id})
  CREATE (follower)-[:FOLLOWS {since: datetime()}]->(following)
  RETURN following.player_id as player_id, following.username as username
]] *)
Definition follow_player (now : Z) (follower_id following_id : string)
    (g : Graph) : option (string * string) * Graph :=
  let rows := list_prod (match_player g follower_id)
                        (match_player g following_id) in
  let g' := create_rels
              (map (fun row => (nid (fst row), nid (snd row), FOLLOWS now)) rows)
              g in
  (single (map (fun row => (player_id_of (snd row), username_of (snd row))) rows),
   g').

Record FollowRecord : Type := mkFollowRecord {
  fo_player_id : string;
  fo_username : string;
  fo_status : string;
  fo_following_since : option Z
}.

(** [[
  MATCH (p:Player {player_id: $player_id})-[f:FOLLOWS]->(following:Player)
  RETURN following.player_id as player_id, following.username as username,
         following.status as status, f.since as following_since
]] *)
Definition get_following (player_id : string) (g : Graph) : list FollowRecord :=
  flat_map
    (fun p =>
       map (fun ff => mkFollowRecord (player_id_of (snd ff)) (username_of (snd ff))
                        (status_of (snd ff)) (since_of (fst ff)))
           (expand_out g is_FOLLOWS is_Player p))
    (match_player g player_id).

(** [[
  MATCH (follower:Player {player_id: $follower_id})-[f:FOLLOWS]->(following:Player {player_id: $following_id})
  DELETE f
  RETURN count(f) as deleted
]]
    and then [record["deleted"] > 0]. *)
Definition unfollow_player (follower_id following_id : string) (g : Graph)
    : bool * Graph :=
  let rows :=
    flat_map (fun follower =>
                expand_out g is_FOLLOWS (has_player_id following_id) follower)
      (match_player g follower_id) in
  (Nat.ltb 0 (length rows), delete_rels (map (fun row => rid (fst row)) rows) g).

(** ** MessagingCRUD *)

(** The nodes a [CREATE] of one node per row binds: the store numbers them
    from its next free identity, in row order. *)
Definition fresh_nodes (g : Graph) (rows : nat) : list nat :=
  seq (next_node g) rows.

Record ConversationRecord : Type := mkConversationRecord {
  cv_conversation_id : string;
  cv_conversation_type : string;
  cv_name : option string;
  cv_created_at : Z
}.

(** One statement per participant:
[[
  MATCH (c:Conversation {conversation_id: $conv_id})
  MATCH (p:Player {player_id: $player_id})
  CREATE (p)-[m:MEMBER_OF {joined_at: datetime(), role: 'member', muted: false}]->(c)
]] *)
Definition add_participant (now : Z) (conversation_id player_id : string)
    (g : Graph) : Graph :=
  let rows := list_prod (match_nodes g (has_conversation_id conversation_id))
                        (match_player g player_id) in
  create_rels
    (map (fun row => (nid (snd row), nid (fst row),
                      MEMBER_OF now "member" false)) rows) g.

Fixpoint add_participants (clock : nat -> Z) (k : nat) (conversation_id : string)
    (participant_ids : list string) (g : Graph) : Graph :=
  match participant_ids with
  | [] => g
  | player_id :: rest =>
      add_participants clock (S k) conversation_id rest
        (add_participant (clock k) conversation_id player_id g)
  end.

(** [create_conversation]: the Conversation node is created by a first
    statement, the memberships by one statement per participant; [clock k] is
    [datetime()] in the [k]-th statement of the call. *)
Definition create_conversation (clock : nat -> Z) (conversation_id : string)
    (conversation_type : string) (participant_ids : list string)
    (name : option string) (g : Graph) : option ConversationRecord * Graph :=
  let g1 := create_node
              (Conversation conversation_id conversation_type name (clock 0) None)
              g in
  (Some (mkConversationRecord conversation_id conversation_type name (clock 0)),
   add_participants clock 1 conversation_id participant_ids g1).

Record MessageRecord : Type := mkMessageRecord {
  ms_message_id : string;
  ms_conversation_id : string;
  ms_sender_id : string;
  ms_sender_username : string;
  ms_content : string;
  ms_timestamp : Z;
  ms_edited : bool;
  ms_edited_at : option Z
}.

Definition set_last_message_at (now : Z) (p : NodeProps) : NodeProps :=
  match p with
  | Conversation c t n created _ => Conversation c t n created (Some now)
  | _ => p
  end.

(** [[
  MATCH (c:Conversation {conversation_id: $conv_id})
  MATCH (sender:Player {player_id: $sender_id})
  CREATE (m:Message {message_id: $msg_id, content: $content,
                     timestamp: datetime(), edited: false})
  CREATE (sender)-[:SENT]->(m)
  CREATE (c)-[:CONTAINS]->(m)
  SET c.last_message_at = datetime()
  RETURN m.message_id, $conv_id, sender.player_id, sender.username,
         m.content, m.timestamp, m.edited
]] *)
Definition send_message (now : Z) (message_id : string)
    (conversation_id sender_id content : string) (g : Graph)
    : option MessageRecord * Graph :=
  let rows := list_prod (match_nodes g (has_conversation_id conversation_id))
                        (match_player g sender_id) in
  let ms := fresh_nodes g (List.length rows) in
  let g1 := create_nodes
              (map (fun _ => Message message_id content now false None) rows) g in
  let g2 := create_rels
              (map (fun rm => (nid (snd (fst rm)), snd rm, SENT))
                 (combine rows ms)) g1 in
  let g3 := create_rels
              (map (fun rm => (nid (fst (fst rm)), snd rm, CONTAINS))
                 (combine rows ms)) g2 in
  let g4 := set_nodes (map (fun row => nid (fst row)) rows)
              (set_last_message_at now) g3 in
  let records :=
    map (fun row => mkMessageRecord message_id conversation_id
                      (player_id_of (snd row)) (username_of (snd row))
                      content now false None) rows in
  (single records, g4).

Definition set_edited (now : Z) (new_content : string) (p : NodeProps)
    : NodeProps :=
  match p with
  | Message m _ t _ _ => Message m new_content t true (Some now)
  | _ => p
  end.

Definition conversation_id_of (n : Node) : string :=
  match nprops n with Conversation c _ _ _ _ => c | _ => ""%string end.

Definition message_id_of (n : Node) : string :=
  match nprops n with Message m _ _ _ _ => m | _ => ""%string end.

Definition timestamp_of (n : Node) : Z :=
  match nprops n with Message _ _ t _ _ => t | _ => 0%Z end.

(** Rows of
[[
  MATCH (m:Message {message_id: $msg_id})
  MATCH (sender:Player)-[:SENT]->(m)
  MATCH (c:Conversation)-[:CONTAINS]->(m)
]]
    as [(m, (sender, c))]. *)
Definition edit_rows (g : Graph) (message_id : string)
    : list (Node * (Node * Node)) :=
  flat_map
    (fun m =>
       flat_map
         (fun s => map (fun c => (m, (snd s, snd c)))
                     (expand_in g is_CONTAINS is_Conversation m))
         (expand_in g is_SENT is_Player m))
    (match_nodes g (has_message_id message_id)).

(** [[
  MATCH (m:Message {message_id: $msg_id})
  MATCH (sender:Player)-[:SENT]->(m)
  MATCH (c:Conversation)-[:CONTAINS]->(m)
  SET m.content = $content, m.edited = true, m.edited_at = datetime()
  RETURN m.message_id, c.conversation_id, sender.player_id, sender.username,
         m.content, m.timestamp, m.edited, m.edited_at
]] *)
Definition edit_message (now : Z) (message_id new_content : string) (g : Graph)
    : option MessageRecord * Graph :=
  let rows := edit_rows g message_id in
  let g' := set_nodes (map (fun row => nid (fst row)) rows)
              (set_edited now new_content) g in
  let records :=
    map (fun row => mkMessageRecord (message_id_of (fst row))
                      (conversation_id_of (snd (snd row)))
                      (player_id_of (fst (snd row))) (username_of (fst (snd row)))
                      new_content (timestamp_of (fst row)) true (Some now)) rows in
  (single records, g').

(** ** PartyCRUD *)

Record PartyRecord : Type := mkPartyRecord {
  pa_party_id : string;
  pa_game_id : string;
  pa_max_size : Z;
  pa_is_public : bool
}.

(** A record of three strings: an identifier, [player_id] and [username]. *)
Record JoinRecord : Type := mkJoinRecord {
  jn_id : string;
  jn_player_id : string;
  jn_username : string
}.

Definition match_party (g : Graph) (party_id : string) : list Node :=
  match_nodes g (has_party_id party_id).

(** [[
  MATCH (leader:Player {player_id: $leader_id})
  CREATE (party:Party {party_id: $party_id, game_id: $game_id,
                       max_size: $max_size, is_public: $is_public,
                       created_at: datetime()})
  CREATE (leader)-[:IN_PARTY {joined_at: datetime(), role: 'leader'}]->(party)
  RETURN party.party_id, party.game_id, party.max_size, party.is_public,
         party.created_at
]] *)
Definition create_party (now : Z) (party_id : string) (leader_id game_id : string)
    (max_size : Z) (is_public : bool) (g : Graph) : option PartyRecord * Graph :=
  let rows := match_player g leader_id in
  let parties := fresh_nodes g (List.length rows) in
  let g1 := create_nodes
              (map (fun _ => Party party_id game_id max_size is_public now) rows)
              g in
  let g2 := create_rels
              (map (fun lp => (nid (fst lp), snd lp, IN_PARTY now "leader"))
                 (combine rows parties)) g1 in
  (single (map (fun _ => mkPartyRecord party_id game_id max_size is_public) rows),
   g2).

(** [[
  MATCH (party:Party {party_id: $party_id})
  MATCH (invitee:Player {player_id: $invitee_id})
  CREATE (invitee)-[:INVITED_TO {invited_by: $inviter_id, invited_at: datetime()}]->(party)
  RETURN party.party_id, invitee.player_id, invitee.username
]] *)
Definition invite_to_party (now : Z) (party_id inviter_id invitee_id : string)
    (g : Graph) : option JoinRecord * Graph :=
  let rows := list_prod (match_party g party_id) (match_player g invitee_id) in
  let g' := create_rels
              (map (fun row => (nid (snd row), nid (fst row),
                                INVITED_TO inviter_id now)) rows) g in
  (single (map (fun row => mkJoinRecord party_id (player_id_of (snd row))
                             (username_of (snd row))) rows),
   g').

(** Rows of
[[
  MATCH (player:Player {player_id: $player_id})
  MATCH (party:Party {party_id: $party_id})
  OPTIONAL MATCH (player)-[i:INVITED_TO]->(party)
]] *)
Definition join_party_rows (g : Graph) (party_id player_id : string)
    : list ((Node * Node) * option Rel) :=
  flat_map
    (fun pp => map (fun i => (pp, i))
                 (optional (rels_from_to g is_INVITED_TO (fst pp) (snd pp))))
    (list_prod (match_player g player_id) (match_party g party_id)).

(** [[
  MATCH (player:Player {player_id: $player_id})
  MATCH (party:Party {party_id: $party_id})
  OPTIONAL MATCH (player)-[i:INVITED_TO]->(party)
  DELETE i
  CREATE (player)-[:IN_PARTY {joined_at: datetime(), role: 'member'}]->(party)
  RETURN party.party_id, player.player_id, player.username
]] *)
Definition join_party (now : Z) (party_id player_id : string) (g : Graph)
    : option JoinRecord * Graph :=
  let rows := join_party_rows g party_id player_id in
  let g1 := delete_rels (bound_rids (map snd rows)) g in
  let g2 := create_rels
              (map (fun row => (nid (fst (fst row)), nid (snd (fst row)),
                                IN_PARTY now "member")) rows) g1 in
  (single (map (fun row => mkJoinRecord party_id (player_id_of (fst (fst row)))
                             (username_of (fst (fst row)))) rows),
   g2).


(** Rows of [(p:Player {player_id: $player_id})-[:IN_PARTY]->(party:Party)]. *)
Definition player_party_rows (g : Graph) (player_id : string)
    : list (Rel * Node) :=
  flat_map (expand_out g is_IN_PARTY is_Party) (match_player g player_id).


(** ** ClanCRUD *)

Record ClanRecord : Type := mkClanRecord {
  cl_clan_id : string;
  cl_name : string;
  cl_tag : string;
  cl_description : option string;
  cl_created_at : Z
}.

Definition match_clan (g : Graph) (clan_id : string) : list Node :=
  match_nodes g (has_clan_id clan_id).

(** [[
  MATCH (owner:Player {player_id: $owner_id})
  CREATE (clan:Clan {clan_id: $clan_id, name: $name, tag: $tag,
                     description: $description, created_at: datetime()})
  CREATE (owner)-[:BELONGS_TO {joined_at: datetime(), role: 'owner', rank: 1}]->(clan)
  RETURN clan.clan_id, clan.name, clan.tag, clan.description, clan.created_at
]] *)
Definition create_clan (now : Z) (clan_id : string) (name tag owner_id : string)
    (description : option string) (g : Graph) : option ClanRecord * Graph :=
  let rows := match_player g owner_id in
  let clans := fresh_nodes g (List.length rows) in
  let g1 := create_nodes
              (map (fun _ => Clan clan_id name tag description now) rows) g in
  let g2 := create_rels
              (map (fun oc => (nid (fst oc), snd oc, BELONGS_TO now "owner" 1))
                 (combine rows clans)) g1 in
  (single (map (fun _ => mkClanRecord clan_id name tag description now) rows),
   g2).

(** [count(x)] counts the rows in which [x] is not [null]. *)
Definition count_bound {A : Type} (col : list (option A)) : nat :=
  List.length (filter (fun o => match o with Some _ => true | None => false end)
                 col).

(** The rows of [(m:Player)-[bt:BELONGS_TO]->(clan:Clan {clan_id: $clan_id})]
    as [(bt, m)]: the members of the clan as the code reads them. *)
Definition clan_members (g : Graph) (clan_id : string) : list (Rel * Node) :=
  flat_map (expand_in g is_BELONGS_TO is_Player) (match_clan g clan_id).

(** [[
  MATCH (clan:Clan {clan_id: $clan_id})
  OPTIONAL MATCH (m:Player)-[:BELONGS_TO]->(clan)
  RETURN count(m) as member_count
]]
    An aggregation without grouping keys returns one row, also over an
    empty table. *)
Definition clan_member_count (g : Graph) (clan_id : string) : Z :=
  Z.of_nat
    (count_bound
       (flat_map (fun clan => optional (expand_in g is_BELONGS_TO is_Player clan))
          (match_clan g clan_id))).

(** [join_clan]: [rank = (count_record["member_count"] or 0) + 1], then
[[
  MATCH (player:Player {player_id: $player_id})
  MATCH (clan:Clan {clan_id: $clan_id})
  CREATE (player)-[:BELONGS_TO {joined_at: datetime(), role: 'member', rank: $rank}]->(clan)
  RETURN clan.clan_id, player.player_id, player.username
]] *)
Definition join_clan (now : Z) (clan_id player_id : string) (g : Graph)
    : option JoinRecord * Graph :=
  let rank := (py_or (clan_member_count g clan_id) 0 + 1)%Z in
  let rows := list_prod (match_player g player_id) (match_clan g clan_id) in
  let g' := create_rels
              (map (fun row => (nid (fst row), nid (snd row),
                                BELONGS_TO now "member" rank)) rows) g in
  (single (map (fun row => mkJoinRecord clan_id (player_id_of (fst row))
                             (username_of (fst row))) rows),
   g').

(** [[
  MATCH (p:Player {player_id: $player_id})-[bt:BELONGS_TO]->(clan:Clan {clan_id: $clan_id})
  DELETE bt
  RETURN count(bt) as deleted
]]
    and then [record["deleted"] > 0]. *)
Definition leave_clan (clan_id player_id : string) (g : Graph) : bool * Graph :=
  let rows :=
    flat_map (expand_out g is_BELONGS_TO (has_clan_id clan_id))
      (match_player g player_id) in
  (Nat.ltb 0 (List.length rows),
   delete_rels (map (fun row => rid (fst row)) rows) g).

Definition rank_of (r : Rel) : Z :=
  match rprops r with BELONGS_TO _ _ k => k | _ => 0%Z end.

Definition clan_id_of (n : Node) : string :=
  match nprops n with Clan c _ _ _ _ => c | _ => ""%string end.

Definition party_id_of (n : Node) : string :=
  match nprops n with Party p _ _ _ _ => p | _ => ""%string end.

(** Rows of [(p:Player {player_id: $player_id})-[bt:BELONGS_TO]->(clan:Clan)],
    the pattern of [get_player_clan]. *)
Definition player_clan_rows (g : Graph) (player_id : string)
    : list (Rel * Node) :=
  flat_map (expand_out g is_BELONGS_TO is_Clan) (match_player g player_id).

(** The ranks on the [BELONGS_TO] edges of a clan, oldest edge first. *)
Definition clan_ranks (g : Graph) (clan_id : string) : list Z :=
  map (fun row => rank_of (fst row)) (clan_members g clan_id).

(** ** Routes *)

(** What a route hands to FastAPI: a response with its status code, or an
    [HTTPException]. *)
Inductive HTTP (A : Type) : Type :=
| Response (status_code : nat) (body : A)
| HTTPException (status_code : nat) (detail : string).

Arguments Response {A} status_code body.
Arguments HTTPException {A} status_code detail.

Definition neo4j_unavailable : string :=
  "Neo4j is not connected. Social features are unavailable. Please start Neo4j and restart the server.".

(** The body of every route below: the dependency [require_neo4j] first,
    then the CRUD call, then [if not result: raise HTTPException(...)]. *)
Definition route {A : Type} (connected : bool) (ok_status err_status : nat)
    (detail : string) (call : Graph -> option A * Graph) (g : Graph)
    : HTTP A * Graph :=
  if connected then
    match call g with
    | (Some result, g') => (Response ok_status result, g')
    | (None, g') => (HTTPException err_status detail, g')
    end
  else (HTTPException 503 neo4j_unavailable, g).

Record FriendRequestCreate : Type := mkFriendRequestCreate {
  from_player_id : string;
  to_player_id : string;
  message : option string
}.

(** Python's [request.message or ""]. *)
Definition or_empty (m : option string) : string :=
  match m with Some s => s | None => ""%string end.

Definition route_send_friend_request (connected : bool) (now : Z)
    (request : FriendRequestCreate) : Graph -> HTTP FriendRequestRecord * Graph :=
  route connected 201 400 "Failed to send friend request"
    (send_friend_request now (from_player_id request) (to_player_id request)
       (or_empty (message request))).

Definition route_block_player (connected : bool) (now : Z)
    (blocker_id blocked_id : string) (reason : option string)
    : Graph -> HTTP BlockRecord * Graph :=
  route connected 201 400 "Failed to block player"
    (block_player now blocker_id blocked_id reason).

Definition route_send_message (connected : bool) (now : Z) (message_id : string)
    (conversation_id sender_id content : string)
    : Graph -> HTTP MessageRecord * Graph :=
  route connected 201 400 "Failed to send message"
    (send_message now message_id conversation_id sender_id content).



(** ** Auxiliary definitions of the proofs *)

(** The relationships a [CREATE] adds, numbered from [k]. *)
Fixpoint number_rels (k : nat) (es : list (nat * nat * RelProps)) : list Rel :=
  match es with
  | [] => []
  | e :: es' => mkRel k (fst (fst e)) (snd (fst e)) (snd e) :: number_rels (S k) es'
  end.

Fixpoint number_nodes (k : nat) (ps : list NodeProps) : list Node :=
  match ps with
  | [] => []
  | p :: ps' => mkNode k p :: number_nodes (S k) ps'
  end.

(** Rows of [(p:Player {player_id: $player_id})-[r:TYPE]->(m:Player)], the
    pattern of [get_friends], [get_blocked_players] and [get_following]. *)
Definition player_out_rows (g : Graph) (ty : Rel -> bool) (player_id : string)
    : list (Rel * Node) :=
  flat_map (expand_out g ty is_Player) (match_player g player_id).

(** A run of [join_clan] calls on one clan, each with its instant and its
    player, in order. *)
Fixpoint join_clan_all (clan_id : string) (joins : list (Z * string))
    (g : Graph) : Graph :=
  match joins with
  | [] => g
  | j :: rest =>
      join_clan_all clan_id rest (snd (join_clan (fst j) clan_id (snd j) g))
  end.

(** The parties, and the clans, a player is a member of: what the patterns
    of [get_player_party] and [get_player_clan] match. *)
Definition player_parties (g : Graph) (player_id : string) : list string :=
  map (fun row => party_id_of (snd row)) (player_party_rows g player_id).

Definition player_clans (g : Graph) (player_id : string) : list string :=
  map (fun row => clan_id_of (snd row)) (player_clan_rows g player_id).

(** The [player_id]s of the Player nodes, one entry per node. *)
Definition player_ids (g : Graph) : list string :=
  map player_id_of (match_nodes g is_Player).

(** The order of [ORDER BY mutual_friends DESC]. *)
Definition mutual_friends_desc (x y : SuggestionRecord) : Prop :=
  sg_mutual_friends y <= sg_mutual_friends x.

(** The count the specification names for a candidate [C] of player [A]:
    the number of distinct friends of [A] that have [C] as a friend.  It
    follows the words of the specification, not the statement of
    [get_friend_suggestions], with which it is compared. *)
Definition distinct_intermediate_friends (g : Graph) (A C : string) : nat :=
  List.length
    (nodup string_dec
       (filter (fun F => existsb (String.eqb C)
                           (map fd_player_id (get_friends F g)))
          (map fd_player_id (get_friends A g)))).

(** ** Example graphs, built with the operations *)

Definition register (player_id : string) (g : Graph) : Graph :=
  snd (create_player_node 0 player_id player_id "offline" g).

(** [send_friend_request(A, B)] and then [accept_friend_request(A, B)]. *)
Definition befriend (A B : string) (g : Graph) : Graph :=
  snd (accept_friend_request 0 A B (snd (send_friend_request 0 A B "hi" g))).

Definition two_players : Graph := register "B" (register "A" empty_graph).

(** [B] has sent [A] a request that is still pending. *)
Definition pending_from_B : Graph :=
  snd (send_friend_request 1 "B" "A" "hello" two_players).

(** [A] and [F] are friends, [F] and [C] are friends. *)
Definition friend_of_friend : Graph :=
  befriend "F" "C" (befriend "A" "F"
    (register "C" (register "F" (register "A" empty_graph)))).

(** ... and [C] has blocked [A]. *)
Definition blocked_by_candidate : Graph :=
  snd (block_player 1 "C" "A" None friend_of_friend).

(** [A] sent [F1] three requests before [F1] accepted; [F1] is a friend of
    [C1]; [F2] and [F3] are friends of [A] and of [C2]. *)
Definition parallel_friendships : Graph :=
  befriend "F3" "C2" (befriend "F2" "C2" (befriend "A" "F3" (befriend "A" "F2"
    (befriend "F1" "C1"
      (befriend "A" "F1"
        (snd (send_friend_request 0 "A" "F1" "hi"
          (snd (send_friend_request 0 "A" "F1" "hi"
            (register "C2" (register "C1" (register "F3" (register "F2"
              (register "F1" (register "A" empty_graph))))))))))))))).

(** [A] leads party [p1] and owns clan [c1]; [B] leads party [p2] and owns
    clan [c2]. *)
Definition parties_and_clans : Graph :=
  snd (create_clan 4 "c2" "Wolves" "WLF" "B" None
    (snd (create_clan 3 "c1" "Owls" "OWL" "A" None
      (snd (create_party 2 "p2" "B" "chess" 4 false
        (snd (create_party 1 "p1" "A" "chess" 4 false two_players))))))).

Definition four_players : Graph :=
  register "D" (register "C" (register "B" (register "A" empty_graph))).

(** [A] founds clan [c1]; nobody else has joined yet. *)
Definition new_clan : Graph :=
  snd (create_clan 1 "c1" "Owls" "OWL" "A" None four_players).

(** [B] and [C] join, [B] leaves, [D] joins. *)
Definition clan_after_leave : Graph :=
  snd (join_clan 5 "c1" "D"
    (snd (leave_clan "c1" "B"
      (snd (join_clan 3 "c1" "C" (snd (join_clan 2 "c1" "B" new_clan))))))).

(** A conversation whose only participant is [A]. *)
Definition conversation_of_A : Graph :=
  snd (create_conversation (fun k => Z.of_nat k) "conv" "group" ["A"%string]
         (Some "solo"%string) two_players).

(** [A] has sent one message in it. *)
Definition one_message : Graph :=
  snd (send_message 7 "m1" "conv" "A" "first" conversation_of_A).

(** ** Well-formed graphs *)

(** What the store guarantees: node identities are distinct and below the
    next free one, and so are relationship identities. *)
Definition wf_graph (g : Graph) : Prop :=
  NoDup (map nid (nodes g))
  /\ Forall (fun n => nid n < next_node g) (nodes g)
  /\ NoDup (map rid (rels g))
  /\ Forall (fun r => rid r < next_rel g) (rels g).

(** * The other operations of the module *)

(** ** Two more updating clauses *)

(** [DETACH DELETE n] for every row; [ids] are the nodes bound to [n]: the
    nodes go, and with them every relationship that starts or ends at one
    of them. *)
Definition detach_delete (ids : list nat) (g : Graph) : Graph :=
  mkGraph
    (filter (fun n => negb (existsb (Nat.eqb (nid n)) ids)) (nodes g))
    (filter (fun r => negb (existsb (Nat.eqb (rsrc r)) ids)
                      && negb (existsb (Nat.eqb (rdst r)) ids)) (rels g))
    (next_node g) (next_rel g).

(** [SET r.key = value] for every row; [ids] are the relationships bound to
    [r]. *)
Definition set_rels (ids : list nat) (upd : RelProps -> RelProps)
    (g : Graph) : Graph :=
  mkGraph (nodes g)
    (map (fun r => if existsb (Nat.eqb (rid r)) ids
                   then mkRel (rid r) (rsrc r) (rdst r) (upd (rprops r)) else r)
       (rels g))
    (next_node g) (next_rel g).

(** [RETURN count(x) as n] and then [record["n"] > 0]. *)
Definition any_row {A : Type} (rows : list A) : bool :=
  Nat.ltb 0 (List.length rows).

(** A [SKIP] or [LIMIT] parameter: a negative number is rejected when the
    statement runs, one above 64 bits by the driver. *)
Definition row_count (n : Z) : option nat :=
  if Z.ltb n 0 then None
  else if Z.ltb int64_max n then None
  else Some (Z.to_nat n).

(** ** PlayerNodesCRUD, continued *)

Definition player_record_of (n : Node) : PlayerRecord :=
  mkPlayerRecord (player_id_of n) (username_of n) (status_of n).

(** [[
  MATCH (p:Player {player_id: $player_id})
  RETURN p.player_id as player_id, p.username as username, p.status as status
]] *)
Definition get_player_node (player_id : string) (g : Graph)
    : option PlayerRecord :=
  single (map player_record_of (match_player g player_id)).

Definition set_status (status : string) (p : NodeProps) : NodeProps :=
  match p with
  | Player i u _ c => Player i u status c
  | _ => p
  end.

Definition set_username (username : string) (p : NodeProps) : NodeProps :=
  match p with
  | Player i _ s c => Player i username s c
  | _ => p
  end.

(** [[
  MATCH (p:Player {player_id: $player_id})
  SET p.status = $status
  RETURN p.player_id as player_id, p.username as username, p.status as status
]] *)
Definition update_player_status (player_id status : string) (g : Graph)
    : option PlayerRecord * Graph :=
  let rows := match_player g player_id in
  (single (map (fun p => mkPlayerRecord (player_id_of p) (username_of p) status)
             rows),
   set_nodes (map nid rows) (set_status status) g).

(** [[
  MATCH (p:Player {player_id: $player_id})
  SET p.username = $username
  RETURN p.player_id as player_id, p.username as username, p.status as status
]] *)
Definition update_player_username (player_id username : string) (g : Graph)
    : option PlayerRecord * Graph :=
  let rows := match_player g player_id in
  (single (map (fun p => mkPlayerRecord (player_id_of p) username (status_of p))
             rows),
   set_nodes (map nid rows) (set_username username) g).

(** [[
  MATCH (p:Player {player_id: $player_id})
  DETACH DELETE p
  RETURN count(p) as deleted
]] *)
Definition delete_player_node (player_id : string) (g : Graph) : bool * Graph :=
  let rows := match_player g player_id in
  (any_row rows, detach_delete (map nid rows) g).

(** ** FriendshipsCRUD, continued *)

(** [[
  MATCH (p1:Player {player_id: $player1_id})-[:FRIENDS_WITH]->(mutual:Player)<-[:FRIENDS_WITH]-(p2:Player {player_id: $player2_id})
  RETURN mutual.player_id as player_id, mutual.username as username, mutual.status as status
]]
    The two relationships of the one pattern are different relationships. *)
Definition get_mutual_friends (player1_id player2_id : string) (g : Graph)
    : list PlayerRecord :=
  flat_map
    (fun p1 =>
       flat_map
         (fun fm =>
            map (fun _ => player_record_of (snd fm))
              (filter (fun fp => negb (Nat.eqb (rid (fst fp)) (rid (fst fm))))
                 (expand_in g is_FRIENDS_WITH (has_player_id player2_id)
                    (snd fm))))
         (expand_out g is_FRIENDS_WITH is_Player p1))
    (match_player g player1_id).

Definition set_nickname (nickname : string) (p : RelProps) : RelProps :=
  match p with
  | FRIENDS_WITH s _ => FRIENDS_WITH s (Some nickname)
  | _ => p
  end.

Record NicknameRecord : Type := mkNicknameRecord {
  nk_player_id : string;
  nk_username : string;
  nk_nickname : string
}.

(** Rows of
    [(p:Player {player_id: $player_id})-[f:FRIENDS_WITH]->(friend:Player {player_id: $friend_id})]. *)
Definition friendship_rows (g : Graph) (player_id friend_id : string)
    : list (Rel * Node) :=
  flat_map (expand_out g is_FRIENDS_WITH (has_player_id friend_id))
    (match_player g player_id).

(** [[
  MATCH (p:Player {player_id: $player_id})-[f:FRIENDS_WITH]->(friend:Player {player_id: $friend_id})
  SET f.nickname = $nickname
  RETURN friend.player_id as player_id, friend.username as username, f.nickname as nickname
]] *)
Definition set_friend_nickname (player_id friend_id nickname : string)
    (g : Graph) : option NicknameRecord * Graph :=
  let rows := friendship_rows g player_id friend_id in
  (single (map (fun row => mkNicknameRecord (player_id_of (snd row))
                             (username_of (snd row)) nickname) rows),
   set_rels (map (fun row => rid (fst row)) rows) (set_nickname nickname) g).

(** [[
  MATCH (from:Player {player_id: $from_id})-[r:SENT_REQUEST]->(to:Player {player_id: $to_id})
  DELETE r
  RETURN count(r) as deleted
]] *)
Definition decline_friend_request (from_player_id to_player_id : string)
    (g : Graph) : bool * Graph :=
  let rows := request_rows g from_player_id to_player_id in
  (any_row rows, delete_rels (map (fun row => rid (fst (snd row))) rows) g).

(** Rows of
    [(p:Player {player_id: $player_id})-[f:FRIENDS_WITH]-(friend:Player {player_id: $friend_id})],
    a pattern without direction. *)
Definition unfriend_rows (g : Graph) (player_id friend_id : string)
    : list ((Node * Node) * Rel) :=
  flat_map
    (fun pf => map (fun f => (pf, f))
                 (rels_between g is_FRIENDS_WITH (fst pf) (snd pf)))
    (list_prod (match_player g player_id) (match_player g friend_id)).

(** [[
  MATCH (p:Player {player_id: $player_id})-[f:FRIENDS_WITH]-(friend:Player {player_id: $friend_id})
  DELETE f
  RETURN count(f) as deleted
]] *)
Definition remove_friend (player_id friend_id : string) (g : Graph)
    : bool * Graph :=
  let rows := unfriend_rows g player_id friend_id in
  (any_row rows, delete_rels (map (fun row => rid (snd row)) rows) g).

(** ** BlockingCRUD, continued *)

(** [[
  MATCH (blocker:Player {player_id: $blocker_id})-[b:BLOCKED]->(blocked:Player {player_id: $blocked_id})
  DELETE b
  RETURN count(b) as deleted
]] *)
Definition unblock_player (blocker_id blocked_id : string) (g : Graph)
    : bool * Graph :=
  let rows :=
    flat_map (expand_out g is_BLOCKED (has_player_id blocked_id))
      (match_player g blocker_id) in
  (any_row rows, delete_rels (map (fun row => rid (fst row)) rows) g).

(** ** FollowCRUD, continued *)

(** [[
  MATCH (follower:Player)-[f:FOLLOWS]->(p:Player {player_id: $player_id})
  RETURN follower.player_id as player_id, follower.username as username,
         follower.status as status, f.since as following_since
]] *)
Definition get_followers (player_id : string) (g : Graph) : list FollowRecord :=
  flat_map
    (fun p =>
       map (fun ff => mkFollowRecord (player_id_of (snd ff)) (username_of (snd ff))
                        (status_of (snd ff)) (since_of (fst ff)))
           (expand_in g is_FOLLOWS is_Player p))
    (match_player g player_id).

(** ** MessagingCRUD, continued *)

Definition is_Message (n : Node) : bool :=
  match nprops n with Message _ _ _ _ _ => true | _ => false end.

Definition content_of (n : Node) : string :=
  match nprops n with Message _ c _ _ _ => c | _ => ""%string end.

Definition edited_of (n : Node) : bool :=
  match nprops n with Message _ _ _ e _ => e | _ => false end.

Definition edited_at_of (n : Node) : option Z :=
  match nprops n with Message _ _ _ _ a => a | _ => None end.

(** Rows of
[[
  MATCH (c:Conversation {conversation_id: $conv_id})-[:CONTAINS]->(m:Message)
  MATCH (sender:Player)-[:SENT]->(m)
]]
    as [(m, sender)]. *)
Definition message_rows (g : Graph) (conversation_id : string)
    : list (Node * Node) :=
  flat_map
    (fun c =>
       flat_map
         (fun cm => map (fun s => (snd cm, snd s))
                      (expand_in g is_SENT is_Player (snd cm)))
         (expand_out g is_CONTAINS is_Message c))
    (match_nodes g (has_conversation_id conversation_id)).

Definition message_record_of (conversation_id : string) (row : Node * Node)
    : MessageRecord :=
  mkMessageRecord (message_id_of (fst row)) conversation_id
    (player_id_of (snd row)) (username_of (snd row))
    (content_of (fst row)) (timestamp_of (fst row))
    (edited_of (fst row)) (edited_at_of (fst row)).

(** [ORDER BY m.timestamp DESC]; rows with equal timestamps keep their
    order (Cypher fixes none for them). *)
Fixpoint insert_newest (x : MessageRecord) (l : list MessageRecord)
    : list MessageRecord :=
  match l with
  | [] => [x]
  | y :: l' =>
      if Z.leb (ms_timestamp y) (ms_timestamp x)
      then x :: y :: l'
      else y :: insert_newest x l'
  end.

Fixpoint order_by_timestamp_desc (l : list MessageRecord) : list MessageRecord :=
  match l with
  | [] => []
  | x :: l' => insert_newest x (order_by_timestamp_desc l')
  end.

(** [[
  MATCH (c:Conversation {conversation_id: $conv_id})-[:CONTAINS]->(m:Message)
  MATCH (sender:Player)-[:SENT]->(m)
  RETURN m.message_id, $conv_id, sender.player_id, sender.username,
         m.content, m.timestamp, m.edited, m.edited_at
  ORDER BY m.timestamp DESC
  SKIP $offset
  LIMIT $limit
]] *)
Definition get_messages (conversation_id : string) (limit offset : Z)
    (g : Graph) : Outcome (list MessageRecord) :=
  match row_count offset, row_count limit with
  | Some skip, Some take =>
      Returned
        (firstn take
           (skipn skip
              (order_by_timestamp_desc
                 (map (message_record_of conversation_id)
                    (message_rows g conversation_id)))))
  | _, _ => Raised "SKIP or LIMIT: not a non-negative 64-bit integer"%string
  end.

Definition set_muted (muted : bool) (p : RelProps) : RelProps :=
  match p with
  | MEMBER_OF j r _ => MEMBER_OF j r muted
  | _ => p
  end.

(** Rows of
    [(p:Player {player_id: $player_id})-[m:MEMBER_OF]->(c:Conversation {conversation_id: $conv_id})]. *)
Definition membership_rows (g : Graph) (player_id conversation_id : string)
    : list (Rel * Node) :=
  flat_map (expand_out g is_MEMBER_OF (has_conversation_id conversation_id))
    (match_player g player_id).

(** [[
  MATCH (p:Player {player_id: $player_id})-[m:MEMBER_OF]->(c:Conversation {conversation_id: $conv_id})
  SET m.muted = $muted
  RETURN count(m) as updated
]] *)
Definition mute_conversation (player_id conversation_id : string) (muted : bool)
    (g : Graph) : bool * Graph :=
  let rows := membership_rows g player_id conversation_id in
  (any_row rows, set_rels (map (fun row => rid (fst row)) rows) (set_muted muted) g).

(** [[
  MATCH (m:Message {message_id: $msg_id})
  DETACH DELETE m
  RETURN count(m) as deleted
]] *)
Definition delete_message (message_id : string) (g : Graph) : bool * Graph :=
  let rows := match_nodes g (has_message_id message_id) in
  (any_row rows, detach_delete (map nid rows) g).

(** [[
  MATCH (p:Player {player_id: $player_id})-[m:MEMBER_OF]->(c:Conversation {conversation_id: $conv_id})
  DELETE m
  RETURN count(m) as deleted
]] *)
Definition leave_conversation (player_id conversation_id : string) (g : Graph)
    : bool * Graph :=
  let rows := membership_rows g player_id conversation_id in
  (any_row rows, delete_rels (map (fun row => rid (fst row)) rows) g).

(** ** PartyCRUD, continued *)

(** [[
  MATCH (p:Player {player_id: $player_id})-[ip:IN_PARTY]->(party:Party {party_id: $party_id})
  DELETE ip
  RETURN count(ip) as deleted
]] *)
Definition leave_party (party_id player_id : string) (g : Graph) : bool * Graph :=
  let rows :=
    flat_map (expand_out g is_IN_PARTY (has_party_id party_id))
      (match_player g player_id) in
  (any_row rows, delete_rels (map (fun row => rid (fst row)) rows) g).

(** [[
  MATCH (party:Party {party_id: $party_id})
  DETACH DELETE party
  RETURN count(party) as deleted
]] *)
Definition disband_party (party_id : string) (g : Graph) : bool * Graph :=
  let rows := match_party g party_id in
  (any_row rows, detach_delete (map nid rows) g).

(** ** ClanCRUD, continued *)

Record PlayerClanRecord : Type := mkPlayerClanRecord {
  pc_clan_id : string;
  pc_name : string;
  pc_tag : string;
  pc_role : string;
  pc_rank : Z
}.

Definition clan_name_of (n : Node) : string :=
  match nprops n with Clan _ x _ _ _ => x | _ => ""%string end.

Definition clan_tag_of (n : Node) : string :=
  match nprops n with Clan _ _ x _ _ => x | _ => ""%string end.

Definition role_of (r : Rel) : string :=
  match rprops r with
  | BELONGS_TO _ x _ => x
  | IN_PARTY _ x => x
  | MEMBER_OF _ x _ => x
  | _ => ""%string
  end.

(** [[
  MATCH (p:Player {player_id: $player_id})-[bt:BELONGS_TO]->(clan:Clan)
  RETURN clan.clan_id as clan_id, clan.name as name, clan.tag as tag,
         bt.role as role, bt.rank as rank
]]
    read with [result.single()]. *)
Definition get_player_clan (player_id : string) (g : Graph)
    : option PlayerClanRecord :=
  single (map (fun row => mkPlayerClanRecord (clan_id_of (snd row))
                            (clan_name_of (snd row)) (clan_tag_of (snd row))
                            (role_of (fst row)) (rank_of (fst row)))
            (player_clan_rows g player_id)).

Definition set_role_rank (role : string) (rank : option Z) (p : RelProps)
    : RelProps :=
  match p with
  | BELONGS_TO j _ k =>
      BELONGS_TO j role (match rank with Some k' => k' | None => k end)
  | _ => p
  end.

Record MemberRoleRecord : Type := mkMemberRoleRecord {
  mr_player_id : string;
  mr_username : string;
  mr_role : string;
  mr_rank : Z
}.

(** Rows of
    [(p:Player {player_id: $player_id})-[bt:BELONGS_TO]->(clan:Clan {clan_id: $clan_id})]
    as [(p, (bt, clan))]. *)
Definition clan_membership_rows (g : Graph) (clan_id player_id : string)
    : list (Node * (Rel * Node)) :=
  flat_map
    (fun p => map (fun bc => (p, bc))
                (expand_out g is_BELONGS_TO (has_clan_id clan_id) p))
    (match_player g player_id).

(** [update_member_role]: the [SET] clause is ["bt.role = $role"], followed
    by ["bt.rank = $rank"] when [rank is not None]:
[[
  MATCH (p:Player {player_id: $player_id})-[bt:BELONGS_TO]->(clan:Clan {clan_id: $clan_id})
  SET bt.role = $role, bt.rank = $rank
  RETURN p.player_id as player_id, p.username as username, bt.role as role, bt.rank as rank
]] *)
Definition update_member_role (clan_id player_id role : string)
    (rank : option Z) (g : Graph) : option MemberRoleRecord * Graph :=
  let rows := clan_membership_rows g clan_id player_id in
  (single (map (fun row =>
                  mkMemberRoleRecord (player_id_of (fst row))
                    (username_of (fst row)) role
                    (match rank with
                     | Some k => k
                     | None => rank_of (fst (snd row))
                     end)) rows),
   set_rels (map (fun row => rid (fst (snd row))) rows)
     (set_role_rank role rank) g).

(** [[
  MATCH (clan:Clan {clan_id: $clan_id})
  DETACH DELETE clan
  RETURN count(clan) as deleted
]] *)
Definition disband_clan (clan_id : string) (g : Graph) : bool * Graph :=
  let rows := match_clan g clan_id in
  (any_row rows, detach_delete (map nid rows) g).

(** ** Routes, continued *)

(** The body of the routes over a CRUD method that returns a [bool]:
    [if not deleted: raise HTTPException(status_code=404, ...)], else a
    message. *)
Definition route_flag (connected : bool) (detail done : string)
    (call : Graph -> bool * Graph) (g : Graph) : HTTP string * Graph :=
  if connected then
    match call g with
    | (true, g') => (Response 200 done, g')
    | (false, g') => (HTTPException 404 detail, g')
    end
  else (HTTPException 503 neo4j_unavailable, g).

Definition route_decline_friend_request (connected : bool)
    (from_player_id to_player_id : string) : Graph -> HTTP string * Graph :=
  route_flag connected "Friend request not found" "Friend request declined"
    (decline_friend_request from_player_id to_player_id).

Definition route_remove_friend (connected : bool) (player_id friend_id : string)
    : Graph -> HTTP string * Graph :=
  route_flag connected "Friendship not found" "Friend removed successfully"
    (remove_friend player_id friend_id).

(** ** Auxiliary definitions of the further proofs *)

(** The order of [ORDER BY m.timestamp DESC]. *)
Definition newest_first (x y : MessageRecord) : Prop :=
  (ms_timestamp y <= ms_timestamp x)%Z.

(** ** The store under a sequence of calls *)

(** A call of a CRUD method that writes, with its arguments; the values of
    [datetime()] and of [generate_id()] are arguments too. *)
Inductive Call : Type :=
| CreatePlayerNode (now : Z) (player_id username status : string)
| UpdatePlayerStatus (player_id status : string)
| UpdatePlayerUsername (player_id username : string)
| DeletePlayerNode (player_id : string)
| SendFriendRequest (now : Z) (from_id to_id message : string)
| AcceptFriendRequest (now : Z) (from_id to_id : string)
| SetFriendNickname (player_id friend_id nickname : string)
| DeclineFriendRequest (from_id to_id : string)
| RemoveFriend (player_id friend_id : string)
| BlockPlayer (now : Z) (blocker_id blocked_id : string) (reason : option string)
| UnblockPlayer (blocker_id blocked_id : string)
| CreateConversation (clock : nat -> Z) (conversation_id conversation_type : string)
    (participant_ids : list string) (name : option string)
| SendMessage (now : Z) (message_id conversation_id sender_id content : string)
| EditMessage (now : Z) (message_id new_content : string)
| MuteConversation (player_id conversation_id : string) (muted : bool)
| DeleteMessage (message_id : string)
| LeaveConversation (player_id conversation_id : string)
| CreateParty (now : Z) (party_id leader_id game_id : string) (max_size : Z)
    (is_public : bool)
| InviteToParty (now : Z) (party_id inviter_id invitee_id : string)
| JoinParty (now : Z) (party_id player_id : string)
| LeaveParty (party_id player_id : string)
| DisbandParty (party_id : string)
| CreateClan (now : Z) (clan_id name tag owner_id : string)
    (description : option string)
| JoinClan (now : Z) (clan_id player_id : string)
| UpdateMemberRole (clan_id player_id role : string) (rank : option Z)
| LeaveClan (clan_id player_id : string)
| DisbandClan (clan_id : string)
| FollowPlayer (now : Z) (follower_id following_id : string)
| UnfollowPlayer (follower_id following_id : string).

(** The graph after a call. *)
Definition run (c : Call) (g : Graph) : Graph :=
  match c with
  | CreatePlayerNode now p u s => snd (create_player_node now p u s g)
  | UpdatePlayerStatus p s => snd (update_player_status p s g)
  | UpdatePlayerUsername p u => snd (update_player_username p u g)
  | DeletePlayerNode p => snd (delete_player_node p g)
  | SendFriendRequest now a b m => snd (send_friend_request now a b m g)
  | AcceptFriendRequest now a b => snd (accept_friend_request now a b g)
  | SetFriendNickname p f n => snd (set_friend_nickname p f n g)
  | DeclineFriendRequest a b => snd (decline_friend_request a b g)
  | RemoveFriend p f => snd (remove_friend p f g)
  | BlockPlayer now a b r => snd (block_player now a b r g)
  | UnblockPlayer a b => snd (unblock_player a b g)
  | CreateConversation clock c t ps n => snd (create_conversation clock c t ps n g)
  | SendMessage now m c s x => snd (send_message now m c s x g)
  | EditMessage now m x => snd (edit_message now m x g)
  | MuteConversation p c b => snd (mute_conversation p c b g)
  | DeleteMessage m => snd (delete_message m g)
  | LeaveConversation p c => snd (leave_conversation p c g)
  | CreateParty now p l gm ms pub => snd (create_party now p l gm ms pub g)
  | InviteToParty now p i j => snd (invite_to_party now p i j g)
  | JoinParty now p q => snd (join_party now p q g)
  | LeaveParty p q => snd (leave_party p q g)
  | DisbandParty p => snd (disband_party p g)
  | CreateClan now c n t o d => snd (create_clan now c n t o d g)
  | JoinClan now c p => snd (join_clan now c p g)
  | UpdateMemberRole c p r k => snd (update_member_role c p r k g)
  | LeaveClan c p => snd (leave_clan c p g)
  | DisbandClan c => snd (disband_clan c g)
  | FollowPlayer now a b => snd (follow_player now a b g)
  | UnfollowPlayer a b => snd (unfollow_player a b g)
  end.

(** The graph after a sequence of calls, first call first. *)
Definition run_all (calls : list Call) (g : Graph) : Graph :=
  fold_left (fun g' c => run c g') calls g.

(** Every relationship starts and ends at a node of the graph. *)
Definition closed_graph (g : Graph) : Prop :=
  Forall (fun r => In (rsrc r) (map nid (nodes g))
                   /\ In (rdst r) (map nid (nodes g))) (rels g).

(** Every [FRIENDS_WITH] edge has a [FRIENDS_WITH] edge the other way. *)
Definition friendships_paired (g : Graph) : Prop :=
  forall r, In r (rels g) -> is_FRIENDS_WITH r = true ->
    exists r', In r' (rels g) /\ is_FRIENDS_WITH r' = true
               /\ rsrc r' = rdst r /\ rdst r' = rsrc r.

(** ** Further example graphs *)

(** [A] has sent [B] two requests; both are pending. *)
Definition two_requests : Graph :=
  snd (send_friend_request 2 "A" "B" "again"
         (snd (send_friend_request 1 "A" "B" "hi" two_players))).

(** [A] and [B] are friends. *)
Definition two_friends : Graph := befriend "A" "B" two_players.

(** [B], who is not a member, has sent a second message to the conversation
    of [A]. *)
Definition two_messages : Graph :=
  snd (send_message 9 "m2" "conv" "B" "second" one_message).

(** [A] leads party [p1] and has invited [B] twice. *)
Definition invited_twice : Graph :=
  snd (invite_to_party 3 "p1" "A" "B"
         (snd (invite_to_party 2 "p1" "A" "B"
                (snd (create_party 1 "p1" "A" "chess" 4 false two_players))))).
(** * Properties of the operations *)

(** ** Lists *)

Lemma filter_all {A : Type} (f : A -> bool) (l : list A) :
  (forall x, In x l -> f x = true) -> filter f l = l.
Proof.
  induction l as [|x l IH]; simpl; intros H; [reflexivity|].
  rewrite (H x (or_introl eq_refl)). f_equal. apply IH.
  intros y Hy. apply H. now right.
Qed.

Lemma filter_none {A : Type} (f : A -> bool) (l : list A) :
  (forall x, In x l -> f x = false) -> filter f l = [].
Proof.
  induction l as [|x l IH]; simpl; intros H; [reflexivity|].
  rewrite (H x (or_introl eq_refl)). apply IH.
  intros y Hy. apply H. now right.
Qed.

Lemma NoDup_map_inj {A B : Type} (f : A -> B) (l : list A) (x y : A) :
  NoDup (map f l) -> In x l -> In y l -> f x = f y -> x = y.
Proof.
  induction l as [|z l IH]; intros Hnd Hx Hy Heq; [destruct Hx|].
  simpl in Hnd. inversion Hnd as [|? ? Hz Hnd']; subst.
  destruct Hx as [->|Hx], Hy as [->|Hy]; auto.
  - exfalso. apply Hz. rewrite Heq. now apply in_map.
  - exfalso. apply Hz. rewrite <- Heq. now apply in_map.
Qed.

Section ListFacts.

Context {A B : Type}.

Lemma list_prod_nil_r (l : list A) : list_prod l (@nil B) = [].
Proof. induction l; simpl; auto. Qed.

Lemma in_optional (x : A) (l : list A) : In (Some x) (optional l) <-> In x l.
Proof.
  destruct l as [|y l].
  - simpl. split; [intros [H|[]]; discriminate | intros []].
  - unfold optional. rewrite in_map_iff. split.
    + intros [z [Hz Hin]]. now inversion Hz; subst.
    + intros H. now exists x.
Qed.


Lemma count_bound_optional (l : list A) :
  count_bound (optional l) = List.length l.
Proof.
  destruct l as [|y l]; [reflexivity|].
  unfold optional, count_bound.
  rewrite filter_all, length_map; [reflexivity|].
  intros o Ho. apply in_map_iff in Ho. destruct Ho as [z [<- _]]. reflexivity.
Qed.

Lemma count_bound_app (l l' : list (option A)) :
  count_bound (l ++ l') = count_bound l + count_bound l'.
Proof. unfold count_bound. now rewrite filter_app, length_app. Qed.

End ListFacts.

Lemma count_bound_flat_map {A B : Type} (f : A -> list B) (l : list A) :
  count_bound (flat_map (fun x => optional (f x)) l)
  = List.length (flat_map f l).
Proof.
  induction l as [|x l IH]; simpl; [reflexivity|].
  now rewrite count_bound_app, count_bound_optional, length_app, IH.
Qed.

Lemma in_bound_rids (r : Rel) (col : list (option Rel)) :
  In (Some r) col -> In (rid r) (bound_rids col).
Proof.
  intros H. unfold bound_rids. apply in_flat_map.
  exists (Some r). split; [assumption | now left].
Qed.

Lemma existsb_eqb_In (k : nat) (ids : list nat) :
  existsb (Nat.eqb k) ids = true <-> In k ids.
Proof.
  rewrite existsb_exists. split.
  - intros [x [Hx Heq]]. apply Nat.eqb_eq in Heq. now subst.
  - intros H. exists k. split; [assumption | apply Nat.eqb_refl].
Qed.

(** ** Labels and selectors *)

Lemma has_player_id_true (pid : string) (n : Node) :
  has_player_id pid n = true <-> is_Player n = true /\ player_id_of n = pid.
Proof.
  unfold has_player_id, is_Player, player_id_of.
  destruct (nprops n); try (split; [discriminate | intros [H _]; discriminate]).
  rewrite String.eqb_eq. tauto.
Qed.

Lemma in_match_nodes (g : Graph) (sel : Node -> bool) (n : Node) :
  In n (match_nodes g sel) <-> In n (nodes g) /\ sel n = true.
Proof. unfold match_nodes. apply filter_In. Qed.

Lemma in_match_player (g : Graph) (pid : string) (n : Node) :
  In n (match_player g pid)
  <-> In n (nodes g) /\ is_Player n = true /\ player_id_of n = pid.
Proof.
  unfold match_player. rewrite in_match_nodes, has_player_id_true. tauto.
Qed.

Lemma in_expand_out g ty sel n r m :
  In (r, m) (expand_out g ty sel n)
  <-> In r (rels g) /\ ty r = true /\ rsrc r = nid n
      /\ In m (nodes g) /\ sel m = true /\ nid m = rdst r.
Proof.
  unfold expand_out. rewrite in_flat_map. split.
  - intros [r' [Hr' Hin]]. apply in_map_iff in Hin.
    destruct Hin as [m' [Heq Hm']]. inversion Heq; subst r' m'.
    apply filter_In in Hr'. apply filter_In in Hm'.
    destruct Hr' as [Hr Hb]. destruct Hm' as [Hm Hb'].
    apply andb_true_iff in Hb. apply andb_true_iff in Hb'.
    destruct Hb as [Hty Hs]. destruct Hb' as [Hsel Hd].
    apply Nat.eqb_eq in Hs. apply Nat.eqb_eq in Hd. tauto.
  - intros (Hr & Hty & Hs & Hm & Hsel & Hd). exists r. split.
    + apply filter_In. split; [assumption|].
      rewrite Hty, Hs, Nat.eqb_refl. reflexivity.
    + apply in_map_iff. exists m. split; [reflexivity|].
      apply filter_In. split; [assumption|].
      rewrite Hsel, Hd, Nat.eqb_refl. reflexivity.
Qed.

Lemma in_expand_in g ty sel n r m :
  In (r, m) (expand_in g ty sel n)
  <-> In r (rels g) /\ ty r = true /\ rdst r = nid n
      /\ In m (nodes g) /\ sel m = true /\ nid m = rsrc r.
Proof.
  unfold expand_in. rewrite in_flat_map. split.
  - intros [r' [Hr' Hin]]. apply in_map_iff in Hin.
    destruct Hin as [m' [Heq Hm']]. inversion Heq; subst r' m'.
    apply filter_In in Hr'. apply filter_In in Hm'.
    destruct Hr' as [Hr Hb]. destruct Hm' as [Hm Hb'].
    apply andb_true_iff in Hb. apply andb_true_iff in Hb'.
    destruct Hb as [Hty Hs]. destruct Hb' as [Hsel Hd].
    apply Nat.eqb_eq in Hs. apply Nat.eqb_eq in Hd. tauto.
  - intros (Hr & Hty & Hs & Hm & Hsel & Hd). exists r. split.
    + apply filter_In. split; [assumption|].
      rewrite Hty, Hs, Nat.eqb_refl. reflexivity.
    + apply in_map_iff. exists m. split; [reflexivity|].
      apply filter_In. split; [assumption|].
      rewrite Hsel, Hd, Nat.eqb_refl. reflexivity.
Qed.

Lemma in_rels_from_to g ty a b r :
  In r (rels_from_to g ty a b)
  <-> In r (rels g) /\ ty r = true /\ rsrc r = nid a /\ rdst r = nid b.
Proof.
  unfold rels_from_to. rewrite filter_In, !andb_true_iff, !Nat.eqb_eq. tauto.
Qed.

Lemma in_rels_between g ty a b r :
  In r (rels_between g ty a b)
  <-> In r (rels g) /\ ty r = true
      /\ ((rsrc r = nid a /\ rdst r = nid b) \/ (rsrc r = nid b /\ rdst r = nid a)).
Proof.
  unfold rels_between.
  rewrite filter_In, andb_true_iff, orb_true_iff, !andb_true_iff, !Nat.eqb_eq.
  tauto.
Qed.

(** ** Updating clauses *)

Lemma create_rels_spec es g :
  create_rels es g
  = mkGraph (nodes g) (rels g ++ number_rels (next_rel g) es)
      (next_node g) (next_rel g + List.length es).
Proof.
  revert g. induction es as [|[[s d] p] es IH]; intros g; simpl.
  - rewrite app_nil_r, Nat.add_0_r. now destruct g.
  - rewrite IH. simpl. rewrite <- app_assoc. simpl. f_equal. lia.
Qed.

Lemma create_nodes_spec ps g :
  create_nodes ps g
  = mkGraph (nodes g ++ number_nodes (next_node g) ps) (rels g)
      (next_node g + List.length ps) (next_rel g).
Proof.
  revert g. induction ps as [|p ps IH]; intros g; simpl.
  - rewrite app_nil_r, Nat.add_0_r. now destruct g.
  - rewrite IH. simpl. rewrite <- app_assoc. simpl. f_equal. lia.
Qed.

Lemma in_number_rels r k es :
  In r (number_rels k es) ->
  In (rsrc r, rdst r, rprops r) es /\ k <= rid r < k + List.length es.
Proof.
  revert k. induction es as [|[[s d] p] es IH]; intros k; simpl; [intros []|].
  intros [<-|H]; simpl.
  - split; [now left | lia].
  - apply IH in H. destruct H as [H1 H2]. split; [now right | lia].
Qed.

Lemma number_rels_in e k es :
  In e es ->
  exists r, In r (number_rels k es) /\ (rsrc r, rdst r, rprops r) = e /\ k <= rid r.
Proof.
  revert k. induction es as [|e' es IH]; intros k; simpl; [intros []|].
  intros [->|H].
  - eexists. split; [left; reflexivity|]. simpl. split; [now destruct e as [[? ?] ?] | lia].
  - destruct (IH (S k) H) as [r (Hr & He & Hk)].
    exists r. split; [now right|]. split; [assumption | lia].
Qed.

Lemma in_delete_rels ids g r :
  In r (rels (delete_rels ids g)) <-> In r (rels g) /\ ~ In (rid r) ids.
Proof.
  unfold delete_rels. simpl. rewrite filter_In, negb_true_iff.
  rewrite <- existsb_eqb_In.
  destruct (existsb (Nat.eqb (rid r)) ids); intuition congruence.
Qed.

Lemma delete_rels_nil g : delete_rels [] g = g.
Proof.
  unfold delete_rels. simpl. rewrite filter_all by reflexivity. now destruct g.
Qed.

Lemma match_nodes_same_nodes g g' sel :
  nodes g' = nodes g -> match_nodes g' sel = match_nodes g sel.
Proof. unfold match_nodes. now intros ->. Qed.

Lemma match_player_same_nodes g g' pid :
  nodes g' = nodes g -> match_player g' pid = match_player g pid.
Proof. apply match_nodes_same_nodes. Qed.

(** ** Friends and blocks *)

Lemma in_get_friends x A g :
  In x (map fd_player_id (get_friends A g))
  <-> exists p f friend,
        In p (match_player g A)
        /\ In (f, friend) (expand_out g is_FRIENDS_WITH is_Player p)
        /\ player_id_of friend = x.
Proof.
  unfold get_friends. rewrite in_map_iff. split.
  - intros [rec [Hx Hin]]. apply in_flat_map in Hin.
    destruct Hin as [p [Hp Hin]]. apply in_map_iff in Hin.
    destruct Hin as [[f friend] [Hrec Hin]]. subst rec. simpl in Hx.
    exists p, f, friend. auto.
  - intros (p & f & friend & Hp & Hin & Hx).
    exists (mkFriendRecord (player_id_of friend) (username_of friend)
              (status_of friend) (since_of f) (nickname_of f)).
    split; [exact Hx|]. apply in_flat_map. exists p. split; [exact Hp|].
    apply in_map_iff. exists (f, friend). split; [reflexivity | exact Hin].
Qed.

Lemma nodes_block_player now A B reason g :
  nodes (snd (block_player now A B reason g)) = nodes g.
Proof. unfold block_player. simpl. rewrite create_rels_spec. reflexivity. Qed.

Lemma friend_rels_block_player now A B reason g r :
  In r (rels (snd (block_player now A B reason g))) ->
  is_FRIENDS_WITH r = true ->
  In r (rels g) /\ ~ In (rid r) (bound_rids (map snd (block_rows g A B))).
Proof.
  unfold block_player. simpl. rewrite create_rels_spec. simpl.
  intros Hin Hty. apply in_app_or in Hin. destruct Hin as [Hin|Hin].
  - now apply in_delete_rels in Hin.
  - apply in_number_rels in Hin. destruct Hin as [Hin _].
    apply in_map_iff in Hin. destruct Hin as [row [Heq _]].
    unfold is_FRIENDS_WITH in Hty. injection Heq as H1 H2 H3.
    rewrite <- H3 in Hty. discriminate.
Qed.

Lemma block_rows_bind_friendship g A B a b r :
  In a (match_player g A) -> In b (match_player g B) ->
  In r (rels_between g is_FRIENDS_WITH a b) ->
  In (rid r) (bound_rids (map snd (block_rows g A B))).
Proof.
  intros Ha Hb Hr. apply in_bound_rids. apply in_map_iff.
  exists ((a, b), Some r). split; [reflexivity|].
  unfold block_rows. apply in_flat_map. exists (a, b). split.
  - apply in_prod; assumption.
  - apply in_map_iff. exists (Some r). split; [reflexivity|].
    now apply in_optional.
Qed.

(** After [block_player] no [FRIENDS_WITH] edge joins a node of the blocker
    and a node of the blocked player, in either direction. *)
Lemma block_player_no_friendship now A B reason g r a b :
  In r (rels (snd (block_player now A B reason g))) ->
  is_FRIENDS_WITH r = true ->
  In a (match_player g A) -> In b (match_player g B) ->
  ~ ((rsrc r = nid a /\ rdst r = nid b) \/ (rsrc r = nid b /\ rdst r = nid a)).
Proof.
  intros Hin Hty Ha Hb Hends.
  destruct (friend_rels_block_player _ _ _ _ _ _ Hin Hty) as [Hr Hkept].
  apply Hkept. apply (block_rows_bind_friendship g A B a b r Ha Hb).
  apply in_rels_between. tauto.
Qed.

(** C3.  After [block_player(A, B)], [get_friends(A)] has no entry for [B]
    and [get_friends(B)] has no entry for [A], whatever the graph was before
    the call: every [FRIENDS_WITH] edge between the two players, in either
    direction, is deleted by the statement that creates the block. *)
Theorem block_player_removes_friendship :
  forall (now : Z) (A B : string) (reason : option string) (g : Graph),
    let g' := snd (block_player now A B reason g) in
    ~ In B (map fd_player_id (get_friends A g'))
    /\ ~ In A (map fd_player_id (get_friends B g')).
Proof.
  intros now A B reason g g'. split; intros H; apply in_get_friends in H;
    destruct H as (p & f & friend & Hp & Hin & Hid);
    apply in_expand_out in Hin;
    destruct Hin as (Hf & Hty & Hsrc & Hfr & Hpl & Hdst);
    unfold g' in Hp, Hfr;
    rewrite (match_player_same_nodes g _ _ (nodes_block_player now A B reason g)) in Hp;
    rewrite nodes_block_player in Hfr;
    assert (Hfriend : In friend (match_player g (player_id_of friend)))
      by (apply in_match_player; auto);
    rewrite Hid in Hfriend.
  - apply (block_player_no_friendship now A B reason g f p friend Hf Hty Hp Hfriend).
    left. auto.
  - apply (block_player_no_friendship now A B reason g f friend p Hf Hty Hfriend Hp).
    right. auto.
Qed.

(** ** Friend requests *)

Lemma single_map_in {A B : Type} (f : A -> B) (l : list A) (x : A) :
  In x l -> single (map f l) <> None.
Proof. destruct l; simpl; [intros [] | discriminate]. Qed.

Lemma no_member_nil {A : Type} (l : list A) : (forall x, ~ In x l) -> l = [].
Proof.
  destruct l as [|x l]; [reflexivity|]. intros H. destruct (H x). now left.
Qed.

Lemma in_request_rows g A B a r b :
  In (a, (r, b)) (request_rows g A B)
  <-> In a (match_player g A) /\ In b (match_player g B)
      /\ In r (rels g) /\ is_SENT_REQUEST r = true
      /\ rsrc r = nid a /\ rdst r = nid b.
Proof.
  unfold request_rows. rewrite in_flat_map. split.
  - intros [a' [Ha Hin]]. apply in_map_iff in Hin.
    destruct Hin as [[r' b'] [Heq Hin]]. inversion Heq; subst a' r' b'.
    apply in_expand_out in Hin. unfold match_player at 2.
    rewrite in_match_nodes. intuition congruence.
  - intros (Ha & Hb & Hr & Hty & Hs & Hd). exists a. split; [assumption|].
    apply in_map_iff. exists (r, b). split; [reflexivity|].
    apply in_expand_out. unfold match_player in Hb.
    apply in_match_nodes in Hb. intuition congruence.
Qed.

Lemma nodes_send_friend_request now A B msg g :
  nodes (snd (send_friend_request now A B msg g)) = nodes g.
Proof. unfold send_friend_request. simpl. now rewrite create_rels_spec. Qed.

Lemma rels_send_friend_request now A B msg g :
  rels (snd (send_friend_request now A B msg g))
  = rels g ++ number_rels (next_rel g)
               (map (fun row => (nid (fst row), nid (snd row), SENT_REQUEST now msg))
                  (list_prod (match_player g A) (match_player g B))).
Proof. unfold send_friend_request. simpl. now rewrite create_rels_spec. Qed.

(** Every pair of a [from] node and a [to] node gets a new request edge. *)
Lemma send_friend_request_creates now A B msg g a b :
  In a (match_player g A) -> In b (match_player g B) ->
  exists r, In r (rels (snd (send_friend_request now A B msg g)))
            /\ rsrc r = nid a /\ rdst r = nid b
            /\ rprops r = SENT_REQUEST now msg /\ next_rel g <= rid r.
Proof.
  intros Ha Hb. rewrite rels_send_friend_request.
  destruct (number_rels_in (nid a, nid b, SENT_REQUEST now msg) (next_rel g)
              (map (fun row => (nid (fst row), nid (snd row), SENT_REQUEST now msg))
                 (list_prod (match_player g A) (match_player g B))))
    as [r (Hr & He & Hk)].
  - apply in_map_iff. exists (a, b). split; [reflexivity | now apply in_prod].
  - exists r. injection He as H1 H2 H3. split; [apply in_or_app; now right | auto].
Qed.

Lemma nodes_accept_friend_request now A B g :
  nodes (snd (accept_friend_request now A B g)) = nodes g.
Proof. unfold accept_friend_request. simpl. now rewrite !create_rels_spec. Qed.

(** A request edge that is still there after [accept_friend_request] was
    there before and was not matched by the statement. *)
Lemma request_rels_accept now A B g r :
  In r (rels (snd (accept_friend_request now A B g))) ->
  is_SENT_REQUEST r = true ->
  In r (rels g) /\ forall a b, ~ In (a, (r, b)) (request_rows g A B).
Proof.
  unfold accept_friend_request. simpl. rewrite !create_rels_spec. simpl.
  intros Hin Hty.
  assert (Hnew : forall k (f : Node * (Rel * Node) -> nat * nat * RelProps) rows,
             (forall row, snd (f row) = FRIENDS_WITH now None) ->
             ~ In r (number_rels k (map f rows))).
  { intros k f rows Hf H. apply in_number_rels in H. destruct H as [H _].
    apply in_map_iff in H. destruct H as [row [Heq _]].
    specialize (Hf row). rewrite Heq in Hf. simpl in Hf.
    unfold is_SENT_REQUEST in Hty. rewrite Hf in Hty. discriminate. }
  apply in_app_or in Hin. destruct Hin as [Hin|Hin];
    [|exfalso; eapply Hnew; [|exact Hin]; reflexivity].
  apply in_app_or in Hin. destruct Hin as [Hin|Hin];
    [|exfalso; eapply Hnew; [|exact Hin]; reflexivity].
  apply in_delete_rels in Hin. destruct Hin as [Hr Hkept].
  split; [assumption|]. intros a b Hrow. apply Hkept.
  apply in_map_iff. exists (a, (r, b)). split; [reflexivity | assumption].
Qed.

(** Every matched request is turned into a pair of friendship edges. *)
Lemma accept_friend_request_creates now A B g a r b :
  In (a, (r, b)) (request_rows g A B) ->
  let g' := snd (accept_friend_request now A B g) in
  (exists f, In f (rels g') /\ is_FRIENDS_WITH f = true
             /\ rsrc f = nid a /\ rdst f = nid b)
  /\ (exists f, In f (rels g') /\ is_FRIENDS_WITH f = true
                /\ rsrc f = nid b /\ rdst f = nid a).
Proof.
  intros Hrow g'. unfold g', accept_friend_request. simpl.
  rewrite !create_rels_spec. simpl. split.
  - destruct (number_rels_in (nid a, nid b, FRIENDS_WITH now None)
                (next_rel g)
                (map (fun row => (nid (fst row), nid (snd (snd row)),
                                  FRIENDS_WITH now None))
                   (request_rows g A B))) as [f (Hf & He & _)].
    + apply in_map_iff. exists (a, (r, b)). split; [reflexivity | assumption].
    + exists f. injection He as H1 H2 H3. unfold is_FRIENDS_WITH.
      rewrite H3. split; [|auto].
      apply in_or_app. left. apply in_or_app. now right.
  - destruct (number_rels_in (nid b, nid a, FRIENDS_WITH now None)
                (next_rel g + List.length
                   (map (fun row => (nid (fst row), nid (snd (snd row)),
                                     FRIENDS_WITH now None))
                      (request_rows g A B)))
                (map (fun row => (nid (snd (snd row)), nid (fst row),
                                  FRIENDS_WITH now None))
                   (request_rows g A B))) as [f (Hf & He & _)].
    + apply in_map_iff. exists (a, (r, b)). split; [reflexivity | assumption].
    + exists f. injection He as H1 H2 H3. unfold is_FRIENDS_WITH.
      rewrite H3. split; [|auto].
      apply in_or_app. now right.
Qed.

Lemma friend_edge_get_friends g A p f friend :
  In p (match_player g A) -> In friend (nodes g) -> is_Player friend = true ->
  In f (rels g) -> is_FRIENDS_WITH f = true ->
  rsrc f = nid p -> rdst f = nid friend ->
  In (player_id_of friend) (map fd_player_id (get_friends A g)).
Proof.
  intros Hp Hfr Hpl Hf Hty Hs Hd. apply in_get_friends.
  exists p, f, friend. split; [assumption|]. split; [|reflexivity].
  apply in_expand_out. auto 10.
Qed.

(** C1, amended.  When players [A] and [B] are in the graph and no request
    from [B] to [A] is pending, [send_friend_request(A, B)] followed by
    [accept_friend_request(A, B)] both succeed, [get_friends(A)] then has an
    entry for [B] and [get_friends(B)] one for [A], and no [SENT_REQUEST]
    edge joins the two players in either direction.  (Neither call looks at
    a request from [B] to [A]; one that was pending stays.) *)
Theorem send_then_accept_makes_friends :
  forall (now1 now2 : Z) (A B msg : string) (g : Graph),
    match_player g A <> [] ->
    match_player g B <> [] ->
    request_rows g B A = [] ->
    let sent := send_friend_request now1 A B msg g in
    let accepted := accept_friend_request now2 A B (snd sent) in
    fst sent <> None
    /\ fst accepted <> None
    /\ In B (map fd_player_id (get_friends A (snd accepted)))
    /\ In A (map fd_player_id (get_friends B (snd accepted)))
    /\ request_rows (snd accepted) A B = []
    /\ request_rows (snd accepted) B A = [].
Proof.
  intros now1 now2 A B msg g HA HB Hnone sent accepted.
  destruct (match_player g A) as [|a As] eqn:EA; [congruence|].
  destruct (match_player g B) as [|b Bs] eqn:EB; [congruence|].
  assert (Ha : In a (match_player g A)) by (rewrite EA; now left).
  assert (Hb : In b (match_player g B)) by (rewrite EB; now left).
  pose proof (nodes_send_friend_request now1 A B msg g) as Hn1.
  pose proof (nodes_accept_friend_request now2 A B (snd sent)) as Hn2.
  fold sent in Hn1. fold accepted in Hn2.
  destruct (send_friend_request_creates now1 A B msg g a b Ha Hb)
    as [r (Hr & Hrs & Hrd & Hrp & _)]. fold sent in Hr.
  assert (Ha1 : In a (match_player (snd sent) A))
    by (rewrite (match_player_same_nodes g _ _ Hn1); exact Ha).
  assert (Hb1 : In b (match_player (snd sent) B))
    by (rewrite (match_player_same_nodes g _ _ Hn1); exact Hb).
  assert (Hrow : In (a, (r, b)) (request_rows (snd sent) A B)).
  { apply in_request_rows. unfold is_SENT_REQUEST. rewrite Hrp. auto 10. }
  destruct (accept_friend_request_creates now2 A B (snd sent) a r b Hrow)
    as [[f (Hf & Hfty & Hfs & Hfd)] [f' (Hf' & Hfty' & Hfs' & Hfd')]].
  fold accepted in Hf, Hf'.
  assert (Ha2 : In a (match_player (snd accepted) A))
    by (rewrite (match_player_same_nodes (snd sent) _ _ Hn2); exact Ha1).
  assert (Hb2 : In b (match_player (snd accepted) B))
    by (rewrite (match_player_same_nodes (snd sent) _ _ Hn2); exact Hb1).
  pose proof (proj1 (in_match_player _ _ _) Ha2) as (Han & Hap & Haid).
  pose proof (proj1 (in_match_player _ _ _) Hb2) as (Hbn & Hbp & Hbid).
  split; [|split; [|split; [|split; [|split]]]].
  - unfold sent, send_friend_request. simpl. rewrite EA, EB.
    apply single_map_in with (x := (a, b)). apply in_prod; now left.
  - unfold accepted, accept_friend_request. simpl.
    apply single_map_in with (x := (a, (r, b))). exact Hrow.
  - rewrite <- Hbid.
    apply (friend_edge_get_friends (snd accepted) A a f b); assumption.
  - rewrite <- Haid.
    apply (friend_edge_get_friends (snd accepted) B b f' a); assumption.
  - apply no_member_nil. intros [a' [r' b']] Hin.
    apply in_request_rows in Hin.
    destruct Hin as (Ha' & Hb' & Hr' & Hty' & Hs' & Hd').
    destruct (request_rels_accept now2 A B (snd sent) r' Hr' Hty') as [Hr1 Hno].
    apply (Hno a' b'). apply in_request_rows.
    rewrite (match_player_same_nodes (snd sent) _ _ Hn2) in Ha'.
    rewrite (match_player_same_nodes (snd sent) _ _ Hn2) in Hb'. auto 10.
  - apply no_member_nil. intros [b' [r' a']] Hin.
    apply in_request_rows in Hin.
    destruct Hin as (Hb' & Ha' & Hr' & Hty' & Hs' & Hd').
    destruct (request_rels_accept now2 A B (snd sent) r' Hr' Hty') as [Hr1 Hno].
    rewrite (match_player_same_nodes (snd sent) _ _ Hn2) in Ha'.
    rewrite (match_player_same_nodes (snd sent) _ _ Hn2) in Hb'.
    unfold sent in Hr1. rewrite rels_send_friend_request in Hr1.
    apply in_app_or in Hr1. destruct Hr1 as [Hold|Hnew].
    + assert (Hin : In (b', (r', a')) (request_rows g B A)).
      { apply in_request_rows.
        rewrite (match_player_same_nodes g _ _ Hn1) in Ha'.
        rewrite (match_player_same_nodes g _ _ Hn1) in Hb'. auto 10. }
      rewrite Hnone in Hin. destruct Hin.
    + apply in_number_rels in Hnew. destruct Hnew as [Hnew _].
      apply in_map_iff in Hnew. destruct Hnew as [[a'' b''] [Heq Hprod]].
      simpl in Heq. injection Heq as H1 H2 H3.
      apply in_prod_iff in Hprod. destruct Hprod as [Ha'' Hb''].
      apply (Hno a'' b''). apply in_request_rows.
      rewrite !(match_player_same_nodes g _ _ Hn1).
      destruct (request_rels_accept now2 A B (snd sent) r' Hr' Hty') as [Hr1 _].
      auto 10.
Qed.

(** ** One more edge *)

Lemma flat_map_map_rows {A B C : Type} (e : A -> list B) (f : B -> C) (l : list A) :
  flat_map (fun x => map f (e x)) l = map f (flat_map e l).
Proof.
  induction l as [|x l IH]; simpl; [reflexivity|]. now rewrite map_app, IH.
Qed.

Lemma filter_nid_unique (sel : Node -> bool) (ns : list Node) (b : Node) :
  NoDup (map nid ns) -> In b ns -> sel b = true ->
  filter (fun m => sel m && Nat.eqb (nid m) (nid b)) ns = [b].
Proof.
  intros Hnd Hin Hsel. induction ns as [|x ns IH]; [destruct Hin|].
  simpl in Hnd. inversion Hnd as [|? ? Hx Hnd']; subst.
  simpl. destruct Hin as [->|Hin].
  - rewrite Hsel, Nat.eqb_refl. simpl. f_equal. apply filter_none.
    intros y Hy. apply andb_false_iff. right. apply Nat.eqb_neq.
    intros Heq. apply Hx. rewrite <- Heq. now apply in_map.
  - assert (Hne : Nat.eqb (nid x) (nid b) = false).
    { apply Nat.eqb_neq. intros Heq. apply Hx. rewrite Heq. now apply in_map. }
    rewrite Hne, andb_false_r. now apply IH.
Qed.

Lemma expand_out_snoc g g' ty sel n r :
  nodes g' = nodes g -> rels g' = rels g ++ [r] ->
  expand_out g' ty sel n
  = expand_out g ty sel n
    ++ (if ty r && Nat.eqb (rsrc r) (nid n)
        then map (fun m => (r, m))
               (filter (fun m => sel m && Nat.eqb (nid m) (rdst r)) (nodes g))
        else []).
Proof.
  intros Hn Hr. unfold expand_out. rewrite Hn, Hr, filter_app, flat_map_app.
  simpl. destruct (ty r && Nat.eqb (rsrc r) (nid n)); simpl;
    now rewrite ?app_nil_r.
Qed.

Lemma expand_in_snoc g g' ty sel n r :
  nodes g' = nodes g -> rels g' = rels g ++ [r] ->
  expand_in g' ty sel n
  = expand_in g ty sel n
    ++ (if ty r && Nat.eqb (rdst r) (nid n)
        then map (fun m => (r, m))
               (filter (fun m => sel m && Nat.eqb (nid m) (rsrc r)) (nodes g))
        else []).
Proof.
  intros Hn Hr. unfold expand_in. rewrite Hn, Hr, filter_app, flat_map_app.
  simpl. destruct (ty r && Nat.eqb (rdst r) (nid n)); simpl;
    now rewrite ?app_nil_r.
Qed.

(** With one node per player, one more edge of the type from [a] to [b] is
    one more row of the pattern, at the end. *)
Lemma player_out_rows_snoc g g' ty A a b r :
  NoDup (map nid (nodes g)) ->
  nodes g' = nodes g -> rels g' = rels g ++ [r] ->
  match_player g A = [a] ->
  In b (nodes g) -> is_Player b = true ->
  ty r = true -> rsrc r = nid a -> rdst r = nid b ->
  player_out_rows g' ty A = player_out_rows g ty A ++ [(r, b)].
Proof.
  intros Hnd Hn Hr Ha Hb Hpl Hty Hs Hd. unfold player_out_rows.
  rewrite (match_player_same_nodes g g' A Hn), Ha. simpl.
  rewrite !app_nil_r, (expand_out_snoc g g' ty is_Player a r Hn Hr).
  rewrite Hty, Hs, Nat.eqb_refl, Hd. simpl.
  now rewrite (filter_nid_unique is_Player (nodes g) b Hnd Hb Hpl).
Qed.

Lemma match_player_single g A a :
  match_player g A = [a] ->
  In a (nodes g) /\ is_Player a = true /\ player_id_of a = A.
Proof.
  intros H. apply in_match_player. rewrite H. now left.
Qed.

(** ** Follows *)

Lemma get_following_rows A g :
  get_following A g
  = map (fun ff => mkFollowRecord (player_id_of (snd ff)) (username_of (snd ff))
                     (status_of (snd ff)) (since_of (fst ff)))
      (player_out_rows g is_FOLLOWS A).
Proof. unfold get_following, player_out_rows. apply flat_map_map_rows. Qed.

Lemma nodes_follow_player now A B g :
  nodes (snd (follow_player now A B g)) = nodes g.
Proof. unfold follow_player. simpl. now rewrite create_rels_spec. Qed.

(** Every call of [follow_player] adds an entry to [get_following]. *)
Lemma follow_player_appends now A B g a b :
  NoDup (map nid (nodes g)) ->
  match_player g A = [a] -> match_player g B = [b] ->
  fst (follow_player now A B g) = Some (B, username_of b)
  /\ get_following A (snd (follow_player now A B g))
     = get_following A g
       ++ [mkFollowRecord B (username_of b) (status_of b) (Some now)].
Proof.
  intros Hnd Ha Hb.
  destruct (match_player_single g B b Hb) as (Hbn & Hbp & Hbid).
  split.
  - unfold follow_player. rewrite Ha, Hb. simpl. now rewrite Hbid.
  - rewrite !get_following_rows.
    rewrite (player_out_rows_snoc g _ is_FOLLOWS A a b
               (mkRel (next_rel g) (nid a) (nid b) (FOLLOWS now)) Hnd);
      try assumption; try reflexivity.
    + rewrite map_app. simpl. now rewrite Hbid.
    + apply nodes_follow_player.
    + unfold follow_player. now rewrite Ha, Hb.
Qed.

Lemma in_player_out_rows g ty A r m :
  In (r, m) (player_out_rows g ty A)
  <-> exists p, In p (match_player g A) /\ In (r, m) (expand_out g ty is_Player p).
Proof. unfold player_out_rows. apply in_flat_map. Qed.

(** After [unfollow_player(A, B)], [get_following(A)] has no entry for [B]. *)
Lemma unfollow_player_removes A B g :
  ~ In B (map fo_player_id (get_following A (snd (unfollow_player A B g)))).
Proof.
  rewrite get_following_rows, map_map. simpl. intros Hin.
  apply in_map_iff in Hin. destruct Hin as [[f m] [Hid Hin]]. simpl in Hid.
  apply in_player_out_rows in Hin. destruct Hin as [p [Hp Hin]].
  apply in_expand_out in Hin. destruct Hin as (Hf & Hty & Hs & Hm & Hpl & Hd).
  unfold unfollow_player in Hp, Hf, Hm. simpl in Hf, Hm.
  change (In p (match_player g A)) in Hp.
  apply filter_In in Hf. destruct Hf as [Hf Hkept].
  apply negb_true_iff in Hkept.
  assert (Hdel : existsb (Nat.eqb (rid f))
                   (map (fun row => rid (fst row))
                      (flat_map (fun follower =>
                                   expand_out g is_FOLLOWS (has_player_id B) follower)
                         (match_player g A))) = true).
  { apply existsb_eqb_In. apply in_map_iff. exists (f, m).
    split; [reflexivity|]. apply in_flat_map. exists p. split; [assumption|].
    apply in_expand_out. rewrite has_player_id_true. auto 10. }
  rewrite Hdel in Hkept. discriminate.
Qed.

Lemma unfollow_player_found A B g a b r :
  In a (match_player g A) -> In b (match_player g B) ->
  In r (rels g) -> is_FOLLOWS r = true -> rsrc r = nid a -> rdst r = nid b ->
  fst (unfollow_player A B g) = true.
Proof.
  intros Ha Hb Hr Hty Hs Hd. unfold unfollow_player. simpl.
  apply Nat.ltb_lt.
  assert (Hin : In (r, b)
                  (flat_map (fun follower =>
                               expand_out g is_FOLLOWS (has_player_id B) follower)
                     (match_player g A))).
  { apply in_flat_map. exists a. split; [assumption|].
    apply in_expand_out. apply in_match_player in Hb.
    rewrite has_player_id_true. intuition. }
  destruct (flat_map _ _); [destruct Hin | simpl; lia].
Qed.

(** C9.  [follow_player] is not deduplicated.  With one node for player [A]
    and one for player [B], every call of [follow_player(A, B)] succeeds and
    adds an entry for [B] to [get_following(A)], also when [A] follows [B]
    already: after two calls the list has two more entries for [B] than
    before.  [unfollow_player(A, B)] then reports a deletion and leaves no
    entry for [B]: it deletes all the [FOLLOWS] edges from [A] to [B]. *)
Theorem follow_player_not_deduplicated :
  forall (now1 now2 : Z) (A B : string) (g : Graph) (a b : Node),
    NoDup (map nid (nodes g)) ->
    match_player g A = [a] ->
    match_player g B = [b] ->
    let g1 := snd (follow_player now1 A B g) in
    let g2 := snd (follow_player now2 A B g1) in
    let entry t := mkFollowRecord B (username_of b) (status_of b) (Some t) in
    let entries_for_B l :=
      List.length (filter (fun e => String.eqb (fo_player_id e) B) l) in
    get_following A g1 = get_following A g ++ [entry now1]
    /\ fst (follow_player now2 A B g1) = Some (B, username_of b)
    /\ get_following A g2 = get_following A g ++ [entry now1; entry now2]
    /\ entries_for_B (get_following A g2) = entries_for_B (get_following A g) + 2
    /\ fst (unfollow_player A B g2) = true
    /\ ~ In B (map fo_player_id (get_following A (snd (unfollow_player A B g2)))).
Proof.
  intros now1 now2 A B g a b Hnd Ha Hb g1 g2 entry entries_for_B.
  pose proof (nodes_follow_player now1 A B g) as Hn1. fold g1 in Hn1.
  pose proof (nodes_follow_player now2 A B g1) as Hn2. fold g2 in Hn2.
  assert (Hnd1 : NoDup (map nid (nodes g1))) by now rewrite Hn1.
  assert (Ha1 : match_player g1 A = [a])
    by now rewrite (match_player_same_nodes g g1 A Hn1).
  assert (Hb1 : match_player g1 B = [b])
    by now rewrite (match_player_same_nodes g g1 B Hn1).
  destruct (follow_player_appends now1 A B g a b Hnd Ha Hb) as [_ H1].
  destruct (follow_player_appends now2 A B g1 a b Hnd1 Ha1 Hb1) as [R2 H2].
  fold g1 in H1. fold g2 in H2.
  assert (H12 : get_following A g2 = get_following A g ++ [entry now1; entry now2]).
  { rewrite H2, H1, <- app_assoc. reflexivity. }
  split; [exact H1|]. split; [exact R2|]. split; [exact H12|].
  split; [|split].
  - unfold entries_for_B. rewrite H12, filter_app, length_app. simpl.
    rewrite String.eqb_refl. simpl. reflexivity.
  - apply (unfollow_player_found A B g2 a b
             (mkRel (next_rel g1) (nid a) (nid b) (FOLLOWS now2))).
    + rewrite (match_player_same_nodes g1 g2 A Hn2), Ha1. now left.
    + rewrite (match_player_same_nodes g1 g2 B Hn2), Hb1. now left.
    + unfold g2, follow_player. rewrite Ha1, Hb1. simpl.
      apply in_or_app. right. now left.
    + reflexivity.
    + reflexivity.
    + reflexivity.
  - apply unfollow_player_removes.
Qed.

(** ** Blocking twice *)

Lemma get_blocked_players_rows A g :
  get_blocked_players A g
  = map (fun bb => mkBlockRecord (player_id_of (snd bb)) (username_of (snd bb))
                     (since_of (fst bb)) (reason_of (fst bb)))
      (player_out_rows g is_BLOCKED A).
Proof. unfold get_blocked_players, player_out_rows. apply flat_map_map_rows. Qed.

(** Once [A] has blocked [B], the [OPTIONAL MATCH] of a further call finds
    no friendship: the call has one row per pair of nodes. *)
Lemma block_rows_after_block now A B reason g a b :
  match_player g A = [a] -> match_player g B = [b] ->
  block_rows (snd (block_player now A B reason g)) A B = [((a, b), None)].
Proof.
  intros Ha Hb. unfold block_rows.
  rewrite !(match_player_same_nodes g _ _ (nodes_block_player now A B reason g)).
  rewrite Ha, Hb. cbn [list_prod map flat_map app fst snd].
  assert (Hnone : rels_between (snd (block_player now A B reason g))
                    is_FRIENDS_WITH a b = []).
  { apply no_member_nil. intros r Hr. apply in_rels_between in Hr.
    destruct Hr as (Hr & Hty & Hends).
    apply (block_player_no_friendship now A B reason g r a b Hr Hty);
      [rewrite Ha | rewrite Hb | exact Hends]; now left. }
  rewrite Hnone. reflexivity.
Qed.

(** C2, amended.  [block_player] is not idempotent.  With one node for
    player [A] and one for player [B], a second [block_player(A, B)] made
    while [A] blocks [B] succeeds without error, but it creates one more
    [BLOCKED] edge from [A] to [B]: [get_blocked_players(A)] is then the
    list it was after the first call followed by one more entry for [B]. *)
Theorem block_player_twice_adds_edge :
  forall (now1 now2 : Z) (A B : string) (reason1 reason2 : option string)
         (g : Graph) (a b : Node),
    NoDup (map nid (nodes g)) ->
    match_player g A = [a] ->
    match_player g B = [b] ->
    let g1 := snd (block_player now1 A B reason1 g) in
    let second := block_player now2 A B reason2 g1 in
    let entry := mkBlockRecord B (username_of b) (Some now2) reason2 in
    fst second = Some entry
    /\ get_blocked_players A (snd second) = get_blocked_players A g1 ++ [entry]
    /\ List.length (get_blocked_players A (snd second))
       = S (List.length (get_blocked_players A g1)).
Proof.
  intros now1 now2 A B reason1 reason2 g a b Hnd Ha Hb g1 second entry.
  pose proof (nodes_block_player now1 A B reason1 g) as Hn1. fold g1 in Hn1.
  destruct (match_player_single g B b Hb) as (Hbn & Hbp & Hbid).
  pose proof (block_rows_after_block now1 A B reason1 g a b Ha Hb) as Hrows.
  fold g1 in Hrows.
  assert (Hsnd : snd second
                 = mkGraph (nodes g1)
                     (rels g1 ++ [mkRel (next_rel g1) (nid a) (nid b)
                                    (BLOCKED now2 reason2)])
                     (next_node g1) (S (next_rel g1))).
  { unfold second, block_player. cbn [snd]. rewrite Hrows.
    cbn [map snd fst bound_rids flat_map app].
    rewrite delete_rels_nil. reflexivity. }
  assert (Hlist : get_blocked_players A (snd second)
                  = get_blocked_players A g1 ++ [entry]).
  { rewrite !get_blocked_players_rows.
    rewrite (player_out_rows_snoc g1 (snd second) is_BLOCKED A a b
               (mkRel (next_rel g1) (nid a) (nid b) (BLOCKED now2 reason2)));
      try reflexivity.
    - rewrite map_app. simpl. unfold entry. now rewrite Hbid.
    - now rewrite Hn1.
    - now rewrite Hsnd.
    - now rewrite Hsnd.
    - now rewrite (match_player_same_nodes g g1 A Hn1).
    - now rewrite Hn1.
    - assumption. }
  split; [|split].
  - unfold second, block_player. simpl. rewrite Hrows. simpl.
    unfold entry. now rewrite Hbid.
  - exact Hlist.
  - rewrite Hlist, length_app. simpl. lia.
Qed.

(** ** Clan ranks *)

Lemma py_or_zero (x : Z) : py_or x 0 = x.
Proof. unfold py_or. destruct (Z.eqb_spec x 0); congruence. Qed.

Lemma clan_member_count_members g cid :
  clan_member_count g cid = Z.of_nat (List.length (clan_members g cid)).
Proof.
  unfold clan_member_count, clan_members. now rewrite count_bound_flat_map.
Qed.

Lemma clan_ranks_length g cid :
  List.length (clan_ranks g cid) = List.length (clan_members g cid).
Proof. unfold clan_ranks. apply length_map. Qed.

Lemma nodes_join_clan now cid pid g :
  nodes (snd (join_clan now cid pid g)) = nodes g.
Proof. unfold join_clan. simpl. now rewrite create_rels_spec. Qed.

(** [join_clan] gives the new member the number of members plus one. *)
Lemma join_clan_rank now cid pid g c p :
  NoDup (map nid (nodes g)) ->
  match_clan g cid = [c] -> match_player g pid = [p] ->
  clan_ranks (snd (join_clan now cid pid g)) cid
  = clan_ranks g cid ++ [(Z.of_nat (List.length (clan_ranks g cid)) + 1)%Z].
Proof.
  intros Hnd Hc Hp.
  destruct (match_player_single g pid p Hp) as (Hpn & Hpp & _).
  pose proof (nodes_join_clan now cid pid g) as Hn.
  set (r := mkRel (next_rel g) (nid p) (nid c)
              (BELONGS_TO now "member"
                 (Z.of_nat (List.length (clan_ranks g cid)) + 1))).
  assert (Hr : rels (snd (join_clan now cid pid g)) = rels g ++ [r]).
  { unfold join_clan. rewrite Hp, Hc. simpl.
    rewrite clan_member_count_members, py_or_zero, <- clan_ranks_length.
    reflexivity. }
  assert (Hm : clan_members (snd (join_clan now cid pid g)) cid
               = clan_members g cid ++ [(r, p)]).
  { unfold clan_members, match_clan in *.
    rewrite (match_nodes_same_nodes g _ _ Hn), Hc.
    cbn [flat_map]. rewrite !app_nil_r.
    rewrite (expand_in_snoc g _ is_BELONGS_TO is_Player c r Hn Hr).
    change (is_BELONGS_TO r) with true. change (rdst r) with (nid c).
    change (rsrc r) with (nid p). rewrite Nat.eqb_refl. cbn [andb].
    now rewrite (filter_nid_unique is_Player (nodes g) p Hnd Hpn Hpp). }
  unfold clan_ranks at 1 2. rewrite Hm, map_app. reflexivity.
Qed.

(** C7, amended.  [join_clan] gives the joining player the rank
    [member count + 1], the count being read when the call is made; no
    counter is kept.  With one node for the clan and one for each joining
    player: the count is the number of [BELONGS_TO] edges of the clan; a run
    of consecutive joins, with no other call in between, assigns consecutive
    ranks in join order, [n+1], [n+2], ... for a clan that has [n] members
    when the run starts; and whenever a member holds the rank [n+1] at that
    moment, the first join of the run assigns that rank a second time, so
    that two members hold the same rank afterwards. *)
Theorem join_clan_ranks_sequential :
  forall (clan_id : string) (joins : list (Z * string)) (g : Graph) (c : Node),
    NoDup (map nid (nodes g)) ->
    match_clan g clan_id = [c] ->
    (forall j, In j joins -> exists p, match_player g (snd j) = [p]) ->
    let n := List.length (clan_ranks g clan_id) in
    let after := clan_ranks (join_clan_all clan_id joins g) clan_id in
    clan_member_count g clan_id = Z.of_nat n
    /\ after = clan_ranks g clan_id
               ++ map Z.of_nat (seq (S n) (List.length joins))
    /\ (joins <> [] -> In (Z.of_nat n + 1)%Z (clan_ranks g clan_id) ->
        ~ NoDup after).
Proof.
  intros cid joins g c Hnd Hc Hjoins n after.
  assert (Hseq : forall joins g,
             NoDup (map nid (nodes g)) ->
             match_clan g cid = [c] ->
             (forall j, In j joins -> exists p, match_player g (snd j) = [p]) ->
             clan_ranks (join_clan_all cid joins g) cid
             = clan_ranks g cid
               ++ map Z.of_nat
                    (seq (S (List.length (clan_ranks g cid))) (List.length joins))).
  { clear. intros joins. induction joins as [|[now pid] joins IH];
      intros g Hnd Hc Hjoins; cbn [join_clan_all fst snd].
    - cbn [List.length seq map]. now rewrite app_nil_r.
    - destruct (Hjoins (now, pid) (or_introl eq_refl)) as [p Hp]. simpl in Hp.
      pose proof (nodes_join_clan now cid pid g) as Hn.
      rewrite IH.
      + rewrite (join_clan_rank now cid pid g c p Hnd Hc Hp).
        rewrite length_app, <- app_assoc. cbn [List.length seq map app].
        f_equal. f_equal.
        * lia.
        * f_equal. f_equal. lia.
      + now rewrite Hn.
      + unfold match_clan in *. now rewrite (match_nodes_same_nodes g _ _ Hn).
      + intros j Hj. destruct (Hjoins j (or_intror Hj)) as [q Hq].
        exists q. now rewrite (match_player_same_nodes g _ _ Hn). }
  pose proof (Hseq joins g Hnd Hc Hjoins) as Hafter. fold n after in Hafter.
  split; [|split].
  - rewrite clan_member_count_members. unfold n.
    now rewrite clan_ranks_length.
  - exact Hafter.
  - intros Hne Hheld Hdistinct. rewrite Hafter in Hdistinct.
    destruct joins as [|j joins]; [congruence|].
    cbn [List.length seq map] in Hdistinct.
    apply NoDup_remove_2 in Hdistinct. apply Hdistinct.
    apply in_or_app. left.
    replace (Z.of_nat (S n)) with (Z.of_nat n + 1)%Z by lia. exact Hheld.
Qed.

(** ** Party and clan memberships *)

Lemma in_bound_rids_inv (k : nat) (col : list (option Rel)) :
  In k (bound_rids col) -> exists r, In (Some r) col /\ rid r = k.
Proof.
  unfold bound_rids. rewrite in_flat_map. intros [[r|] [Hin Hk]].
  - destruct Hk as [<-|[]]. now exists r.
  - destruct Hk.
Qed.

Lemma has_party_id_true (pid : string) (n : Node) :
  has_party_id pid n = true <-> is_Party n = true /\ party_id_of n = pid.
Proof.
  unfold has_party_id, is_Party, party_id_of.
  destruct (nprops n); try (split; [discriminate | intros [H _]; discriminate]).
  rewrite String.eqb_eq. tauto.
Qed.

Lemma has_clan_id_true (cid : string) (n : Node) :
  has_clan_id cid n = true <-> is_Clan n = true /\ clan_id_of n = cid.
Proof.
  unfold has_clan_id, is_Clan, clan_id_of.
  destruct (nprops n); try (split; [discriminate | intros [H _]; discriminate]).
  rewrite String.eqb_eq. tauto.
Qed.

Lemma in_player_parties g pid x :
  In x (player_parties g pid)
  <-> exists p r party,
        In p (match_player g pid) /\ In r (rels g) /\ is_IN_PARTY r = true
        /\ rsrc r = nid p /\ In party (nodes g) /\ is_Party party = true
        /\ nid party = rdst r /\ party_id_of party = x.
Proof.
  unfold player_parties, player_party_rows. rewrite in_map_iff. split.
  - intros [[r party] [Hx Hin]]. simpl in Hx. apply in_flat_map in Hin.
    destruct Hin as [p [Hp Hin]]. apply in_expand_out in Hin.
    exists p, r, party. intuition.
  - intros (p & r & party & Hp & Hr & Hty & Hs & Hn & Hl & Hd & Hx).
    exists (r, party). split; [exact Hx|]. apply in_flat_map. exists p.
    split; [exact Hp|]. apply in_expand_out. auto 10.
Qed.

Lemma in_player_clans g pid x :
  In x (player_clans g pid)
  <-> exists p r clan,
        In p (match_player g pid) /\ In r (rels g) /\ is_BELONGS_TO r = true
        /\ rsrc r = nid p /\ In clan (nodes g) /\ is_Clan clan = true
        /\ nid clan = rdst r /\ clan_id_of clan = x.
Proof.
  unfold player_clans, player_clan_rows. rewrite in_map_iff. split.
  - intros [[r clan] [Hx Hin]]. simpl in Hx. apply in_flat_map in Hin.
    destruct Hin as [p [Hp Hin]]. apply in_expand_out in Hin.
    exists p, r, clan. intuition.
  - intros (p & r & clan & Hp & Hr & Hty & Hs & Hn & Hl & Hd & Hx).
    exists (r, clan). split; [exact Hx|]. apply in_flat_map. exists p.
    split; [exact Hp|]. apply in_expand_out. auto 10.
Qed.

Lemma route_success {A : Type} ok err detail
    (call : Graph -> option A * Graph) (g : Graph) :
  fst (call g) <> None ->
  exists body, route true ok err detail call g = (Response ok body, snd (call g)).
Proof.
  unfold route. destruct (call g) as [[body|] g']; simpl; [|congruence].
  intros _. now exists body.
Qed.

Lemma route_failure {A : Type} ok err detail
    (call : Graph -> option A * Graph) (g : Graph) :
  fst (call g) = None ->
  route true ok err detail call g = (HTTPException err detail, snd (call g)).
Proof.
  unfold route. destruct (call g) as [[body|] g']; simpl; congruence.
Qed.

Lemma nodes_join_party now party_id pid g :
  nodes (snd (join_party now party_id pid g)) = nodes g.
Proof. unfold join_party. simpl. now rewrite create_rels_spec. Qed.


(** [join_party] keeps every [IN_PARTY] edge: it deletes invitations only. *)
Lemma join_party_keeps_memberships now party_id pid g r :
  NoDup (map rid (rels g)) ->
  In r (rels g) -> is_IN_PARTY r = true ->
  In r (rels (snd (join_party now party_id pid g))).
Proof.
  intros Hnd Hr Hty. unfold join_party. simpl. rewrite create_rels_spec. simpl.
  apply in_or_app. left. apply in_delete_rels. split; [assumption|].
  intros Hdel. apply in_bound_rids_inv in Hdel. destruct Hdel as [i [Hi Heq]].
  apply in_map_iff in Hi. destruct Hi as [[pp o] [Ho Hrow]]. simpl in Ho. subst o.
  unfold join_party_rows in Hrow. apply in_flat_map in Hrow.
  destruct Hrow as [pp' [_ Hrow]]. apply in_map_iff in Hrow.
  destruct Hrow as [o [Ho Hopt]]. injection Ho as _ ->.
  apply (proj1 (in_optional _ _)) in Hopt. apply in_rels_from_to in Hopt.
  destruct Hopt as (Hi & Hity & _).
  assert (r = i) by (apply (NoDup_map_inj rid (rels g)); auto).
  subst i. unfold is_IN_PARTY in Hty. unfold is_INVITED_TO in Hity.
  destruct (rprops r); discriminate.
Qed.

(** ** Sending a friend request *)

(** C4, amended.  [send_friend_request] does not look at the relationships
    of the two players.  The route answers 201 exactly when a node exists
    for [from] and one for [to], and the statement then creates a new
    [SENT_REQUEST] edge for every such pair of nodes and deletes nothing:
    this includes [from == to], a request already pending in either
    direction, and a block in either direction.  Otherwise the route raises
    the 400 error "Failed to send friend request" and the graph is left as
    it was.  No other error is raised. *)
Theorem send_friend_request_checks_nodes_only :
  forall (now : Z) (request : FriendRequestCreate) (g : Graph),
    let from_nodes := match_player g (from_player_id request) in
    let to_nodes := match_player g (to_player_id request) in
    let out := route_send_friend_request true now request g in
    match fst out with
    | Response code body =>
        code = 201
        /\ from_nodes <> [] /\ to_nodes <> []
        /\ (exists created,
               created <> [] /\ rels (snd out) = rels g ++ created
               /\ Forall (fun r => is_SENT_REQUEST r = true
                                   /\ next_rel g <= rid r) created)
        /\ (forall a b, In a from_nodes -> In b to_nodes ->
               exists r, In r (rels (snd out))
                         /\ rsrc r = nid a /\ rdst r = nid b
                         /\ rprops r = SENT_REQUEST now (or_empty (message request))
                         /\ next_rel g <= rid r)
    | HTTPException code detail =>
        code = 400
        /\ detail = "Failed to send friend request"%string
        /\ (from_nodes = [] \/ to_nodes = [])
        /\ snd out = g
    end.
Proof.
  intros now [from to msg] g from_nodes to_nodes out. simpl in from_nodes, to_nodes.
  unfold out, route_send_friend_request. cbn [from_player_id to_player_id message].
  destruct (list_prod from_nodes to_nodes) as [|row rows] eqn:Erows.
  - (* a player is missing *)
    assert (Hnone : fst (send_friend_request now from to (or_empty msg) g) = None).
    { unfold send_friend_request. fold from_nodes to_nodes. now rewrite Erows. }
    rewrite (route_failure _ _ _ _ g Hnone). cbn [fst snd].
    split; [reflexivity|]. split; [reflexivity|]. split.
    + destruct from_nodes as [|a l]; [now left|].
      destruct to_nodes as [|b l']; [now right|]. discriminate Erows.
    + unfold send_friend_request. fold from_nodes to_nodes. now rewrite Erows.
  - assert (Hfrom : from_nodes <> []).
    { intros E. rewrite E in Erows. discriminate. }
    assert (Hto : to_nodes <> []).
    { intros E. rewrite E, list_prod_nil_r in Erows. discriminate. }
    destruct (route_success 201 400 "Failed to send friend request"
                (send_friend_request now from to (or_empty msg)) g)
      as [body Eout].
    { unfold send_friend_request. fold from_nodes to_nodes. now rewrite Erows. }
    rewrite Eout. cbn [fst snd].
    split; [reflexivity|]. split; [assumption|]. split; [assumption|]. split.
    + rewrite rels_send_friend_request. fold from_nodes to_nodes.
      eexists. split; [|split; [reflexivity|]].
      * rewrite Erows. discriminate.
      * apply Forall_forall. intros r Hr. apply in_number_rels in Hr.
        destruct Hr as [Hr Hk]. apply in_map_iff in Hr.
        destruct Hr as [row' [Heq _]]. injection Heq as _ _ H3.
        unfold is_SENT_REQUEST. rewrite <- H3. split; [reflexivity | lia].
    + intros a b Ha Hb. now apply send_friend_request_creates.
Qed.

(** ** Sending a message *)

Lemma combine_seq_in {A : Type} (x : A) (l : list A) (k : nat) :
  In x l -> exists m, In (x, m) (combine l (seq k (List.length l))).
Proof.
  revert k. induction l as [|y l IH]; intros k; [intros []|].
  intros [->|H]; simpl.
  - exists k. now left.
  - destruct (IH (S k) H) as [m Hm]. exists m. now right.
Qed.

Lemma combine_seq_node {A : Type} (x : A) (m : nat) (l : list A) (k : nat)
    (p : NodeProps) :
  In (x, m) (combine l (seq k (List.length l))) ->
  In (mkNode m p) (number_nodes k (map (fun _ => p) l)) /\ k <= m.
Proof.
  revert k. induction l as [|y l IH]; intros k; [intros []|].
  simpl. intros [H|H].
  - injection H as _ <-. split; [now left | lia].
  - destruct (IH (S k) H) as [H1 H2]. split; [now right | lia].
Qed.

Lemma in_set_nodes ids upd g n :
  In n (nodes g) ->
  In (if existsb (Nat.eqb (nid n)) ids then mkNode (nid n) (upd (nprops n)) else n)
     (nodes (set_nodes ids upd g)).
Proof.
  intros H. unfold set_nodes. simpl.
  apply (in_map (fun n => if existsb (Nat.eqb (nid n)) ids
                          then mkNode (nid n) (upd (nprops n)) else n)).
  exact H.
Qed.

(** C8, amended.  [send_message] does not check that the sender is a member
    of the conversation.  Whenever the conversation [C] and the player [S]
    exist, with or without a [MEMBER_OF] edge from [S] to [C], the route
    answers 201 and the one statement creates the Message node with its
    [SENT] edge from [S] and its [CONTAINS] edge from [C] and sets
    [last_message_at] of [C]. *)
Theorem send_message_ignores_membership :
  forall (now : Z) (message_id conversation_id sender_id content : string)
         (g : Graph) (c s : Node),
    In c (match_nodes g (has_conversation_id conversation_id)) ->
    In s (match_player g sender_id) ->
    let out := route_send_message true now message_id conversation_id
                 sender_id content g in
    (exists body, fst out = Response 201 body)
    /\ exists m,
         next_node g <= m
         /\ In (mkNode m (Message message_id content now false None))
              (nodes (snd out))
         /\ (exists r, In r (rels (snd out)) /\ rprops r = SENT
                       /\ rsrc r = nid s /\ rdst r = m)
         /\ (exists r, In r (rels (snd out)) /\ rprops r = CONTAINS
                       /\ rsrc r = nid c /\ rdst r = m)
         /\ In (mkNode (nid c) (set_last_message_at now (nprops c)))
              (nodes (snd out)).
Proof.
  intros now mid cid sid content g c s Hc Hs out.
  set (rows := list_prod (match_nodes g (has_conversation_id cid))
                 (match_player g sid)).
  assert (Hrow : In (c, s) rows) by now apply in_prod.
  destruct (route_success 201 400 "Failed to send message"
              (send_message now mid cid sid content) g) as [body Eout].
  { unfold send_message. simpl. now apply single_map_in with (x := (c, s)). }
  unfold out, route_send_message. rewrite Eout. cbn [fst snd].
  split; [now exists body|].
  destruct (combine_seq_in (c, s) rows (next_node g) Hrow) as [m Hm].
  destruct (combine_seq_node (c, s) m rows (next_node g)
              (Message mid content now false None) Hm) as [Hnode Hfresh].
  exists m. split; [exact Hfresh|].
  unfold send_message. fold rows. cbn [snd].
  rewrite !create_rels_spec, create_nodes_spec. unfold fresh_nodes.
  split; [|split; [|split]].
  - match goal with |- In ?n (nodes (set_nodes ?ids ?upd ?g1)) =>
      assert (H : In n (nodes g1)) by (simpl; apply in_or_app; now right);
      apply (in_set_nodes ids upd g1) in H
    end.
    simpl in H. destruct (existsb _ _) in H; exact H.
  - destruct (number_rels_in (nid s, m, SENT) (next_rel g)
                (map (fun rm => (nid (snd (fst rm)), snd rm, SENT))
                   (combine rows (seq (next_node g) (List.length rows)))))
      as [r (Hr & He & _)].
    { apply in_map_iff. exists ((c, s), m). split; [reflexivity | exact Hm]. }
    injection He as H1 H2 H3. exists r. split; [|auto].
    simpl. apply in_or_app. left. apply in_or_app. now right.
  - destruct (number_rels_in (nid c, m, CONTAINS)
                (next_rel g + List.length
                   (map (fun rm => (nid (snd (fst rm)), snd rm, SENT))
                      (combine rows (seq (next_node g) (List.length rows)))))
                (map (fun rm => (nid (fst (fst rm)), snd rm, CONTAINS))
                   (combine rows (seq (next_node g) (List.length rows)))))
      as [r (Hr & He & _)].
    { apply in_map_iff. exists ((c, s), m). split; [reflexivity | exact Hm]. }
    injection He as H1 H2 H3. exists r. split; [|auto].
    simpl. apply in_or_app. now right.
  - match goal with |- In _ (nodes (set_nodes ?ids ?upd ?g1)) =>
      assert (H : In c (nodes g1))
        by (simpl; apply in_or_app; left;
            now apply (proj1 (in_match_nodes _ _ _) Hc));
      apply (in_set_nodes ids upd g1) in H;
      assert (E : existsb (Nat.eqb (nid c)) ids = true)
        by (apply existsb_eqb_In; apply in_map_iff; exists (c, s);
            split; [reflexivity | exact Hrow])
    end.
    rewrite E in H. exact H.
Qed.

(** ** Editing a message *)

Lemma Forall2_map_same {A : Type} (R : A -> A -> Prop) (f : A -> A) (l : list A) :
  (forall x, In x l -> R x (f x)) -> Forall2 R l (map f l).
Proof.
  induction l as [|x l IH]; intros H; simpl; constructor.
  - apply H. now left.
  - apply IH. intros y Hy. apply H. now right.
Qed.

Lemma in_edit_rows g mid m s c :
  In (m, (s, c)) (edit_rows g mid) ->
  In m (nodes g) /\ has_message_id mid m = true.
Proof.
  unfold edit_rows. rewrite in_flat_map. intros [m' [Hm Hin]].
  apply in_flat_map in Hin. destruct Hin as [sr [_ Hin]].
  apply in_map_iff in Hin. destruct Hin as [cr [Heq _]].
  injection Heq as -> _ _. now apply in_match_nodes in Hm.
Qed.

Lemma has_message_id_true mid n :
  has_message_id mid n = true ->
  exists content t e ea, nprops n = Message mid content t e ea.
Proof.
  unfold has_message_id. destruct (nprops n); try discriminate.
  rewrite String.eqb_eq. intros ->. eauto.
Qed.

(** C10.  [edit_message] changes nothing but the content, the [edited] flag
    and [edited_at] of the message.  In a graph whose nodes have distinct
    identities: every relationship is as before (so are the [SENT] edge from
    the sender and the [CONTAINS] edge from the conversation); every node
    keeps its identity and is either unchanged or a Message with the given
    [message_id] that keeps its [message_id] and [timestamp] and now has the
    new content, [edited = true] and [edited_at] set; and a message that has
    a sender and a conversation is updated so, the call returning a record. *)
Theorem edit_message_frame :
  forall (now : Z) (message_id new_content : string) (g : Graph),
    NoDup (map nid (nodes g)) ->
    let out := edit_message now message_id new_content g in
    rels (snd out) = rels g
    /\ Forall2
         (fun n n' =>
            nid n' = nid n
            /\ (n' = n
                \/ exists content t e ea,
                     nprops n = Message message_id content t e ea
                     /\ nprops n' = Message message_id new_content t true (Some now)))
         (nodes g) (nodes (snd out))
    /\ (forall m s c content t e ea,
           In (m, (s, c)) (edit_rows g message_id) ->
           nprops m = Message message_id content t e ea ->
           fst out <> None
           /\ In (mkNode (nid m) (Message message_id new_content t true (Some now)))
                (nodes (snd out))).
Proof.
  intros now mid new g Hnd out. split; [reflexivity|]. split.
  - unfold out, edit_message, set_nodes. cbn [snd nodes].
    apply Forall2_map_same. intros x Hx.
    destruct (existsb (Nat.eqb (nid x))
                (map (fun row => nid (fst row)) (edit_rows g mid))) eqn:E.
    + split; [reflexivity|]. right.
      apply existsb_eqb_In in E. apply in_map_iff in E.
      destruct E as [[m [s c]] [Heq Hrow]]. simpl in Heq.
      apply in_edit_rows in Hrow. destruct Hrow as [Hm Hid].
      assert (x = m) by (apply (NoDup_map_inj nid (nodes g)); auto).
      subst m. apply has_message_id_true in Hid.
      destruct Hid as (content & t & e & ea & Hprops).
      exists content, t, e, ea. split; [exact Hprops|].
      simpl. now rewrite Hprops.
    + split; [reflexivity | now left].
  - intros m s c content t e ea Hrow Hprops. split.
    + unfold out, edit_message. cbn [fst].
      now apply single_map_in with (x := (m, (s, c))).
    + pose proof (in_edit_rows g mid m s c Hrow) as [Hm _].
      apply (in_set_nodes (map (fun row => nid (fst row)) (edit_rows g mid))
               (set_edited now new) g) in Hm.
      assert (E : existsb (Nat.eqb (nid m))
                    (map (fun row => nid (fst row)) (edit_rows g mid)) = true).
      { apply existsb_eqb_In. apply in_map_iff. exists (m, (s, c)).
        split; [reflexivity | exact Hrow]. }
      rewrite E, Hprops in Hm. exact Hm.
Qed.

(** ** Friend suggestions *)

Lemma unique_player_node g n m :
  NoDup (player_ids g) ->
  In n (nodes g) -> In m (nodes g) ->
  is_Player n = true -> is_Player m = true ->
  player_id_of n = player_id_of m -> n = m.
Proof.
  intros Hnd Hn Hm Hpn Hpm Heq.
  apply (NoDup_map_inj player_id_of (match_nodes g is_Player)); auto;
    apply in_match_nodes; auto.
Qed.

Lemma in_firstn {A : Type} (x : A) (n : nat) (l : list A) :
  In x (firstn n l) -> In x l.
Proof.
  intros H. rewrite <- (firstn_skipn n l). apply in_or_app. now left.
Qed.

Lemma in_insert_desc x y l : In x (insert_desc y l) <-> x = y \/ In x l.
Proof.
  induction l as [|z l IH]; simpl.
  - intuition.
  - destruct (Nat.leb (sg_mutual_friends z) (sg_mutual_friends y)); simpl.
    + intuition.
    + rewrite IH. intuition.
Qed.

Lemma in_order_by x l : In x (order_by_mutual_friends_desc l) <-> In x l.
Proof.
  induction l as [|y l IH]; simpl; [tauto|].
  rewrite in_insert_desc, IH. intuition.
Qed.

Lemma insert_desc_sorted x l :
  StronglySorted mutual_friends_desc l ->
  StronglySorted mutual_friends_desc (insert_desc x l).
Proof.
  induction l as [|y l IH]; intros Hs; simpl.
  - constructor; constructor.
  - inversion Hs as [|? ? Hs' Hall]; subst.
    destruct (Nat.leb (sg_mutual_friends y) (sg_mutual_friends x)) eqn:E.
    + apply Nat.leb_le in E. constructor; [assumption|].
      constructor; [exact E|].
      apply (Forall_impl (mutual_friends_desc x)) with (2 := Hall).
      unfold mutual_friends_desc. intros z Hz. lia.
    + apply Nat.leb_gt in E. constructor; [now apply IH|].
      apply Forall_forall. intros z Hz. apply in_insert_desc in Hz.
      destruct Hz as [->|Hz].
      * unfold mutual_friends_desc. lia.
      * rewrite Forall_forall in Hall. now apply Hall.
Qed.

Lemma order_by_sorted l :
  StronglySorted mutual_friends_desc (order_by_mutual_friends_desc l).
Proof.
  induction l as [|x l IH]; simpl; [constructor | now apply insert_desc_sorted].
Qed.

Lemma firstn_sorted {A : Type} (R : A -> A -> Prop) (n : nat) (l : list A) :
  StronglySorted R l -> StronglySorted R (firstn n l).
Proof.
  revert l. induction n as [|n IH]; intros l Hs; simpl; [constructor|].
  destruct l as [|x l]; [constructor|].
  inversion Hs as [|? ? Hs' Hall]; subst. constructor; [now apply IH|].
  apply Forall_forall. intros y Hy. apply in_firstn in Hy.
  rewrite Forall_forall in Hall. now apply Hall.
Qed.

Lemma in_group_count rec keys :
  In rec (group_count keys)
  <-> In (sg_player rec) keys
      /\ sg_mutual_friends rec = count_occ PlayerRecord_eq_dec keys (sg_player rec).
Proof.
  unfold group_count. rewrite in_map_iff. split.
  - intros [k [<- Hk]]. simpl. apply nodup_In in Hk. auto.
  - intros [Hk Hc]. exists (sg_player rec). split.
    + destruct rec as [k c]. simpl in *. now subst c.
    + now apply nodup_In.
Qed.

Lemma pattern_exists_false {A : Type} (l : list A) :
  pattern_exists l = false <-> l = [].
Proof. destruct l; simpl; split; congruence. Qed.

Lemma in_two_hop_rows g A p friend s :
  In (p, (friend, s)) (two_hop_rows g A) ->
  In p (match_player g A) /\ In s (nodes g) /\ is_Player s = true.
Proof.
  unfold two_hop_rows. rewrite in_flat_map. intros [p' [Hp Hin]].
  apply in_flat_map in Hin. destruct Hin as [[f1 fr] [_ Hin]].
  apply in_map_iff in Hin. destruct Hin as [[f2 s'] [Heq Hin]].
  simpl in Heq. injection Heq as -> _ ->.
  apply filter_In in Hin. destruct Hin as [Hin _].
  apply in_expand_out in Hin. tauto.
Qed.

Lemma in_get_blocked_players x A g :
  In x (map bl_blocked_player_id (get_blocked_players A g))
  <-> exists p b blocked,
        In p (match_player g A)
        /\ In (b, blocked) (expand_out g is_BLOCKED is_Player p)
        /\ player_id_of blocked = x.
Proof.
  rewrite get_blocked_players_rows, map_map. simpl. rewrite in_map_iff. split.
  - intros [[b blocked] [Hx Hin]]. simpl in Hx.
    apply in_player_out_rows in Hin. destruct Hin as [p [Hp Hin]].
    exists p, b, blocked. auto.
  - intros (p & b & blocked & Hp & Hin & Hx). exists (b, blocked).
    split; [exact Hx|]. apply in_player_out_rows. now exists p.
Qed.

(** What a row that passes the [WHERE] says about the suggested player. *)
Lemma suggestion_row_excluded g A p friend s :
  NoDup (player_ids g) ->
  In (p, (friend, s)) (suggestion_rows g A) ->
  player_id_of s <> A
  /\ ~ In (player_id_of s) (map fd_player_id (get_friends A g))
  /\ ~ In (player_id_of s) (map bl_blocked_player_id (get_blocked_players A g)).
Proof.
  intros Hnd Hrow. unfold suggestion_rows in Hrow. apply filter_In in Hrow.
  destruct Hrow as [Hrow Hwhere].
  destruct (in_two_hop_rows g A p friend s Hrow) as (Hp & Hs & Hspl).
  unfold suggestion_where in Hwhere. cbn [fst snd] in Hwhere.
  apply andb_true_iff in Hwhere. destruct Hwhere as [Hwhere Hself].
  apply andb_true_iff in Hwhere. destruct Hwhere as [Hfr Hbl].
  apply negb_true_iff in Hself, Hfr, Hbl.
  apply pattern_exists_false in Hfr, Hbl. apply String.eqb_neq in Hself.
  pose proof (proj1 (in_match_player _ _ _) Hp) as (Hpn & Hpp & Hpid).
  assert (Hsame : forall q m, In q (match_player g A) -> In m (nodes g) ->
                    is_Player m = true -> player_id_of m = player_id_of s ->
                    q = p /\ m = s).
  { intros q m Hq Hm Hmp Hmid. apply in_match_player in Hq.
    destruct Hq as (Hqn & Hqp & Hqid). split.
    - apply (unique_player_node g); auto. congruence.
    - apply (unique_player_node g); auto. }
  split; [exact Hself|]. split.
  - intros Hin. apply in_get_friends in Hin.
    destruct Hin as (q & f & m & Hq & Hin & Hid).
    apply in_expand_out in Hin. destruct Hin as (Hf & Hty & Hsrc & Hm & Hmp & Hd).
    destruct (Hsame q m Hq Hm Hmp Hid) as [-> ->].
    assert (Hin : In f (rels_from_to g is_FRIENDS_WITH p s))
      by (apply in_rels_from_to; auto).
    rewrite Hfr in Hin. destruct Hin.
  - intros Hin. apply in_get_blocked_players in Hin.
    destruct Hin as (q & f & m & Hq & Hin & Hid).
    apply in_expand_out in Hin. destruct Hin as (Hf & Hty & Hsrc & Hm & Hmp & Hd).
    destruct (Hsame q m Hq Hm Hmp Hid) as [-> ->].
    assert (Hin : In f (rels_from_to g is_BLOCKED p s))
      by (apply in_rels_from_to; auto).
    rewrite Hbl in Hin. destruct Hin.
Qed.

(** C5, amended.  In a graph with one node per [player_id], a list returned
    by [get_friend_suggestions(A, N)] has no entry for [A] itself, for a
    player in [get_friends(A)] or for a player in [get_blocked_players(A)]
    (players who block [A] are not excluded); every entry carries as
    [mutual_friends] the number of matched two-hop rows that lead to its
    player, one per pair of [FRIENDS_WITH] edges; and the list is in
    non-increasing order of [mutual_friends]. *)
Theorem friend_suggestions_excluded_and_sorted :
  forall (A : string) (limit : Z) (g : Graph) (l : list SuggestionRecord),
    NoDup (player_ids g) ->
    get_friend_suggestions A limit g = Returned l ->
    (forall rec, In rec l ->
       let C := pr_player_id (sg_player rec) in
       C <> A
       /\ ~ In C (map fd_player_id (get_friends A g))
       /\ ~ In C (map bl_blocked_player_id (get_blocked_players A g))
       /\ sg_mutual_friends rec
          = count_occ PlayerRecord_eq_dec
              (map suggestion_key (suggestion_rows g A)) (sg_player rec))
    /\ StronglySorted mutual_friends_desc l.
Proof.
  intros A limit g l Hnd Hret. unfold get_friend_suggestions in Hret.
  destruct (Z.ltb limit 0); [discriminate|].
  destruct (Z.ltb int64_max limit); [discriminate|].
  injection Hret as <-.
  split.
  - intros rec Hrec C. apply in_firstn in Hrec.
    apply (proj1 (in_order_by _ _)) in Hrec.
    apply (proj1 (in_group_count _ _)) in Hrec. destruct Hrec as [Hkey Hcount].
    apply in_map_iff in Hkey. destruct Hkey as [[p [friend s]] [Hk Hrow]].
    destruct (suggestion_row_excluded g A p friend s Hnd Hrow) as (H1 & H2 & H3).
    assert (HC : C = player_id_of s).
    { unfold C. rewrite <- Hk. reflexivity. }
    rewrite HC. auto.
  - apply firstn_sorted. apply order_by_sorted.
Qed.

(** [get_friend_suggestions] returns a list for every limit that Cypher
    accepts, and raises for the others. *)
Lemma get_friend_suggestions_returns A limit g :
  (0 <= limit <= int64_max)%Z <->
  exists l, get_friend_suggestions A limit g = Returned l.
Proof.
  unfold get_friend_suggestions.
  destruct (Z.ltb_spec limit 0); [|destruct (Z.ltb_spec int64_max limit)].
  - split; [lia | intros [l E]; discriminate].
  - split; [lia | intros [l E]; discriminate].
  - split; [eauto | lia].
Qed.

(** ** Well-formedness is an invariant *)

Create HintDb wf.

(** Deleting relationships keeps the identities of the others distinct. *)
Lemma NoDup_rid_filter (keep : Rel -> bool) (rs : list Rel) :
  NoDup (map rid rs) -> NoDup (map rid (filter keep rs)).
Proof.
  intros Hnd. induction rs as [|r rs IH]; simpl; [constructor|].
  simpl in Hnd. apply NoDup_cons_iff in Hnd. destruct Hnd as [Hr Hnd].
  destruct (keep r); simpl; [|now apply IH].
  apply NoDup_cons; [|now apply IH].
  intros Hin. apply Hr. apply in_map_iff in Hin.
  destruct Hin as [r' [Hid Hin]]. apply filter_In in Hin.
  rewrite <- Hid. apply in_map. tauto.
Qed.

Lemma wf_empty_graph : wf_graph empty_graph.
Proof. repeat split; constructor. Qed.

Lemma wf_create_rel e g : wf_graph g -> wf_graph (create_rel e g).
Proof.
  destruct e as [[s d] p]. intros (Hn & Hnb & Hr & Hrb).
  unfold wf_graph. simpl. rewrite map_app. simpl.
  split; [assumption|]. split; [assumption|]. split.
  - apply NoDup_app; [assumption | repeat constructor; intros [] |].
    intros k Hk [<-|[]]. apply in_map_iff in Hk. destruct Hk as [r [Hk Hin]].
    rewrite Forall_forall in Hrb. specialize (Hrb r Hin). lia.
  - apply Forall_app. split.
    + apply (Forall_impl _ (fun r (H : rid r < next_rel g) => Nat.lt_lt_succ_r _ _ H)).
      assumption.
    + repeat constructor.
Qed.

Lemma wf_create_rels es g : wf_graph g -> wf_graph (create_rels es g).
Proof.
  revert g. induction es as [|e es IH]; intros g H; simpl; [assumption|].
  apply IH. now apply wf_create_rel.
Qed.

Lemma wf_create_node p g : wf_graph g -> wf_graph (create_node p g).
Proof.
  intros (Hn & Hnb & Hr & Hrb).
  unfold wf_graph. simpl. rewrite map_app. simpl.
  split; [|split; [|split; assumption]].
  - apply NoDup_app; [assumption | repeat constructor; intros [] |].
    intros k Hk [<-|[]]. apply in_map_iff in Hk. destruct Hk as [n [Hk Hin]].
    rewrite Forall_forall in Hnb. specialize (Hnb n Hin). lia.
  - apply Forall_app. split.
    + apply (Forall_impl _ (fun n (H : nid n < next_node g) => Nat.lt_lt_succ_r _ _ H)).
      assumption.
    + repeat constructor.
Qed.

Lemma wf_create_nodes ps g : wf_graph g -> wf_graph (create_nodes ps g).
Proof.
  revert g. induction ps as [|p ps IH]; intros g H; simpl; [assumption|].
  apply IH. now apply wf_create_node.
Qed.

Lemma wf_delete_rels ids g : wf_graph g -> wf_graph (delete_rels ids g).
Proof.
  intros (Hn & Hnb & Hr & Hrb). unfold wf_graph. simpl.
  split; [assumption|]. split; [assumption|]. split.
  - now apply NoDup_rid_filter.
  - rewrite Forall_forall in *. intros r Hin. apply filter_In in Hin.
    apply Hrb. tauto.
Qed.

Lemma wf_set_nodes ids upd g : wf_graph g -> wf_graph (set_nodes ids upd g).
Proof.
  intros (Hn & Hnb & Hr & Hrb). unfold wf_graph. simpl.
  assert (Hid : forall n,
             nid (if existsb (Nat.eqb (nid n)) ids
                  then mkNode (nid n) (upd (nprops n)) else n) = nid n).
  { intros n. now destruct (existsb _ _). }
  split; [|split; [|split; assumption]].
  - rewrite map_map. rewrite (map_ext _ nid Hid). assumption.
  - rewrite Forall_forall in *. intros n Hin. apply in_map_iff in Hin.
    destruct Hin as [m [<- Hin]]. rewrite Hid. now apply Hnb.
Qed.

#[export] Hint Resolve wf_empty_graph wf_create_rels wf_create_node
  wf_create_nodes wf_delete_rels wf_set_nodes : wf.

Lemma wf_add_participants clock k cid pids g :
  wf_graph g -> wf_graph (add_participants clock k cid pids g).
Proof.
  revert k g. induction pids as [|pid pids IH]; intros k g H; simpl;
    [assumption|].
  apply IH. unfold add_participant. auto with wf.
Qed.

(** Every operation of the model takes a well-formed graph to a well-formed
    graph; the hypotheses on node and relationship identities made in this
    file hold in every graph the operations build from the empty one. *)
Lemma wf_operations (g : Graph) :
  wf_graph g ->
  (forall now p u s, wf_graph (snd (create_player_node now p u s g)))
  /\ (forall now A B m, wf_graph (snd (send_friend_request now A B m g)))
  /\ (forall now A B, wf_graph (snd (accept_friend_request now A B g)))
  /\ (forall now A B r, wf_graph (snd (block_player now A B r g)))
  /\ (forall now A B, wf_graph (snd (follow_player now A B g)))
  /\ (forall A B, wf_graph (snd (unfollow_player A B g)))
  /\ (forall clock c t ps n, wf_graph (snd (create_conversation clock c t ps n g)))
  /\ (forall now m c s x, wf_graph (snd (send_message now m c s x g)))
  /\ (forall now m x, wf_graph (snd (edit_message now m x g)))
  /\ (forall now p l gm ms pub, wf_graph (snd (create_party now p l gm ms pub g)))
  /\ (forall now p i j, wf_graph (snd (invite_to_party now p i j g)))
  /\ (forall now p q, wf_graph (snd (join_party now p q g)))
  /\ (forall now c n t o d, wf_graph (snd (create_clan now c n t o d g)))
  /\ (forall now c p, wf_graph (snd (join_clan now c p g)))
  /\ (forall c p, wf_graph (snd (leave_clan c p g))).
Proof.
  intros H.
  repeat match goal with |- (forall _, _) /\ _ => split end; intros;
    unfold create_player_node, send_friend_request, accept_friend_request,
      block_player, follow_player, unfollow_player, create_conversation,
      send_message, edit_message, create_party, invite_to_party, join_party,
      create_clan, join_clan, leave_clan;
    cbn [snd]; auto 10 using wf_add_participants with wf.
Qed.

(** * The operations on example graphs *)

(** Closes [NoDup l] for a list [l] of distinct literals. *)
Ltac solve_NoDup :=
  cbv;
  repeat (apply NoDup_cons;
          [ let H := fresh in
            intros H; repeat (destruct H as [H|H]; [discriminate H|]); exact H
          | ]);
  apply NoDup_nil.

(** C3 on two friends: [A] and [B] are in each other's list before the
    block and in neither after it. *)
Example block_player_after_friendship :
  let g := befriend "A" "B" two_players in
  let g' := snd (block_player 5 "A" "B" None g) in
  map fd_player_id (get_friends "A" g) = ["B"%string]
  /\ map fd_player_id (get_friends "B" g) = ["A"%string]
  /\ get_friends "A" g' = [] /\ get_friends "B" g' = [].
Proof. vm_compute. auto. Qed.

(** C1 on two players with no request between them. *)
Lemma send_then_accept_makes_friends_witness :
  let sent := send_friend_request 1 "A" "B" "hi" two_players in
  let accepted := accept_friend_request 2 "A" "B" (snd sent) in
  fst sent <> None
  /\ fst accepted <> None
  /\ In "B"%string (map fd_player_id (get_friends "A" (snd accepted)))
  /\ In "A"%string (map fd_player_id (get_friends "B" (snd accepted)))
  /\ request_rows (snd accepted) "A" "B" = []
  /\ request_rows (snd accepted) "B" "A" = [].
Proof.
  apply (send_then_accept_makes_friends 1 2 "A" "B" "hi" two_players).
  - vm_compute. discriminate.
  - vm_compute. discriminate.
  - reflexivity.
Defined.

(** C1 as stated fails when a request from [B] to [A] is pending: [A] and
    [B] are distinct players of the graph, and after
    [send_friend_request(A, B)] and [accept_friend_request(A, B)] the
    [SENT_REQUEST] edge from [B] to [A] is still there;
    [get_pending_requests(A)] lists it. *)
Lemma send_then_accept_keeps_reverse_request :
  let g2 := snd (accept_friend_request 3 "A" "B"
                   (snd (send_friend_request 2 "A" "B" "hi" pending_from_B))) in
  "A"%string <> "B"%string
  /\ List.length (match_player pending_from_B "A") = 1
  /\ List.length (match_player pending_from_B "B") = 1
  /\ map fd_player_id (get_friends "A" g2) = ["B"%string]
  /\ map pq_from_player_id (get_pending_requests "A" g2) = ["B"%string]
  /\ List.length (request_rows g2 "B" "A") = 1.
Proof. split; [discriminate|]. vm_compute. auto 10. Qed.

(** C2 on two players. *)
Lemma block_player_twice_adds_edge_witness :
  let g1 := snd (block_player 1 "A" "B" None two_players) in
  let second := block_player 2 "A" "B" (Some "again"%string) g1 in
  let entry := mkBlockRecord "B" "B" (Some 2%Z) (Some "again"%string) in
  fst second = Some entry
  /\ get_blocked_players "A" (snd second) = get_blocked_players "A" g1 ++ [entry]
  /\ List.length (get_blocked_players "A" (snd second))
     = S (List.length (get_blocked_players "A" g1)).
Proof.
  apply (block_player_twice_adds_edge 1 2 "A" "B" None (Some "again"%string)
           two_players (mkNode 0 (Player "A" "A" "offline" 0))
           (mkNode 1 (Player "B" "B" "offline" 0))).
  - solve_NoDup.
  - reflexivity.
  - reflexivity.
Defined.

(** C2 as stated fails: the second [block_player(A, B)] succeeds, but
    [get_blocked_players(A)] lists [B] once after the first call and twice
    after the second. *)
Lemma block_player_twice_duplicates :
  let g1 := snd (block_player 1 "A" "B" None two_players) in
  let second := block_player 2 "A" "B" None g1 in
  fst second = Some (mkBlockRecord "B" "B" (Some 2%Z) None)
  /\ map bl_blocked_player_id (get_blocked_players "A" g1) = ["B"%string]
  /\ map bl_blocked_player_id (get_blocked_players "A" (snd second))
     = ["B"%string; "B"%string]
  /\ get_blocked_players "A" (snd second) <> get_blocked_players "A" g1.
Proof.
  split; [reflexivity|]. split; [reflexivity|]. split; [reflexivity|].
  vm_compute. discriminate.
Qed.

(** C4 as stated fails: the route answers 201 and a new [SENT_REQUEST] edge
    is created when [from == to], when a request from [to] to [from] is
    pending, when the same request is pending already, and when [to] has
    blocked [from]. *)
Lemma send_friend_request_accepts_any_state :
  let self := route_send_friend_request true 5
                (mkFriendRequestCreate "A" "A" None) two_players in
  let reverse := route_send_friend_request true 5
                   (mkFriendRequestCreate "A" "B" None) pending_from_B in
  let again := route_send_friend_request true 5
                 (mkFriendRequestCreate "B" "A" None) pending_from_B in
  let blocked_graph := snd (block_player 1 "B" "A" None two_players) in
  let blocked := route_send_friend_request true 5
                   (mkFriendRequestCreate "A" "B" None) blocked_graph in
  (fst self = Response 201 (mkFriendRequestRecord "A" "A" "A" "A" "" 5)
   /\ List.length (request_rows (snd self) "A" "A") = 1)
  /\ (List.length (request_rows pending_from_B "B" "A") = 1
      /\ fst reverse = Response 201 (mkFriendRequestRecord "A" "A" "B" "B" "" 5)
      /\ List.length (request_rows (snd reverse) "A" "B") = 1)
  /\ (fst again = Response 201 (mkFriendRequestRecord "B" "B" "A" "A" "" 5)
      /\ List.length (request_rows (snd again) "B" "A") = 2)
  /\ (map bl_blocked_player_id (get_blocked_players "B" blocked_graph)
      = ["A"%string]
      /\ fst blocked = Response 201 (mkFriendRequestRecord "A" "A" "B" "B" "" 5)
      /\ List.length (request_rows (snd blocked) "A" "B") = 1).
Proof. vm_compute. auto 20. Qed.

(** C5 on a friend of a friend. *)
Lemma friend_suggestions_excluded_and_sorted_witness :
  let l := [mkSuggestionRecord (mkPlayerRecord "C" "C" "offline") 1] in
  get_friend_suggestions "A" 10 friend_of_friend = Returned l
  /\ (forall rec, In rec l ->
        let C := pr_player_id (sg_player rec) in
        C <> "A"%string
        /\ ~ In C (map fd_player_id (get_friends "A" friend_of_friend))
        /\ ~ In C (map bl_blocked_player_id
                     (get_blocked_players "A" friend_of_friend))
        /\ sg_mutual_friends rec
           = count_occ PlayerRecord_eq_dec
               (map suggestion_key (suggestion_rows friend_of_friend "A"))
               (sg_player rec))
  /\ StronglySorted mutual_friends_desc l.
Proof.
  split; [reflexivity|].
  apply (friend_suggestions_excluded_and_sorted "A" 10 friend_of_friend).
  - solve_NoDup.
  - reflexivity.
Defined.

(** C5 as stated fails twice.  A player who blocks [A] is suggested to [A]:
    [C] has blocked [A] and is the suggestion.  And the order is by the
    number of matched rows, not by the number of distinct intermediate
    friends: [C1], reached through the one friend [F1] along three parallel
    friendship edges, comes before [C2], reached through the two friends
    [F2] and [F3]. *)
Lemma friend_suggestions_blocker_and_parallel_edges :
  (map bl_blocked_player_id (get_blocked_players "C" blocked_by_candidate)
   = ["A"%string]
   /\ get_friend_suggestions "A" 10 blocked_by_candidate
      = Returned [mkSuggestionRecord (mkPlayerRecord "C" "C" "offline") 1])
  /\ (get_friend_suggestions "A" 10 parallel_friendships
      = Returned [mkSuggestionRecord (mkPlayerRecord "C1" "C1" "offline") 3;
                  mkSuggestionRecord (mkPlayerRecord "C2" "C2" "offline") 2]
      /\ distinct_intermediate_friends parallel_friendships "A" "C1" = 1
      /\ distinct_intermediate_friends parallel_friendships "A" "C2" = 2).
Proof. vm_compute. auto 10. Qed.


(** C7 on a new clan that three players join. *)
Lemma join_clan_ranks_sequential_witness :
  let joins := [(2%Z, "B"%string); (3%Z, "C"%string); (4%Z, "D"%string)] in
  let after := clan_ranks (join_clan_all "c1" joins new_clan) "c1" in
  clan_ranks new_clan "c1" = [1%Z]
  /\ clan_member_count new_clan "c1" = 1%Z
  /\ after = [1%Z] ++ [2%Z; 3%Z; 4%Z]
  /\ (joins <> [] -> In (1 + 1)%Z (clan_ranks new_clan "c1") -> ~ NoDup after).
Proof.
  split; [reflexivity|].
  apply (join_clan_ranks_sequential "c1"
           [(2%Z, "B"%string); (3%Z, "C"%string); (4%Z, "D"%string)] new_clan
           (mkNode 4 (Clan "c1" "Owls" "OWL" None 1))).
  - solve_NoDup.
  - reflexivity.
  - intros j [<-|[<-|[<-|[]]]]; eexists; reflexivity.
Defined.

(** C7 as stated fails: [B] joins with rank 2 and [C] with rank 3; after
    [B] has left, [D] joins and gets rank 3 as well. *)
Lemma join_clan_reuses_rank_after_leave :
  clan_ranks (snd (join_clan 3 "c1" "C" (snd (join_clan 2 "c1" "B" new_clan))))
    "c1" = [1%Z; 2%Z; 3%Z]
  /\ clan_ranks clan_after_leave "c1" = [1%Z; 3%Z; 3%Z].
Proof. vm_compute. auto. Qed.

(** C8 on a sender who is not a member of the conversation. *)
Lemma send_message_ignores_membership_witness :
  let out := route_send_message true 8 "m2" "conv" "B" "intruder"
               conversation_of_A in
  (exists body, fst out = Response 201 body)
  /\ exists m,
       next_node conversation_of_A <= m
       /\ In (mkNode m (Message "m2" "intruder" 8 false None)) (nodes (snd out))
       /\ (exists r, In r (rels (snd out)) /\ rprops r = SENT
                     /\ rsrc r = 1 /\ rdst r = m)
       /\ (exists r, In r (rels (snd out)) /\ rprops r = CONTAINS
                     /\ rsrc r = 2 /\ rdst r = m)
       /\ In (mkNode 2 (Conversation "conv" "group" (Some "solo"%string) 0
                          (Some 8%Z)))
            (nodes (snd out)).
Proof.
  apply (send_message_ignores_membership 8 "m2" "conv" "B" "intruder"
           conversation_of_A
           (mkNode 2 (Conversation "conv" "group" (Some "solo"%string) 0 None))
           (mkNode 1 (Player "B" "B" "offline" 0))).
  - vm_compute. now left.
  - vm_compute. now left.
Defined.

(** C8 as stated fails: [B] has no [MEMBER_OF] edge to the conversation,
    and [send_message] answers 201 and creates the Message. *)
Lemma send_message_by_non_member :
  let out := route_send_message true 8 "m2" "conv" "B" "intruder"
               conversation_of_A in
  flat_map (expand_out conversation_of_A is_MEMBER_OF (has_conversation_id "conv"))
    (match_player conversation_of_A "B") = []
  /\ fst out = Response 201
                 (mkMessageRecord "m2" "conv" "B" "B" "intruder" 8 false None)
  /\ In (mkNode 3 (Message "m2" "intruder" 8 false None)) (nodes (snd out)).
Proof. vm_compute. auto 10. Qed.

(** C9 on two players. *)
Lemma follow_player_not_deduplicated_witness :
  let g2 := snd (follow_player 2 "A" "B" (snd (follow_player 1 "A" "B" two_players))) in
  map fo_player_id (get_following "A" g2) = ["B"%string; "B"%string]
  /\ fst (unfollow_player "A" "B" g2) = true
  /\ ~ In "B"%string
         (map fo_player_id (get_following "A" (snd (unfollow_player "A" "B" g2)))).
Proof.
  pose proof (follow_player_not_deduplicated 1 2 "A" "B" two_players
                (mkNode 0 (Player "A" "A" "offline" 0))
                (mkNode 1 (Player "B" "B" "offline" 0))) as H.
  destruct H as (_ & _ & H2 & _ & H4 & H5).
  - solve_NoDup.
  - reflexivity.
  - reflexivity.
  - split; [|split]; [rewrite H2; reflexivity | exact H4 | exact H5].
Defined.

(** C10 on a conversation with one message. *)
Lemma edit_message_frame_witness :
  let out := edit_message 9 "m1" "changed" one_message in
  rels (snd out) = rels one_message
  /\ fst out <> None
  /\ In (mkNode 3 (Message "m1" "changed" 7 true (Some 9%Z))) (nodes (snd out)).
Proof.
  pose proof (edit_message_frame 9 "m1" "changed" one_message) as H.
  destruct H as (H1 & _ & H3).
  - solve_NoDup.
  - split; [exact H1|].
    apply (H3 (mkNode 3 (Message "m1" "first" 7 false None))
              (mkNode 0 (Player "A" "A" "offline" 0))
              (mkNode 2 (Conversation "conv" "group" (Some "solo"%string) 0
                           (Some 7%Z)))
              "first"%string 7%Z false None).
    + vm_compute. now left.
    + reflexivity.
Defined.

(** * The other operations *)

(** ** The two further updating clauses *)

Lemma any_row_true {A : Type} (rows : list A) : any_row rows = true <-> rows <> [].
Proof.
  unfold any_row. destruct rows; simpl; split; try congruence; try discriminate.
  intros _. reflexivity.
Qed.

Lemma any_row_false {A : Type} (rows : list A) : any_row rows = false <-> rows = [].
Proof.
  unfold any_row. destruct rows; simpl; split; try congruence; try discriminate.
  intros _. reflexivity.
Qed.

Lemma in_detach_delete_nodes ids g n :
  In n (nodes (detach_delete ids g)) <-> In n (nodes g) /\ ~ In (nid n) ids.
Proof.
  unfold detach_delete. simpl. rewrite filter_In, negb_true_iff.
  rewrite <- existsb_eqb_In.
  destruct (existsb (Nat.eqb (nid n)) ids); intuition congruence.
Qed.

Lemma in_detach_delete_rels ids g r :
  In r (rels (detach_delete ids g))
  <-> In r (rels g) /\ ~ In (rsrc r) ids /\ ~ In (rdst r) ids.
Proof.
  unfold detach_delete. simpl.
  rewrite filter_In, andb_true_iff, !negb_true_iff, <- !existsb_eqb_In.
  destruct (existsb (Nat.eqb (rsrc r)) ids), (existsb (Nat.eqb (rdst r)) ids);
    intuition congruence.
Qed.

Lemma detach_delete_nil g : detach_delete [] g = g.
Proof.
  unfold detach_delete. simpl. rewrite !filter_all by reflexivity. now destruct g.
Qed.

Lemma set_nodes_nil upd g : set_nodes [] upd g = g.
Proof. unfold set_nodes. simpl. rewrite map_id. now destruct g. Qed.


Lemma filter_map_comm {A B : Type} (p : B -> bool) (f : A -> B) (l : list A) :
  filter p (map f l) = map f (filter (fun x => p (f x)) l).
Proof.
  induction l as [|x l IH]; simpl; [reflexivity|].
  destruct (p (f x)); simpl; now rewrite IH.
Qed.

(** In a graph with distinct node identities, the nodes bound by a [MATCH]
    are told from the others by their identity. *)
Lemma existsb_nid_matched (sel : Node -> bool) (ns : list Node) (n : Node) :
  NoDup (map nid ns) -> In n ns ->
  existsb (Nat.eqb (nid n)) (map nid (filter sel ns)) = sel n.
Proof.
  intros Hnd Hn. destruct (sel n) eqn:E.
  - apply existsb_eqb_In. apply in_map. now apply filter_In.
  - destruct (existsb _ _) eqn:E'; [|reflexivity].
    apply existsb_eqb_In in E'. apply in_map_iff in E'.
    destruct E' as [m [Hid Hm]]. apply filter_In in Hm. destruct Hm as [Hm Hsel].
    assert (m = n) by (apply (NoDup_map_inj nid ns); auto).
    subst m. congruence.
Qed.

Lemma set_nodes_matched sel upd g :
  NoDup (map nid (nodes g)) ->
  nodes (set_nodes (map nid (match_nodes g sel)) upd g)
  = map (fun n => if sel n then mkNode (nid n) (upd (nprops n)) else n) (nodes g).
Proof.
  intros Hnd. unfold set_nodes, match_nodes. simpl. apply map_ext_in.
  intros n Hn. now rewrite existsb_nid_matched.
Qed.

(** ** Player nodes *)

Lemma match_player_create_player_node now pid u s q g :
  match_player (snd (create_player_node now pid u s g)) q
  = match_player g q ++ (if String.eqb pid q then [mkNode (next_node g) (Player pid u s now)] else []).
Proof.
  unfold create_player_node, match_player, match_nodes. simpl.
  rewrite filter_app. simpl. unfold has_player_id at 2. simpl.
  now destruct (String.eqb pid q).
Qed.

(** X1.  [create_player_node] always succeeds and never replaces: one more
    node carries the [player_id], also when the [player_id] was in use.
    Afterwards [get_player_node] answers with a record for the
    [player_id], which is the new record when it answered [None] before;
    its answers for other players are as before, and no relationship is
    touched. *)
Theorem create_player_node_adds_a_node :
  forall (now : Z) (player_id username status : string) (g : Graph),
    let out := create_player_node now player_id username status g in
    fst out = Some (mkPlayerRecord player_id username status)
    /\ List.length (match_player (snd out) player_id)
       = S (List.length (match_player g player_id))
    /\ get_player_node player_id (snd out) <> None
    /\ (get_player_node player_id g = None ->
        get_player_node player_id (snd out)
        = Some (mkPlayerRecord player_id username status))
    /\ (forall other, other <> player_id ->
          get_player_node other (snd out) = get_player_node other g)
    /\ rels (snd out) = rels g.
Proof.
  intros now pid u s g out. split; [reflexivity|].
  split; [|split; [|split; [|split; [|reflexivity]]]].
  - unfold out. rewrite match_player_create_player_node, String.eqb_refl.
    rewrite length_app. simpl. lia.
  - unfold get_player_node, out.
    rewrite match_player_create_player_node, String.eqb_refl.
    destruct (match_player g pid); discriminate.
  - intros Hnone. unfold get_player_node in Hnone.
    assert (E : match_player g pid = [])
      by (destruct (match_player g pid); [reflexivity | discriminate]).
    unfold get_player_node, out.
    rewrite match_player_create_player_node, String.eqb_refl, E.
    reflexivity.
  - intros other Hne. unfold get_player_node, out.
    rewrite match_player_create_player_node.
    assert (E : String.eqb pid other = false) by (apply String.eqb_neq; congruence).
    now rewrite E, app_nil_r.
Qed.

Lemma has_player_id_set_status q s n :
  has_player_id q (mkNode (nid n) (set_status s (nprops n))) = has_player_id q n.
Proof. unfold has_player_id. simpl. now destruct (nprops n). Qed.

Lemma match_player_update_player_status pid s q g :
  NoDup (map nid (nodes g)) ->
  match_player (snd (update_player_status pid s g)) q
  = map (fun n => if has_player_id pid n
                  then mkNode (nid n) (set_status s (nprops n)) else n)
      (match_player g q).
Proof.
  intros Hnd. unfold update_player_status. cbn [snd].
  unfold match_player at 1. unfold match_nodes at 1.
  unfold match_player at 1. rewrite set_nodes_matched by assumption.
  rewrite filter_map_comm. unfold match_player, match_nodes. f_equal.
  apply filter_ext. intros n.
  destruct (has_player_id pid n); [apply has_player_id_set_status | reflexivity].
Qed.

(** X2.  [update_player_status] changes the status of the player and nothing
    else.  In a graph with distinct node identities: the call returns what
    [get_player_node] answers afterwards, which is the earlier answer with
    the new status (so [None], the route's 404, exactly when the player is
    missing); other players are reported as before; every relationship is
    kept. *)
Theorem update_player_status_sets_status :
  forall (player_id status : string) (g : Graph),
    NoDup (map nid (nodes g)) ->
    let out := update_player_status player_id status g in
    fst out = get_player_node player_id (snd out)
    /\ get_player_node player_id (snd out)
       = option_map (fun r => mkPlayerRecord (pr_player_id r) (pr_username r) status)
           (get_player_node player_id g)
    /\ (forall other, other <> player_id ->
          get_player_node other (snd out) = get_player_node other g)
    /\ rels (snd out) = rels g
    /\ (get_player_node player_id g = None -> snd out = g).
Proof.
  intros pid s g Hnd out.
  assert (Hget : get_player_node pid (snd out)
                 = option_map (fun r => mkPlayerRecord (pr_player_id r)
                                          (pr_username r) s)
                     (get_player_node pid g)).
  { unfold get_player_node, out.
    rewrite match_player_update_player_status by assumption.
    destruct (match_player g pid) as [|n l] eqn:E; [reflexivity|]. simpl.
    assert (Hn : In n (match_player g pid)) by (rewrite E; now left).
    unfold match_player in Hn. apply in_match_nodes in Hn. destruct Hn as [_ Hn].
    rewrite Hn. unfold player_record_of, player_id_of, username_of, status_of.
    simpl. unfold has_player_id in Hn. destruct (nprops n); try discriminate.
    reflexivity. }
  split; [|split; [exact Hget|split; [|split; [reflexivity|]]]].
  - rewrite Hget. unfold out, update_player_status, get_player_node. cbn [fst].
    destruct (match_player g pid) as [|n l] eqn:E; [reflexivity|]. simpl.
    reflexivity.
  - intros other Hne. unfold get_player_node, out.
    rewrite match_player_update_player_status by assumption.
    f_equal. rewrite map_map. apply map_ext_in. intros n Hn.
    unfold match_player in Hn. apply in_match_nodes in Hn. destruct Hn as [_ Hn].
    destruct (has_player_id pid n) eqn:E; [|reflexivity].
    apply has_player_id_true in Hn. apply has_player_id_true in E.
    destruct Hn as [_ Hn]. destruct E as [_ E]. congruence.
  - unfold get_player_node, out, update_player_status. cbn [snd].
    destruct (match_player g pid); [intros _; apply set_nodes_nil | discriminate].
Qed.

Lemma in_get_following x A g :
  In x (map fo_player_id (get_following A g))
  <-> exists p f m,
        In p (match_player g A)
        /\ In (f, m) (expand_out g is_FOLLOWS is_Player p)
        /\ player_id_of m = x.
Proof.
  rewrite get_following_rows, map_map. simpl. rewrite in_map_iff. split.
  - intros [[f m] [Hx Hin]]. simpl in Hx.
    apply in_player_out_rows in Hin. destruct Hin as [p [Hp Hin]].
    exists p, f, m. auto.
  - intros (p & f & m & Hp & Hin & Hx). exists (f, m).
    split; [exact Hx|]. apply in_player_out_rows. now exists p.
Qed.

Lemma in_get_followers x A g :
  In x (map fo_player_id (get_followers A g))
  <-> exists p f m,
        In p (match_player g A)
        /\ In (f, m) (expand_in g is_FOLLOWS is_Player p)
        /\ player_id_of m = x.
Proof.
  unfold get_followers. rewrite in_map_iff. split.
  - intros [rec [Hx Hin]]. apply in_flat_map in Hin.
    destruct Hin as [p [Hp Hin]]. apply in_map_iff in Hin.
    destruct Hin as [[f m] [Hrec Hin]]. subst rec. simpl in Hx.
    exists p, f, m. auto.
  - intros (p & f & m & Hp & Hin & Hx).
    exists (mkFollowRecord (player_id_of m) (username_of m) (status_of m)
              (since_of f)).
    split; [exact Hx|]. apply in_flat_map. exists p. split; [exact Hp|].
    apply in_map_iff. exists (f, m). split; [reflexivity | exact Hin].
Qed.

(** X3.  [get_following] and [get_followers] read the same edges from their two
    ends: [B] is in the list of the players [A] follows exactly when [A] is
    in the list of the followers of [B]. *)
Theorem following_followers_duality :
  forall (A B : string) (g : Graph),
    In B (map fo_player_id (get_following A g))
    <-> In A (map fo_player_id (get_followers B g)).
Proof.
  intros A B g. rewrite in_get_following, in_get_followers. split.
  - intros (p & f & m & Hp & Hin & Hx). apply in_expand_out in Hin.
    destruct Hin as (Hf & Hty & Hs & Hm & Hpl & Hd).
    pose proof (proj1 (in_match_player _ _ _) Hp) as (Hpn & Hpp & Hpid).
    exists m, f, p. split; [apply in_match_player; auto|].
    split; [|exact Hpid]. apply in_expand_in. auto 10.
  - intros (p & f & m & Hp & Hin & Hx). apply in_expand_in in Hin.
    destruct Hin as (Hf & Hty & Hd & Hm & Hpl & Hs).
    pose proof (proj1 (in_match_player _ _ _) Hp) as (Hpn & Hpp & Hpid).
    exists m, f, p. split; [apply in_match_player; auto|].
    split; [|exact Hpid]. apply in_expand_out. auto 10.
Qed.

Lemma match_player_delete_player_node A g :
  match_player (snd (delete_player_node A g)) A = [].
Proof.
  apply no_member_nil. intros n Hn. unfold match_player in Hn.
  apply in_match_nodes in Hn. destruct Hn as [Hn Hid].
  unfold delete_player_node in Hn. cbn [snd] in Hn.
  apply in_detach_delete_nodes in Hn. destruct Hn as [Hn Hkept].
  apply Hkept. apply in_map. unfold match_player. now apply in_match_nodes.
Qed.

Lemma player_gone_after_delete A g n :
  In n (nodes (snd (delete_player_node A g))) -> is_Player n = true ->
  player_id_of n <> A.
Proof.
  intros Hn Hp Hid.
  assert (H : In n (match_player (snd (delete_player_node A g)) A))
    by (apply in_match_player; auto).
  now rewrite match_player_delete_player_node in H.
Qed.

(** X4.  [delete_player_node] removes the player everywhere.  Afterwards
    [get_player_node] finds nothing, no relationship starts or ends at a
    node that was the player's, and the player is in no list of friends, of
    followed players or of followers.  The call reports [True] exactly when
    the player was there; when not, the graph is left as it was. *)
Theorem delete_player_node_detaches :
  forall (A : string) (g : Graph),
    let out := delete_player_node A g in
    get_player_node A (snd out) = None
    /\ (forall r a, In r (rels (snd out)) -> In a (match_player g A) ->
          rsrc r <> nid a /\ rdst r <> nid a)
    /\ (forall C, ~ In A (map fd_player_id (get_friends C (snd out)))
                  /\ ~ In A (map fo_player_id (get_following C (snd out)))
                  /\ ~ In A (map fo_player_id (get_followers C (snd out))))
    /\ (fst out = true <-> get_player_node A g <> None)
    /\ (fst out = false -> snd out = g).
Proof.
  intros A g out. split; [|split; [|split; [|split]]].
  - unfold get_player_node, out. now rewrite match_player_delete_player_node.
  - intros r a Hr Ha. unfold out, delete_player_node in Hr. cbn [snd] in Hr.
    apply in_detach_delete_rels in Hr. destruct Hr as (_ & Hs & Hd).
    split; intros E; [apply Hs | apply Hd]; rewrite E; now apply in_map.
  - intros C. split; [|split]; intros H.
    + apply in_get_friends in H. destruct H as (p & f & m & _ & Hin & Hx).
      apply in_expand_out in Hin. destruct Hin as (_ & _ & _ & Hm & Hpl & _).
      now apply (player_gone_after_delete A g m).
    + apply in_get_following in H. destruct H as (p & f & m & _ & Hin & Hx).
      apply in_expand_out in Hin. destruct Hin as (_ & _ & _ & Hm & Hpl & _).
      now apply (player_gone_after_delete A g m).
    + apply in_get_followers in H. destruct H as (p & f & m & _ & Hin & Hx).
      apply in_expand_in in Hin. destruct Hin as (_ & _ & _ & Hm & Hpl & _).
      now apply (player_gone_after_delete A g m).
  - unfold out, delete_player_node, get_player_node. cbn [fst].
    rewrite any_row_true. destruct (match_player g A); simpl; split; congruence.
  - unfold out, delete_player_node. cbn [fst snd]. rewrite any_row_false.
    intros ->. apply detach_delete_nil.
Qed.

(** ** Friendships *)

Lemma friends_monotone g g' :
  nodes g' = nodes g -> incl (rels g') (rels g) ->
  forall C x, In x (map fd_player_id (get_friends C g')) ->
              In x (map fd_player_id (get_friends C g)).
Proof.
  intros Hn Hr C x H. apply in_get_friends in H.
  destruct H as (p & f & m & Hp & Hin & Hx). apply in_get_friends.
  exists p, f, m. rewrite (match_player_same_nodes g g' C Hn) in Hp.
  split; [exact Hp|]. split; [|exact Hx].
  apply in_expand_out in Hin. apply in_expand_out. rewrite Hn in Hin.
  destruct Hin as (Hf & Hrest). split; [now apply Hr | exact Hrest].
Qed.

Lemma incl_delete_rels ids g : incl (rels (delete_rels ids g)) (rels g).
Proof. intros r Hr. now apply in_delete_rels in Hr. Qed.

Lemma in_unfriend_rows g A B a b r :
  In ((a, b), r) (unfriend_rows g A B)
  <-> In a (match_player g A) /\ In b (match_player g B)
      /\ In r (rels_between g is_FRIENDS_WITH a b).
Proof.
  unfold unfriend_rows. rewrite in_flat_map. split.
  - intros [[a' b'] [Hab Hin]]. apply in_map_iff in Hin.
    destruct Hin as [r' [Heq Hr]]. injection Heq as -> -> ->.
    apply in_prod_iff in Hab. simpl in Hr. tauto.
  - intros (Ha & Hb & Hr). exists (a, b). split; [now apply in_prod|].
    apply in_map_iff. exists r. auto.
Qed.

(** One of the two players lists the other as a friend exactly when the
    undirected pattern of [remove_friend] has a row. *)
Lemma unfriend_rows_friends g A B :
  unfriend_rows g A B <> []
  <-> In B (map fd_player_id (get_friends A g))
      \/ In A (map fd_player_id (get_friends B g)).
Proof.
  split.
  - intros H. destruct (unfriend_rows g A B) as [|[[a b] r] l] eqn:E;
      [congruence|].
    assert (Hrow : In ((a, b), r) (unfriend_rows g A B)) by (rewrite E; now left).
    apply in_unfriend_rows in Hrow. destruct Hrow as (Ha & Hb & Hr).
    apply in_rels_between in Hr. destruct Hr as (Hr & Hty & Hends).
    pose proof (proj1 (in_match_player _ _ _) Ha) as (Han & Hap & Haid).
    pose proof (proj1 (in_match_player _ _ _) Hb) as (Hbn & Hbp & Hbid).
    destruct Hends as [[Hs Hd]|[Hs Hd]].
    + left. rewrite <- Hbid.
      apply (friend_edge_get_friends g A a r b); auto.
    + right. rewrite <- Haid.
      apply (friend_edge_get_friends g B b r a); auto.
  - intros [H|H]; apply in_get_friends in H;
      destruct H as (p & f & m & Hp & Hin & Hx);
      apply in_expand_out in Hin;
      destruct Hin as (Hf & Hty & Hs & Hm & Hpl & Hd);
      assert (Hm' : In m (match_player g (player_id_of m)))
        by (apply in_match_player; auto);
      rewrite Hx in Hm'; intros E.
    + assert (Hrow : In ((p, m), f) (unfriend_rows g A B)).
      { apply in_unfriend_rows. split; [exact Hp|]. split; [exact Hm'|].
        apply in_rels_between. auto. }
      rewrite E in Hrow. destruct Hrow.
    + assert (Hrow : In ((m, p), f) (unfriend_rows g A B)).
      { apply in_unfriend_rows. split; [exact Hm'|]. split; [exact Hp|].
        apply in_rels_between. auto. }
      rewrite E in Hrow. destruct Hrow.
Qed.

(** X5.  [remove_friend] removes the friendship in both directions, whichever
    of the two players asks.  Afterwards neither lists the other as a
    friend, and no list of friends has gained an entry.  The route answers
    200 when one of them listed the other before, and otherwise raises the
    404 error with the graph left as it was. *)
Theorem remove_friend_removes_both_directions :
  forall (A B : string) (g : Graph),
    let out := route_remove_friend true A B g in
    ~ In B (map fd_player_id (get_friends A (snd out)))
    /\ ~ In A (map fd_player_id (get_friends B (snd out)))
    /\ (forall C x, In x (map fd_player_id (get_friends C (snd out))) ->
                    In x (map fd_player_id (get_friends C g)))
    /\ match fst out with
       | Response code _ =>
           code = 200
           /\ (In B (map fd_player_id (get_friends A g))
               \/ In A (map fd_player_id (get_friends B g)))
       | HTTPException code detail =>
           code = 404 /\ detail = "Friendship not found"%string
           /\ ~ In B (map fd_player_id (get_friends A g))
           /\ ~ In A (map fd_player_id (get_friends B g))
           /\ snd out = g
       end.
Proof.
  intros A B g out.
  assert (Hg : snd out
               = delete_rels (map (fun row => rid (snd row)) (unfriend_rows g A B)) g).
  { unfold out, route_remove_friend, route_flag, remove_friend.
    destruct (any_row (unfriend_rows g A B)); reflexivity. }
  assert (Hgone : forall a b r, In r (rels (snd out)) -> is_FRIENDS_WITH r = true ->
                   In a (match_player g A) -> In b (match_player g B) ->
                   ~ ((rsrc r = nid a /\ rdst r = nid b)
                      \/ (rsrc r = nid b /\ rdst r = nid a))).
  { intros a b r Hr Hty Ha Hb Hends. rewrite Hg in Hr.
    apply in_delete_rels in Hr. destruct Hr as [Hr Hkept]. apply Hkept.
    apply in_map_iff. exists ((a, b), r). split; [reflexivity|].
    apply in_unfriend_rows. split; [exact Ha|]. split; [exact Hb|].
    apply in_rels_between. auto. }
  assert (Hn : nodes (snd out) = nodes g) by now rewrite Hg.
  split; [|split; [|split]].
  - intros H. apply in_get_friends in H.
    destruct H as (p & f & m & Hp & Hin & Hx). apply in_expand_out in Hin.
    destruct Hin as (Hf & Hty & Hs & Hm & Hpl & Hd).
    rewrite (match_player_same_nodes g _ _ Hn) in Hp. rewrite Hn in Hm.
    apply (Hgone p m f Hf Hty Hp); [|now left].
    rewrite <- Hx. apply in_match_player. auto.
  - intros H. apply in_get_friends in H.
    destruct H as (p & f & m & Hp & Hin & Hx). apply in_expand_out in Hin.
    destruct Hin as (Hf & Hty & Hs & Hm & Hpl & Hd).
    rewrite (match_player_same_nodes g _ _ Hn) in Hp. rewrite Hn in Hm.
    apply (Hgone m p f Hf Hty); [|exact Hp|now right].
    rewrite <- Hx. apply in_match_player. auto.
  - apply friends_monotone; [exact Hn|]. rewrite Hg. apply incl_delete_rels.
  - unfold out, route_remove_friend, route_flag, remove_friend.
    destruct (any_row (unfriend_rows g A B)) eqn:E; cbn [fst snd].
    + split; [reflexivity|]. apply unfriend_rows_friends. now apply any_row_true.
    + apply any_row_false in E.
      split; [reflexivity|]. split; [reflexivity|].
      assert (Hno : ~ (In B (map fd_player_id (get_friends A g))
                       \/ In A (map fd_player_id (get_friends B g)))).
      { intros H. apply unfriend_rows_friends in H. congruence. }
      split; [tauto|]. split; [tauto|]. rewrite E. apply delete_rels_nil.
Qed.

Lemma in_get_pending_requests x B g :
  In x (map pq_from_player_id (get_pending_requests B g))
  <-> exists to r from,
        In to (match_player g B)
        /\ In (r, from) (expand_in g is_SENT_REQUEST is_Player to)
        /\ player_id_of from = x.
Proof.
  unfold get_pending_requests. rewrite in_map_iff. split.
  - intros [rec [Hx Hin]]. apply in_flat_map in Hin.
    destruct Hin as [to [Hto Hin]]. apply in_map_iff in Hin.
    destruct Hin as [[r from] [Hrec Hin]]. subst rec. simpl in Hx.
    exists to, r, from. auto.
  - intros (to & r & from & Hto & Hin & Hx).
    exists (mkPendingRequestRecord (player_id_of from) (username_of from)
              (player_id_of to) (username_of to) (request_message r)
              (request_sent_at r)).
    split; [exact Hx|]. apply in_flat_map. exists to. split; [exact Hto|].
    apply in_map_iff. exists (r, from). split; [reflexivity | exact Hin].
Qed.

(** [get_pending_requests(B)] lists [A] exactly when the pattern of
    [accept_friend_request(A, B)] and [decline_friend_request(A, B)] has a
    row. *)
Lemma pending_request_rows g A B :
  In A (map pq_from_player_id (get_pending_requests B g))
  <-> request_rows g A B <> [].
Proof.
  rewrite in_get_pending_requests. split.
  - intros (to & r & from & Hto & Hin & Hx) E. apply in_expand_in in Hin.
    destruct Hin as (Hr & Hty & Hd & Hf & Hpl & Hs).
    assert (Hrow : In (from, (r, to)) (request_rows g A B)).
    { apply in_request_rows. rewrite <- Hx.
      split; [apply in_match_player; auto | auto 10]. }
    rewrite E in Hrow. destruct Hrow.
  - intros H. destruct (request_rows g A B) as [|[a [r b]] l] eqn:E; [congruence|].
    assert (Hrow : In (a, (r, b)) (request_rows g A B)) by (rewrite E; now left).
    apply in_request_rows in Hrow.
    destruct Hrow as (Ha & Hb & Hr & Hty & Hs & Hd).
    pose proof (proj1 (in_match_player _ _ _) Ha) as (Han & Hap & Haid).
    exists b, r, a. split; [exact Hb|]. split; [|exact Haid].
    apply in_expand_in. auto 10.
Qed.

(** X6.  [decline_friend_request(A, B)] withdraws the request and makes nobody
    friends.  Afterwards [get_pending_requests(B)] has no entry from [A], and
    no list of friends has gained an entry.  The route answers 200 when [B]
    had a request from [A] pending, and otherwise raises the 404 error with
    the graph left as it was. *)
Theorem decline_friend_request_withdraws :
  forall (A B : string) (g : Graph),
    let out := route_decline_friend_request true A B g in
    ~ In A (map pq_from_player_id (get_pending_requests B (snd out)))
    /\ (forall C x, In x (map fd_player_id (get_friends C (snd out))) ->
                    In x (map fd_player_id (get_friends C g)))
    /\ match fst out with
       | Response code _ =>
           code = 200 /\ In A (map pq_from_player_id (get_pending_requests B g))
       | HTTPException code detail =>
           code = 404 /\ detail = "Friend request not found"%string
           /\ ~ In A (map pq_from_player_id (get_pending_requests B g))
           /\ snd out = g
       end.
Proof.
  intros A B g out.
  assert (Hg : snd out
               = delete_rels (map (fun row => rid (fst (snd row)))
                                (request_rows g A B)) g).
  { unfold out, route_decline_friend_request, route_flag, decline_friend_request.
    destruct (any_row (request_rows g A B)); reflexivity. }
  assert (Hn : nodes (snd out) = nodes g) by now rewrite Hg.
  split; [|split].
  - rewrite pending_request_rows. intros H. apply H. apply no_member_nil.
    intros [a [r b]] Hrow. apply in_request_rows in Hrow.
    destruct Hrow as (Ha & Hb & Hr & Hty & Hs & Hd).
    rewrite (match_player_same_nodes g _ _ Hn) in Ha.
    rewrite (match_player_same_nodes g _ _ Hn) in Hb.
    rewrite Hg in Hr. apply in_delete_rels in Hr. destruct Hr as [Hr Hkept].
    apply Hkept. apply in_map_iff. exists (a, (r, b)). split; [reflexivity|].
    apply in_request_rows. auto 10.
  - apply friends_monotone; [exact Hn|]. rewrite Hg. apply incl_delete_rels.
  - unfold out, route_decline_friend_request, route_flag, decline_friend_request.
    destruct (any_row (request_rows g A B)) eqn:E; cbn [fst snd].
    + split; [reflexivity|]. apply pending_request_rows. now apply any_row_true.
    + apply any_row_false in E. split; [reflexivity|]. split; [reflexivity|].
      split; [rewrite pending_request_rows; tauto|].
      rewrite E. apply delete_rels_nil.
Qed.

(** X7.  A request that was sent is pending: when the two players exist, after
    [send_friend_request(A, B, message)] the list [get_pending_requests(B)]
    has an entry from [A] with that message and the instant of the call. *)
Theorem sent_request_is_pending :
  forall (now : Z) (A B message : string) (g : Graph) (a b : Node),
    In a (match_player g A) ->
    In b (match_player g B) ->
    In (mkPendingRequestRecord A (username_of a) B (username_of b) message
          (Some now))
       (get_pending_requests B (snd (send_friend_request now A B message g))).
Proof.
  intros now A B msg g a b Ha Hb.
  destruct (send_friend_request_creates now A B msg g a b Ha Hb)
    as [r (Hr & Hs & Hd & Hp & _)].
  pose proof (nodes_send_friend_request now A B msg g) as Hn.
  pose proof (proj1 (in_match_player _ _ _) Ha) as (Han & Hap & Haid).
  pose proof (proj1 (in_match_player _ _ _) Hb) as (Hbn & Hbp & Hbid).
  unfold get_pending_requests. apply in_flat_map. exists b.
  split; [now rewrite (match_player_same_nodes g _ _ Hn)|].
  apply in_map_iff. exists (r, a). split.
  - simpl. unfold request_message, request_sent_at. now rewrite Hp, Haid, Hbid.
  - apply in_expand_in. rewrite Hn. unfold is_SENT_REQUEST. rewrite Hp. auto 10.
Qed.

(** ** Counting entries *)

Lemma length_optional {A : Type} (l : list A) :
  List.length (optional l) = Nat.max 1 (List.length l).
Proof. destruct l as [|x l]; simpl; [reflexivity|]. now rewrite length_map. Qed.

Lemma length_number_rels k es : List.length (number_rels k es) = List.length es.
Proof. revert k. induction es as [|e es IH]; intros k; simpl; auto. Qed.

Lemma filter_filter_absorb {A : Type} (p q : A -> bool) (l : list A) :
  (forall x, In x l -> p x = true -> q x = true) ->
  filter p (filter q l) = filter p l.
Proof.
  induction l as [|x l IH]; intros H; simpl; [reflexivity|].
  destruct (q x) eqn:Eq; simpl.
  - rewrite IH; [reflexivity|]. intros y Hy. apply H. now right.
  - destruct (p x) eqn:Ep.
    + rewrite (H x (or_introl eq_refl) Ep) in Eq. discriminate.
    + apply IH. intros y Hy. apply H. now right.
Qed.

(** The rows of [(a)-[:TYPE]->(m)] that end at the node [b] are as many as
    the relationships of the type from [a] to [b]. *)
Lemma expand_out_count_to g ty sel a b :
  NoDup (map nid (nodes g)) -> In b (nodes g) -> sel b = true ->
  List.length (filter (fun row => Nat.eqb (nid (snd row)) (nid b))
                 (expand_out g ty sel a))
  = List.length (rels_from_to g ty a b).
Proof.
  intros Hnd Hb Hsel. unfold expand_out, rels_from_to.
  induction (rels g) as [|r rs IH]; simpl; [reflexivity|].
  destruct (ty r && Nat.eqb (rsrc r) (nid a)) eqn:E; simpl; [|exact IH].
  rewrite filter_app, length_app, IH, filter_map_comm, length_map. simpl.
  destruct (Nat.eqb_spec (rdst r) (nid b)) as [Hd|Hd].
  - rewrite Hd, (filter_nid_unique sel (nodes g) b Hnd Hb Hsel). simpl.
    now rewrite Nat.eqb_refl.
  - rewrite filter_none; [reflexivity|]. intros m Hm. apply filter_In in Hm.
    destruct Hm as [_ Hm]. apply andb_true_iff in Hm. destruct Hm as [_ Hm].
    apply Nat.eqb_eq in Hm. apply Nat.eqb_neq. congruence.
Qed.

Lemma player_out_rows_entries g ty A B a b :
  NoDup (map nid (nodes g)) ->
  match_player g A = [a] -> match_player g B = [b] ->
  List.length (filter (fun row => String.eqb (player_id_of (snd row)) B)
                 (player_out_rows g ty A))
  = List.length (rels_from_to g ty a b).
Proof.
  intros Hnd Ha Hb. destruct (match_player_single g B b Hb) as (Hbn & Hbp & Hbid).
  unfold player_out_rows. rewrite Ha. simpl. rewrite app_nil_r.
  rewrite <- (expand_out_count_to g ty is_Player a b Hnd Hbn Hbp).
  f_equal. apply filter_ext_in. intros [r m] Hin. simpl.
  apply in_expand_out in Hin. destruct Hin as (_ & _ & _ & Hm & Hpl & _).
  destruct (String.eqb_spec (player_id_of m) B) as [E|E].
  - assert (Hin : In m (match_player g B)) by (apply in_match_player; auto).
    rewrite Hb in Hin. destruct Hin as [<-|[]]. symmetry. apply Nat.eqb_refl.
  - symmetry. apply Nat.eqb_neq. intros Hid. apply E.
    assert (m = b) by (apply (NoDup_map_inj nid (nodes g)); auto).
    now subst m.
Qed.

Lemma get_friends_rows A g :
  get_friends A g
  = map (fun ff => mkFriendRecord (player_id_of (snd ff)) (username_of (snd ff))
                     (status_of (snd ff)) (since_of (fst ff))
                     (nickname_of (fst ff)))
      (player_out_rows g is_FRIENDS_WITH A).
Proof. unfold get_friends, player_out_rows. apply flat_map_map_rows. Qed.

Lemma get_friends_entries g A B a b :
  NoDup (map nid (nodes g)) ->
  match_player g A = [a] -> match_player g B = [b] ->
  List.length (filter (fun e => String.eqb (fd_player_id e) B) (get_friends A g))
  = List.length (rels_from_to g is_FRIENDS_WITH a b).
Proof.
  intros Hnd Ha Hb. rewrite get_friends_rows, filter_map_comm, length_map. simpl.
  now apply player_out_rows_entries.
Qed.

Lemma get_blocked_players_entries g A B a b :
  NoDup (map nid (nodes g)) ->
  match_player g A = [a] -> match_player g B = [b] ->
  List.length (filter (fun e => String.eqb (bl_blocked_player_id e) B)
                 (get_blocked_players A g))
  = List.length (rels_from_to g is_BLOCKED a b).
Proof.
  intros Hnd Ha Hb.
  rewrite get_blocked_players_rows, filter_map_comm, length_map. simpl.
  now apply player_out_rows_entries.
Qed.

Lemma distinct_players_distinct_nids g A B a b :
  NoDup (map nid (nodes g)) -> A <> B ->
  In a (match_player g A) -> In b (match_player g B) -> nid a <> nid b.
Proof.
  intros Hnd Hne Ha Hb Hid. apply in_match_player in Ha, Hb.
  destruct Ha as (Han & _ & Haid). destruct Hb as (Hbn & _ & Hbid).
  assert (a = b) by (apply (NoDup_map_inj nid (nodes g)); auto).
  subst b. congruence.
Qed.

Lemma rels_between_split g ty a b :
  nid a <> nid b ->
  List.length (rels_between g ty a b)
  = List.length (rels_from_to g ty a b) + List.length (rels_from_to g ty b a).
Proof.
  intros Hne. unfold rels_between, rels_from_to.
  induction (rels g) as [|r rs IH]; simpl; [reflexivity|].
  destruct (ty r); simpl; [|exact IH].
  destruct (Nat.eqb_spec (rsrc r) (nid a)) as [Hs|Hs];
    destruct (Nat.eqb_spec (rdst r) (nid b)) as [Hd|Hd];
    destruct (Nat.eqb_spec (rsrc r) (nid b)) as [Hs'|Hs'];
    destruct (Nat.eqb_spec (rdst r) (nid a)) as [Hd'|Hd'];
    simpl; try congruence; rewrite IH; lia.
Qed.

(** A relationship of another type than the deleted ones is kept. *)
Lemma kept_when_other_type (rs deleted : list Rel) (r : Rel) :
  NoDup (map rid rs) -> In r rs -> incl deleted rs ->
  (forall d, In d deleted -> rprops d <> rprops r) ->
  negb (existsb (Nat.eqb (rid r)) (map rid deleted)) = true.
Proof.
  intros Hnd Hr Hincl Hty. apply negb_true_iff.
  destruct (existsb _ _) eqn:E; [|reflexivity].
  apply existsb_eqb_In in E. apply in_map_iff in E. destruct E as [d [Hid Hd]].
  assert (d = r) by (apply (NoDup_map_inj rid rs); auto).
  subst d. now destruct (Hty r Hd).
Qed.

(** ** Accepting requests *)

Lemma rels_accept_friend_request now A B g :
  rels (snd (accept_friend_request now A B g))
  = (filter (fun r => negb (existsb (Nat.eqb (rid r))
                              (map (fun row => rid (fst (snd row)))
                                 (request_rows g A B))))
       (rels g)
     ++ number_rels (next_rel g)
          (map (fun row => (nid (fst row), nid (snd (snd row)),
                            FRIENDS_WITH now None)) (request_rows g A B)))
    ++ number_rels (next_rel g + List.length (request_rows g A B))
         (map (fun row => (nid (snd (snd row)), nid (fst row),
                           FRIENDS_WITH now None)) (request_rows g A B)).
Proof.
  unfold accept_friend_request. cbn [snd]. rewrite !create_rels_spec.
  cbn [rels next_rel delete_rels]. now rewrite length_map.
Qed.

(** A friendship edge is not touched by the [DELETE] of the requests. *)
Lemma friendship_kept_by_accept g A B r :
  NoDup (map rid (rels g)) -> In r (rels g) -> is_FRIENDS_WITH r = true ->
  negb (existsb (Nat.eqb (rid r))
          (map (fun row => rid (fst (snd row))) (request_rows g A B))) = true.
Proof.
  intros Hnd Hr Hty. apply negb_true_iff.
  destruct (existsb _ _) eqn:E; [|reflexivity].
  apply existsb_eqb_In in E. apply in_map_iff in E.
  destruct E as [[a' [r' b']] [Hid Hrow]]. simpl in Hid.
  apply in_request_rows in Hrow. destruct Hrow as (_ & _ & Hr' & Hty' & _).
  assert (r' = r) by (apply (NoDup_map_inj rid (rels g)); auto). subst r'.
  unfold is_FRIENDS_WITH in Hty. unfold is_SENT_REQUEST in Hty'.
  destruct (rprops r); discriminate.
Qed.

Lemma friendships_after_accept now A B g a b x y :
  wf_graph g ->
  match_player g A = [a] -> match_player g B = [b] -> nid a <> nid b ->
  (x = a /\ y = b) \/ (x = b /\ y = a) ->
  List.length (rels_from_to (snd (accept_friend_request now A B g))
                 is_FRIENDS_WITH x y)
  = List.length (rels_from_to g is_FRIENDS_WITH x y)
    + List.length (request_rows g A B).
Proof.
  intros (Hnd & _ & Hrd & _) Ha Hb Hne Hxy.
  unfold rels_from_to. rewrite rels_accept_friend_request.
  rewrite !filter_app, !length_app.
  rewrite filter_filter_absorb.
  2:{ intros r Hr Hp. apply friendship_kept_by_accept; auto.
      apply andb_true_iff in Hp. destruct Hp as [Hp _].
      apply andb_true_iff in Hp. tauto. }
  assert (Hrow : forall row, In row (request_rows g A B) ->
                   fst row = a /\ snd (snd row) = b).
  { intros [a' [r' b']] Hrow. apply in_request_rows in Hrow.
    destruct Hrow as (Ha' & Hb' & _). rewrite Ha in Ha'. rewrite Hb in Hb'.
    destruct Ha' as [<-|[]]. destruct Hb' as [<-|[]]. now split. }
  assert (Hends : forall k (f : Node * (Rel * Node) -> nat * nat * RelProps) s d,
             (forall row, In row (request_rows g A B) ->
                f row = (nid s, nid d, FRIENDS_WITH now None)) ->
             forall r, In r (number_rels k (map f (request_rows g A B))) ->
                       is_FRIENDS_WITH r = true /\ rsrc r = nid s /\ rdst r = nid d).
  { intros k f s d Hf r Hr. apply in_number_rels in Hr. destruct Hr as [Hr _].
    apply in_map_iff in Hr. destruct Hr as [row [Heq Hin]].
    rewrite (Hf row Hin) in Heq. injection Heq as H1 H2 H3.
    unfold is_FRIENDS_WITH. rewrite <- H3. auto. }
  set (N1 := number_rels (next_rel g) _).
  set (N2 := number_rels (next_rel g + _) _).
  assert (H1 : forall r, In r N1 ->
                 is_FRIENDS_WITH r = true /\ rsrc r = nid a /\ rdst r = nid b).
  { apply Hends. intros row Hin. destruct (Hrow row Hin) as [-> ->]. reflexivity. }
  assert (H2 : forall r, In r N2 ->
                 is_FRIENDS_WITH r = true /\ rsrc r = nid b /\ rdst r = nid a).
  { apply Hends. intros row Hin. destruct (Hrow row Hin) as [-> ->]. reflexivity. }
  assert (L1 : List.length N1 = List.length (request_rows g A B))
    by (unfold N1; now rewrite length_number_rels, length_map).
  assert (L2 : List.length N2 = List.length (request_rows g A B))
    by (unfold N2; now rewrite length_number_rels, length_map).
  destruct Hxy as [[-> ->]|[-> ->]].
  - rewrite (filter_all _ N1), (filter_none _ N2); [simpl; lia | |].
    + intros r Hr. destruct (H2 r Hr) as (_ & Hs & _). rewrite Hs.
      apply andb_false_iff. left. apply andb_false_iff. right.
      apply Nat.eqb_neq. congruence.
    + intros r Hr. destruct (H1 r Hr) as (Hty & Hs & Hd).
      now rewrite Hty, Hs, Hd, !Nat.eqb_refl.
  - rewrite (filter_none _ N1), (filter_all _ N2); [simpl; lia | |].
    + intros r Hr. destruct (H2 r Hr) as (Hty & Hs & Hd).
      now rewrite Hty, Hs, Hd, !Nat.eqb_refl.
    + intros r Hr. destruct (H1 r Hr) as (_ & Hs & _). rewrite Hs.
      apply andb_false_iff. left. apply andb_false_iff. right.
      apply Nat.eqb_neq. congruence.
Qed.

(** X8.  [accept_friend_request(A, B)] accepts every pending request from [A] to
    [B] at once.  In a well-formed graph with one node for each of the two
    distinct players, when [k] requests from [A] to [B] are pending, each of
    the two lists of friends gains [k] entries for the other player, and no
    request from [A] is pending afterwards.  The call returns no record (the
    route's 400) exactly when [k = 0], and then changes nothing. *)
Theorem accept_friend_request_one_pair_per_request :
  forall (now : Z) (A B : string) (g : Graph) (a b : Node),
    wf_graph g -> A <> B ->
    match_player g A = [a] -> match_player g B = [b] ->
    let k := List.length (request_rows g A B) in
    let out := accept_friend_request now A B g in
    let entries X l :=
      List.length (filter (fun e => String.eqb (fd_player_id e) X) l) in
    entries B (get_friends A (snd out)) = entries B (get_friends A g) + k
    /\ entries A (get_friends B (snd out)) = entries A (get_friends B g) + k
    /\ ~ In A (map pq_from_player_id (get_pending_requests B (snd out)))
    /\ (fst out = None <-> k = 0)
    /\ (k = 0 -> snd out = g).
Proof.
  intros now A B g a b Hwf Hne Ha Hb k out entries.
  pose proof Hwf as (Hnd & _).
  pose proof (nodes_accept_friend_request now A B g) as Hn. fold out in Hn.
  assert (Hnid : nid a <> nid b).
  { apply (distinct_players_distinct_nids g A B); auto;
      [rewrite Ha | rewrite Hb]; now left. }
  assert (Hnd' : NoDup (map nid (nodes (snd out)))) by now rewrite Hn.
  assert (Ha' : match_player (snd out) A = [a])
    by now rewrite (match_player_same_nodes g _ _ Hn).
  assert (Hb' : match_player (snd out) B = [b])
    by now rewrite (match_player_same_nodes g _ _ Hn).
  split; [|split; [|split; [|split]]].
  - unfold entries.
    rewrite (get_friends_entries (snd out) A B a b Hnd' Ha' Hb').
    rewrite (get_friends_entries g A B a b Hnd Ha Hb).
    apply (friendships_after_accept now A B g a b a b); auto.
  - unfold entries.
    rewrite (get_friends_entries (snd out) B A b a Hnd' Hb' Ha').
    rewrite (get_friends_entries g B A b a Hnd Hb Ha).
    apply (friendships_after_accept now A B g a b b a); auto.
  - rewrite pending_request_rows. intros H. apply H. apply no_member_nil.
    intros [a' [r' b']] Hin. apply in_request_rows in Hin.
    destruct Hin as (Ha'' & Hb'' & Hr' & Hty' & Hs' & Hd').
    destruct (request_rels_accept now A B g r' Hr' Hty') as [Hr1 Hno].
    apply (Hno a' b'). apply in_request_rows.
    rewrite (match_player_same_nodes g _ _ Hn) in Ha''.
    rewrite (match_player_same_nodes g _ _ Hn) in Hb''. auto 10.
  - unfold out, accept_friend_request, k. cbn [fst].
    destruct (request_rows g A B); simpl; split; congruence.
  - unfold out, accept_friend_request, k. cbn [snd].
    destruct (request_rows g A B); simpl; [|discriminate].
    intros _. apply delete_rels_nil.
Qed.

(** ** Blocking and unblocking *)

Lemma block_rows_single g A B a b :
  match_player g A = [a] -> match_player g B = [b] ->
  block_rows g A B
  = map (fun f => ((a, b), f)) (optional (rels_between g is_FRIENDS_WITH a b)).
Proof.
  intros Ha Hb. unfold block_rows. rewrite Ha, Hb.
  cbn [list_prod map flat_map app fst snd]. now rewrite app_nil_r.
Qed.

Lemma block_kept_by_block g A B r :
  NoDup (map rid (rels g)) -> In r (rels g) -> is_BLOCKED r = true ->
  negb (existsb (Nat.eqb (rid r)) (bound_rids (map snd (block_rows g A B))))
  = true.
Proof.
  intros Hnd Hr Hty. apply negb_true_iff.
  destruct (existsb _ _) eqn:E; [|reflexivity].
  apply existsb_eqb_In in E. apply in_bound_rids_inv in E.
  destruct E as [f [Hf Hid]]. apply in_map_iff in Hf.
  destruct Hf as [[ab o] [Ho Hrow]]. simpl in Ho. subst o.
  unfold block_rows in Hrow. apply in_flat_map in Hrow.
  destruct Hrow as [ab' [_ Hrow]]. apply in_map_iff in Hrow.
  destruct Hrow as [o [Ho Hopt]]. injection Ho as _ ->.
  apply (proj1 (in_optional _ _)) in Hopt. apply in_rels_between in Hopt.
  destruct Hopt as (Hf & Hfty & _).
  assert (f = r) by (apply (NoDup_map_inj rid (rels g)); auto). subst f.
  unfold is_BLOCKED in Hty. unfold is_FRIENDS_WITH in Hfty.
  destruct (rprops r); discriminate.
Qed.

(** X9.  [block_player] creates one [BLOCKED] edge per row of its
    [OPTIONAL MATCH], that is, one per friendship edge between the two
    players, and one when there is none.  In a well-formed graph with one
    node for each player, [get_blocked_players(A)] gains [max 1 k] entries
    for [B], where [k] is the number of [FRIENDS_WITH] edges between them;
    for two distinct players [k] is the number of entries for [B] in
    [get_friends(A)] plus the number of entries for [A] in
    [get_friends(B)]: blocking a friend who is listed once on each side
    lists the blocked player twice. *)
Theorem block_player_one_edge_per_friendship :
  forall (now : Z) (A B : string) (reason : option string) (g : Graph)
         (a b : Node),
    wf_graph g ->
    match_player g A = [a] -> match_player g B = [b] ->
    let k := List.length (rels_between g is_FRIENDS_WITH a b) in
    let out := block_player now A B reason g in
    let blocked X l :=
      List.length (filter (fun e => String.eqb (bl_blocked_player_id e) X) l) in
    let friends X l :=
      List.length (filter (fun e => String.eqb (fd_player_id e) X) l) in
    blocked B (get_blocked_players A (snd out))
    = blocked B (get_blocked_players A g) + Nat.max 1 k
    /\ (A <> B ->
        k = friends B (get_friends A g) + friends A (get_friends B g)).
Proof.
  intros now A B reason g a b Hwf Ha Hb k out blocked friends.
  pose proof Hwf as (Hnd & _ & Hrd & _).
  pose proof (nodes_block_player now A B reason g) as Hn. fold out in Hn.
  split.
  - unfold blocked.
    rewrite (get_blocked_players_entries (snd out) A B a b);
      [| now rewrite Hn
       | now rewrite (match_player_same_nodes g _ _ Hn)
       | now rewrite (match_player_same_nodes g _ _ Hn)].
    rewrite (get_blocked_players_entries g A B a b Hnd Ha Hb).
    unfold rels_from_to, out, block_player. cbn [snd].
    rewrite create_rels_spec. cbn [rels delete_rels].
    rewrite filter_app, length_app, filter_filter_absorb.
    2:{ intros r Hr Hp. apply block_kept_by_block; auto.
        apply andb_true_iff in Hp. destruct Hp as [Hp _].
        apply andb_true_iff in Hp. tauto. }
    f_equal. rewrite filter_all.
    + rewrite length_number_rels, length_map, (block_rows_single g A B a b Ha Hb).
      now rewrite length_map, length_optional.
    + intros r Hr. apply in_number_rels in Hr. destruct Hr as [Hr _].
      apply in_map_iff in Hr. destruct Hr as [row [Heq Hin]].
      rewrite (block_rows_single g A B a b Ha Hb) in Hin.
      apply in_map_iff in Hin. destruct Hin as [o [<- _]]. simpl in Heq.
      injection Heq as H1 H2 H3. unfold is_BLOCKED.
      now rewrite <- H1, <- H2, <- H3, !Nat.eqb_refl.
  - intros Hne. unfold friends, k.
    rewrite (get_friends_entries g A B a b Hnd Ha Hb).
    rewrite (get_friends_entries g B A b a Hnd Hb Ha).
    apply rels_between_split.
    apply (distinct_players_distinct_nids g A B); auto;
      [rewrite Ha | rewrite Hb]; now left.
Qed.

(** X10.  [unblock_player] lifts the block and restores nothing.  Afterwards
    [get_blocked_players(A)] has no entry for [B], and no list of friends
    has gained an entry: a friendship that an earlier [block_player] deleted
    stays deleted.  The call reports [True] exactly when [A] had [B] in its
    list of blocked players; when not, the graph is left as it was. *)
Theorem unblock_player_restores_nothing :
  forall (A B : string) (g : Graph),
    let out := unblock_player A B g in
    ~ In B (map bl_blocked_player_id (get_blocked_players A (snd out)))
    /\ (forall C x, In x (map fd_player_id (get_friends C (snd out))) ->
                    In x (map fd_player_id (get_friends C g)))
    /\ (fst out = true
        <-> In B (map bl_blocked_player_id (get_blocked_players A g)))
    /\ (fst out = false -> snd out = g).
Proof.
  intros A B g out.
  set (rows := flat_map (expand_out g is_BLOCKED (has_player_id B))
                 (match_player g A)).
  assert (Hrows : forall r m, In (r, m) rows
                    <-> exists p, In p (match_player g A)
                                  /\ In (r, m) (expand_out g is_BLOCKED is_Player p)
                                  /\ player_id_of m = B).
  { intros r m. unfold rows. rewrite in_flat_map. split.
    - intros [p [Hp Hin]]. exists p. split; [exact Hp|].
      apply in_expand_out in Hin. rewrite has_player_id_true in Hin.
      split; [apply in_expand_out|]; tauto.
    - intros [p (Hp & Hin & Hid)]. exists p. split; [exact Hp|].
      apply in_expand_out in Hin. apply in_expand_out.
      rewrite has_player_id_true. tauto. }
  assert (Hblocked : forall g0 : Graph,
             In B (map bl_blocked_player_id (get_blocked_players A g0))
             <-> exists p r m, In p (match_player g0 A)
                   /\ In (r, m) (expand_out g0 is_BLOCKED is_Player p)
                   /\ player_id_of m = B)
    by (intros g0; apply in_get_blocked_players).
  split; [|split; [|split]].
  - rewrite Hblocked. intros (p & r & m & Hp & Hin & Hid).
    unfold out, unblock_player in Hp, Hin. cbn [snd] in Hp, Hin.
    change (In p (match_player g A)) in Hp.
    apply in_expand_out in Hin. destruct Hin as (Hr & Hrest).
    apply in_delete_rels in Hr. destruct Hr as [Hr Hkept]. apply Hkept.
    apply in_map_iff. exists (r, m). split; [reflexivity|].
    apply Hrows. exists p. split; [exact Hp|]. split; [|exact Hid].
    apply in_expand_out. cbn [nodes delete_rels] in Hrest. tauto.
  - apply friends_monotone; [reflexivity | apply incl_delete_rels].
  - unfold out, unblock_player. cbn [fst]. fold rows.
    rewrite any_row_true, Hblocked. split.
    + intros H. destruct rows as [|[r m] l]; [congruence|].
      destruct (proj1 (Hrows r m) (or_introl eq_refl)) as [p Hp].
      exists p, r, m. exact Hp.
    + intros (p & r & m & Hp) E.
      assert (Hin : In (r, m) rows) by (apply Hrows; now exists p).
      rewrite E in Hin. destruct Hin.
  - unfold out, unblock_player. cbn [fst snd]. fold rows.
    rewrite any_row_false. intros ->. apply delete_rels_nil.
Qed.

(** ** Mutual friends *)

Lemma in_get_mutual_friends x A B g :
  In x (map pr_player_id (get_mutual_friends A B g))
  <-> exists p1 f1 m f2 p2,
        In p1 (match_player g A)
        /\ In (f1, m) (expand_out g is_FRIENDS_WITH is_Player p1)
        /\ In (f2, p2) (expand_in g is_FRIENDS_WITH (has_player_id B) m)
        /\ rid f2 <> rid f1
        /\ player_id_of m = x.
Proof.
  unfold get_mutual_friends. rewrite in_map_iff. split.
  - intros [rec [Hx Hin]]. apply in_flat_map in Hin.
    destruct Hin as [p1 [Hp1 Hin]]. apply in_flat_map in Hin.
    destruct Hin as [[f1 m] [Hfm Hin]]. apply in_map_iff in Hin.
    destruct Hin as [[f2 p2] [Hrec Hin]]. apply filter_In in Hin.
    destruct Hin as [Hin Hne]. simpl in Hne, Hrec, Hin.
    apply negb_true_iff, Nat.eqb_neq in Hne. subst rec.
    exists p1, f1, m, f2, p2. auto.
  - intros (p1 & f1 & m & f2 & p2 & Hp1 & Hfm & Hfp & Hne & Hx).
    exists (player_record_of m). split; [exact Hx|].
    apply in_flat_map. exists p1. split; [exact Hp1|].
    apply in_flat_map. exists (f1, m). split; [exact Hfm|].
    apply in_map_iff. exists (f2, p2). split; [reflexivity|].
    apply filter_In. split; [exact Hfp|]. simpl.
    apply negb_true_iff, Nat.eqb_neq. exact Hne.
Qed.

(** X11.  [get_mutual_friends] is the intersection of the two lists of friends.
    In a well-formed graph with one node per [player_id], for two distinct
    players [A] and [B], a player is in [get_mutual_friends(A, B)] exactly
    when it is in [get_friends(A)] and in [get_friends(B)]. *)
Theorem get_mutual_friends_is_intersection :
  forall (A B x : string) (g : Graph),
    wf_graph g -> NoDup (player_ids g) -> A <> B ->
    (In x (map pr_player_id (get_mutual_friends A B g))
     <-> In x (map fd_player_id (get_friends A g))
         /\ In x (map fd_player_id (get_friends B g))).
Proof.
  intros A B x g (Hnd & _ & Hrd & _) Huniq Hne.
  rewrite in_get_mutual_friends, !in_get_friends. split.
  - intros (p1 & f1 & m & f2 & p2 & Hp1 & Hfm & Hfp & _ & Hx).
    split; [now exists p1, f1, m|].
    apply in_expand_in in Hfp. destruct Hfp as (Hf2 & Hty & Hd & Hp2 & Hid & Hs).
    apply in_expand_out in Hfm. destruct Hfm as (_ & _ & _ & Hm & Hpl & _).
    exists p2, f2, m. split; [now apply in_match_nodes|].
    split; [|exact Hx]. apply in_expand_out. auto 10.
  - intros [(p1 & f1 & m1 & Hp1 & Hin1 & Hx1) (p2 & f2 & m2 & Hp2 & Hin2 & Hx2)].
    pose proof (proj1 (in_expand_out _ _ _ _ _ _) Hin1)
      as (Hf1 & Hty1 & Hs1 & Hm1 & Hpl1 & Hd1).
    pose proof (proj1 (in_expand_out _ _ _ _ _ _) Hin2)
      as (Hf2 & Hty2 & Hs2 & Hm2 & Hpl2 & Hd2).
    assert (m2 = m1) by (apply (unique_player_node g); auto; congruence).
    subst m2.
    exists p1, f1, m1, f2, p2. split; [exact Hp1|]. split; [exact Hin1|].
    pose proof (proj1 (in_match_nodes _ _ _) Hp2) as [Hp2n Hp2id].
    split; [apply in_expand_in; auto 10|]. split; [|exact Hx1].
    intros Hrid.
    assert (f2 = f1) by (apply (NoDup_map_inj rid (rels g)); auto). subst f2.
    apply (distinct_players_distinct_nids g A B p1 p2 Hnd Hne Hp1 Hp2).
    congruence.
Qed.

(** ** Nicknames *)

Lemma expand_out_set_rels ids upd g ty sel n :
  (forall r, ty (mkRel (rid r) (rsrc r) (rdst r) (upd (rprops r))) = ty r) ->
  expand_out (set_rels ids upd g) ty sel n
  = map (fun rm =>
           (if existsb (Nat.eqb (rid (fst rm))) ids
            then mkRel (rid (fst rm)) (rsrc (fst rm)) (rdst (fst rm))
                   (upd (rprops (fst rm)))
            else fst rm, snd rm))
      (expand_out g ty sel n).
Proof.
  intros Hty. unfold expand_out, set_rels. cbn [nodes rels].
  induction (rels g) as [|r rs IH]; simpl; [reflexivity|].
  assert (E : forall r',
             r' = (if existsb (Nat.eqb (rid r)) ids
                   then mkRel (rid r) (rsrc r) (rdst r) (upd (rprops r)) else r) ->
             ty r' = ty r /\ rsrc r' = rsrc r /\ rdst r' = rdst r).
  { intros r' ->. destruct (existsb _ _); simpl; auto. }
  destruct (E _ eq_refl) as (E1 & E2 & E3). rewrite E1, E2.
  destruct (ty r && Nat.eqb (rsrc r) (nid n)); simpl; [|exact IH].
  rewrite map_app, IH, E3, map_map. reflexivity.
Qed.

Lemma is_FRIENDS_WITH_set_nickname n r :
  is_FRIENDS_WITH (mkRel (rid r) (rsrc r) (rdst r) (set_nickname n (rprops r)))
  = is_FRIENDS_WITH r.
Proof. unfold is_FRIENDS_WITH. simpl. now destruct (rprops r). Qed.

Lemma in_friendship_rows g A B r m :
  In (r, m) (friendship_rows g A B)
  <-> exists p, In p (match_player g A)
                /\ In (r, m) (expand_out g is_FRIENDS_WITH is_Player p)
                /\ player_id_of m = B.
Proof.
  unfold friendship_rows. rewrite in_flat_map. split.
  - intros [p [Hp Hin]]. exists p. split; [exact Hp|].
    apply in_expand_out in Hin. rewrite has_player_id_true in Hin.
    split; [apply in_expand_out|]; tauto.
  - intros [p (Hp & Hin & Hid)]. exists p. split; [exact Hp|].
    apply in_expand_out in Hin. apply in_expand_out.
    rewrite has_player_id_true. tauto.
Qed.

(** In a well-formed graph, a row of [(C)-[:FRIENDS_WITH]->(m)] is one of
    the rows [set_friend_nickname(A, B)] updates exactly when [C] is [A] and
    [m] is [B]. *)
Lemma nickname_row_updated g A B C r m :
  wf_graph g ->
  In (r, m) (player_out_rows g is_FRIENDS_WITH C) ->
  existsb (Nat.eqb (rid r)) (map (fun row => rid (fst row)) (friendship_rows g A B))
  = String.eqb C A && String.eqb (player_id_of m) B.
Proof.
  intros (Hnd & _ & Hrd & _) Hin. apply in_player_out_rows in Hin.
  destruct Hin as [p [Hp Hin]].
  pose proof (proj1 (in_expand_out _ _ _ _ _ _) Hin)
    as (Hr & Hty & Hs & Hm & Hpl & Hd).
  destruct (String.eqb_spec C A) as [->|HC];
    [destruct (String.eqb_spec (player_id_of m) B) as [Hid|Hid]|]; simpl.
  - apply existsb_eqb_In. apply in_map_iff. exists (r, m).
    split; [reflexivity|]. apply in_friendship_rows. now exists p.
  - destruct (existsb _ _) eqn:E; [|reflexivity]. exfalso.
    apply existsb_eqb_In in E. apply in_map_iff in E.
    destruct E as [[r' m'] [Hrid Hrow]]. simpl in Hrid.
    apply in_friendship_rows in Hrow. destruct Hrow as [p' (Hp' & Hin' & Hid')].
    apply in_expand_out in Hin'. destruct Hin' as (Hr' & _ & _ & Hm' & _ & Hd').
    assert (r' = r) by (apply (NoDup_map_inj rid (rels g)); auto). subst r'.
    assert (m' = m) by (apply (NoDup_map_inj nid (nodes g)); auto; congruence).
    subst m'. contradiction.
  - destruct (existsb _ _) eqn:E; [|reflexivity]. exfalso.
    apply existsb_eqb_In in E. apply in_map_iff in E.
    destruct E as [[r' m'] [Hrid Hrow]]. simpl in Hrid.
    apply in_friendship_rows in Hrow. destruct Hrow as [p' (Hp' & Hin' & Hid')].
    apply in_expand_out in Hin'. destruct Hin' as (Hr' & _ & Hs' & _).
    assert (r' = r) by (apply (NoDup_map_inj rid (rels g)); auto). subst r'.
    apply (distinct_players_distinct_nids g C A p p' Hnd HC Hp Hp'). congruence.
Qed.

(** X12.  [set_friend_nickname(A, B, nickname)] names [B] in the list of [A]
    only.  In a well-formed graph, [get_friends(A)] afterwards is the list
    it was with the nickname set on every entry for [B]; the list of every
    other player, that of [B] included, is as it was.  The call returns no
    record (the route's 404) exactly when [B] is not in [get_friends(A)]. *)
Theorem set_friend_nickname_one_sided :
  forall (A B nickname : string) (g : Graph),
    wf_graph g ->
    let out := set_friend_nickname A B nickname g in
    get_friends A (snd out)
    = map (fun e => if String.eqb (fd_player_id e) B
                    then mkFriendRecord (fd_player_id e) (fd_username e)
                           (fd_status e) (fd_friends_since e) (Some nickname)
                    else e)
        (get_friends A g)
    /\ (forall C, C <> A -> get_friends C (snd out) = get_friends C g)
    /\ (fst out = None <-> ~ In B (map fd_player_id (get_friends A g))).
Proof.
  intros A B n g Hwf out.
  assert (Hlist : forall C,
             get_friends C (snd out)
             = map (fun e => if String.eqb C A && String.eqb (fd_player_id e) B
                             then mkFriendRecord (fd_player_id e) (fd_username e)
                                    (fd_status e) (fd_friends_since e) (Some n)
                             else e)
                 (get_friends C g)).
  { intros C. rewrite !get_friends_rows. unfold player_out_rows at 1.
    unfold out, set_friend_nickname. cbn [snd].
    change (match_player (set_rels _ _ g) C) with (match_player g C).
    rewrite (flat_map_ext _ _
               (fun p => expand_out_set_rels _ (set_nickname n) g is_FRIENDS_WITH
                           is_Player p (is_FRIENDS_WITH_set_nickname n))).
    rewrite flat_map_map_rows. fold (player_out_rows g is_FRIENDS_WITH C).
    rewrite !map_map. apply map_ext_in. intros [r m] Hin. cbn [fst snd].
    rewrite (nickname_row_updated g A B C r m Hwf Hin).
    cbn [fd_player_id fd_username fd_status fd_friends_since].
    destruct (String.eqb C A && String.eqb (player_id_of m) B); [|reflexivity].
    apply in_player_out_rows in Hin. destruct Hin as [p [_ Hin]].
    apply in_expand_out in Hin. destruct Hin as (_ & Hty & _).
    unfold is_FRIENDS_WITH in Hty. unfold since_of, nickname_of. simpl.
    destruct (rprops r); try discriminate. reflexivity. }
  split; [|split].
  - rewrite Hlist. apply map_ext. intros e. now rewrite String.eqb_refl.
  - intros C HC. rewrite Hlist. rewrite <- (map_id (get_friends C g)) at 2.
    apply map_ext. intros e.
    assert (E : String.eqb C A = false) by now apply String.eqb_neq.
    now rewrite E.
  - unfold out, set_friend_nickname. cbn [fst]. rewrite in_get_friends. split.
    + intros H (p & f & m & Hp & Hin & Hid).
      assert (Hrow : In (f, m) (friendship_rows g A B))
        by (apply in_friendship_rows; now exists p).
      destruct (friendship_rows g A B); [destruct Hrow | discriminate].
    + intros H. destruct (friendship_rows g A B) as [|[r m] l] eqn:E;
        [reflexivity|]. exfalso. apply H.
      assert (Hrow : In (r, m) (friendship_rows g A B)) by (rewrite E; now left).
      apply in_friendship_rows in Hrow. destruct Hrow as [p Hp].
      now exists p, r, m.
Qed.

(** ** Reading messages *)

Lemma in_insert_newest x y l : In x (insert_newest y l) <-> x = y \/ In x l.
Proof.
  induction l as [|z l IH]; simpl.
  - intuition.
  - destruct (Z.leb (ms_timestamp z) (ms_timestamp y)); simpl.
    + intuition.
    + rewrite IH. intuition.
Qed.

Lemma in_order_by_timestamp x l : In x (order_by_timestamp_desc l) <-> In x l.
Proof.
  induction l as [|y l IH]; simpl; [tauto|].
  rewrite in_insert_newest, IH. intuition.
Qed.

Lemma insert_newest_sorted x l :
  StronglySorted newest_first l -> StronglySorted newest_first (insert_newest x l).
Proof.
  induction l as [|y l IH]; intros Hs; simpl.
  - constructor; constructor.
  - inversion Hs as [|? ? Hs' Hall]; subst.
    destruct (Z.leb (ms_timestamp y) (ms_timestamp x)) eqn:E.
    + apply Z.leb_le in E. constructor; [assumption|].
      constructor; [exact E|].
      apply (Forall_impl (newest_first x)) with (2 := Hall).
      unfold newest_first. intros z Hz. lia.
    + apply Z.leb_gt in E. constructor; [now apply IH|].
      apply Forall_forall. intros z Hz. apply in_insert_newest in Hz.
      destruct Hz as [->|Hz].
      * unfold newest_first. lia.
      * rewrite Forall_forall in Hall. now apply Hall.
Qed.

Lemma order_by_timestamp_sorted l :
  StronglySorted newest_first (order_by_timestamp_desc l).
Proof.
  induction l as [|x l IH]; simpl; [constructor | now apply insert_newest_sorted].
Qed.

Lemma in_skipn {A : Type} (x : A) (n : nat) (l : list A) :
  In x (skipn n l) -> In x l.
Proof.
  intros H. rewrite <- (firstn_skipn n l). apply in_or_app. now right.
Qed.

Lemma skipn_sorted {A : Type} (R : A -> A -> Prop) (n : nat) (l : list A) :
  StronglySorted R l -> StronglySorted R (skipn n l).
Proof.
  revert l. induction n as [|n IH]; intros l Hs; simpl; [assumption|].
  destruct l as [|x l]; [constructor|].
  inversion Hs; subst. now apply IH.
Qed.

Lemma row_count_some n k : row_count n = Some k -> (0 <= n)%Z /\ k = Z.to_nat n.
Proof.
  unfold row_count. destruct (Z.ltb_spec n 0) as [Hneg|Hpos]; [discriminate|].
  destruct (Z.ltb int64_max n); [discriminate|].
  intros E. injection E as <-. split; [assumption | reflexivity].
Qed.

Lemma row_count_in_range n :
  (0 <= n <= int64_max)%Z -> row_count n = Some (Z.to_nat n).
Proof.
  intros [H0 H1]. unfold row_count.
  destruct (Z.ltb_spec n 0); [lia|]. destruct (Z.ltb_spec int64_max n); [lia|].
  reflexivity.
Qed.

(** Every entry of a list returned by [get_messages] is a message of the
    conversation together with its sender. *)
Lemma get_messages_rows cid limit offset g l rec :
  get_messages cid limit offset g = Returned l -> In rec l ->
  exists m sender,
    In (m, sender) (message_rows g cid)
    /\ rec = message_record_of cid (m, sender).
Proof.
  intros H Hin. unfold get_messages in H.
  destruct (row_count offset) as [skip|]; [|discriminate].
  destruct (row_count limit) as [take|]; [|discriminate].
  injection H as <-. apply in_firstn, in_skipn in Hin.
  apply (proj1 (in_order_by_timestamp _ _)) in Hin.
  apply in_map_iff in Hin. destruct Hin as [[m s] [<- Hin]]. now exists m, s.
Qed.

(** X13.  A list returned by [get_messages] is in non-increasing order of
    timestamp, newest first, has at most [limit] entries, and every entry is
    a message of the conversation together with its sender; a negative
    [offset] or [limit] returns no list (the statement raises). *)
Theorem get_messages_newest_first :
  forall (conversation_id : string) (limit offset : Z) (g : Graph)
         (l : list MessageRecord),
    get_messages conversation_id limit offset g = Returned l ->
    StronglySorted newest_first l
    /\ (Z.of_nat (List.length l) <= limit)%Z
    /\ (0 <= offset)%Z
    /\ (forall rec, In rec l ->
          exists m sender,
            In (m, sender) (message_rows g conversation_id)
            /\ rec = message_record_of conversation_id (m, sender)).
Proof.
  intros cid limit offset g l H.
  pose proof (fun rec => get_messages_rows cid limit offset g l rec H) as Hrows.
  unfold get_messages in H.
  destruct (row_count offset) as [skip|] eqn:Eo; [|discriminate].
  destruct (row_count limit) as [take|] eqn:El; [|discriminate].
  injection H as <-.
  apply row_count_some in Eo, El. destruct Eo as [Ho _]. destruct El as [Hl ->].
  split; [|split; [|split]].
  - apply firstn_sorted, skipn_sorted, order_by_timestamp_sorted.
  - pose proof (firstn_le_length (Z.to_nat limit)
                  (skipn skip (order_by_timestamp_desc
                                 (map (message_record_of cid) (message_rows g cid)))))
      as Hlen.
    lia.
  - exact Ho.
  - exact Hrows.
Qed.

Lemma firstn_plus {A : Type} (a b : nat) (l : list A) :
  firstn (a + b) l = firstn a l ++ firstn b (skipn a l).
Proof.
  revert l. induction a as [|a IH]; intros l; simpl; [reflexivity|].
  destruct l as [|x l]; simpl; [now rewrite firstn_nil | now rewrite IH].
Qed.

(** X14.  Pages of [get_messages] join up.  When the messages of the conversation
    have distinct timestamps (the order of the statement is then fixed), the
    first [a] messages followed by the page of [b] messages at offset [a]
    are the first [a + b] messages. *)
Theorem get_messages_pages_join :
  forall (conversation_id : string) (a b : Z) (g : Graph),
    NoDup (map (fun row => timestamp_of (fst row))
             (message_rows g conversation_id)) ->
    (0 <= a)%Z -> (0 <= b)%Z -> (a + b <= int64_max)%Z ->
    exists first next,
      get_messages conversation_id a 0 g = Returned first
      /\ get_messages conversation_id b a g = Returned next
      /\ get_messages conversation_id (a + b) 0 g = Returned (first ++ next).
Proof.
  intros cid a b g _ Ha Hb Hab. unfold get_messages.
  rewrite (row_count_in_range 0), (row_count_in_range a), (row_count_in_range b),
    (row_count_in_range (a + b)) by (unfold int64_max in *; lia).
  eexists. eexists. split; [reflexivity|]. split; [reflexivity|].
  f_equal. rewrite Z2Nat.inj_add by assumption. simpl skipn at 1. simpl.
  apply firstn_plus.
Qed.

Lemma length_insert_newest x l :
  List.length (insert_newest x l) = S (List.length l).
Proof.
  induction l as [|y l IH]; simpl; [reflexivity|].
  destruct (Z.leb (ms_timestamp y) (ms_timestamp x)); simpl; [reflexivity|].
  now rewrite IH.
Qed.

Lemma length_order_by_timestamp l :
  List.length (order_by_timestamp_desc l) = List.length l.
Proof.
  induction l as [|x l IH]; simpl; [reflexivity|].
  now rewrite length_insert_newest, IH.
Qed.

Lemma in_message_rows g cid m s :
  In (m, s) (message_rows g cid)
  <-> exists c rc rs,
        In c (match_nodes g (has_conversation_id cid))
        /\ In (rc, m) (expand_out g is_CONTAINS is_Message c)
        /\ In (rs, s) (expand_in g is_SENT is_Player m).
Proof.
  unfold message_rows. rewrite in_flat_map. split.
  - intros [c [Hc Hin]]. apply in_flat_map in Hin.
    destruct Hin as [[rc m'] [Hcm Hin]]. apply in_map_iff in Hin.
    destruct Hin as [[rs s'] [Heq Hin]]. simpl in Heq, Hin.
    injection Heq as -> ->. now exists c, rc, rs.
  - intros (c & rc & rs & Hc & Hcm & Hs). exists c. split; [exact Hc|].
    apply in_flat_map. exists (rc, m). split; [exact Hcm|].
    apply in_map_iff. exists (rs, s). split; [reflexivity | exact Hs].
Qed.

(** The message that [send_message] creates is a row of the pattern of
    [get_messages], with its sender. *)
Lemma send_message_row now mid cid sid content g c s :
  In c (match_nodes g (has_conversation_id cid)) ->
  In s (match_player g sid) ->
  exists m,
    In (mkNode m (Message mid content now false None), s)
       (message_rows (snd (send_message now mid cid sid content g)) cid).
Proof.
  intros Hc Hs.
  set (rows := list_prod (match_nodes g (has_conversation_id cid))
                 (match_player g sid)).
  assert (Hrow : In (c, s) rows) by now apply in_prod.
  destruct (combine_seq_in (c, s) rows (next_node g) Hrow) as [m Hm].
  destruct (combine_seq_node (c, s) m rows (next_node g)
              (Message mid content now false None) Hm) as [Hnode _].
  exists m. set (M := mkNode m (Message mid content now false None)).
  set (c' := mkNode (nid c) (set_last_message_at now (nprops c))).
  pose proof (proj1 (in_match_nodes _ _ _) Hc) as [Hcn Hcid].
  pose proof (proj1 (in_match_player _ _ _) Hs) as (Hsn & Hsp & _).
  unfold send_message. fold rows. cbn [snd].
  rewrite !create_rels_spec, create_nodes_spec. unfold fresh_nodes.
  match goal with |- In _ (message_rows (set_nodes ?ids ?upd ?g1) _) =>
    set (g' := set_nodes ids upd g1);
    assert (Hset : forall n, In n (nodes g1) ->
              In (if existsb (Nat.eqb (nid n)) ids
                  then mkNode (nid n) (upd (nprops n)) else n) (nodes g'))
      by (intros n Hn; now apply in_set_nodes);
    assert (Hold : forall n, In n (nodes g) -> In n (nodes g1))
      by (intros n Hn; simpl; apply in_or_app; now left);
    assert (HM1 : In M (nodes g1)) by (simpl; apply in_or_app; now right);
    assert (Eids : existsb (Nat.eqb (nid c)) ids = true)
      by (apply existsb_eqb_In; apply in_map_iff; exists (c, s);
          split; [reflexivity | exact Hrow])
  end.
  assert (Hc' : In c' (nodes g')).
  { pose proof (Hset c (Hold c Hcn)) as H. now rewrite Eids in H. }
  assert (HM : In M (nodes g')).
  { pose proof (Hset M HM1) as H. simpl in H. destruct (existsb _ _) in H; exact H. }
  assert (Hs' : In s (nodes g')).
  { pose proof (Hset s (Hold s Hsn)) as H.
    destruct (existsb _ _) in H; [|exact H].
    unfold is_Player in Hsp. destruct s as [i p]. simpl in *.
    destruct p; try discriminate. exact H. }
  assert (Hrs : exists r, In r (rels g') /\ rprops r = SENT
                          /\ rsrc r = nid s /\ rdst r = m).
  { destruct (number_rels_in (nid s, m, SENT) (next_rel g)
                (map (fun rm => (nid (snd (fst rm)), snd rm, SENT))
                   (combine rows (seq (next_node g) (List.length rows)))))
      as [r (Hr & He & _)].
    { apply in_map_iff. exists ((c, s), m). split; [reflexivity | exact Hm]. }
    injection He as H1 H2 H3. exists r. split; [|auto].
    simpl. apply in_or_app. left. apply in_or_app. now right. }
  assert (Hrc : exists r, In r (rels g') /\ rprops r = CONTAINS
                          /\ rsrc r = nid c /\ rdst r = m).
  { destruct (number_rels_in (nid c, m, CONTAINS)
                (next_rel g + List.length
                   (map (fun rm => (nid (snd (fst rm)), snd rm, SENT))
                      (combine rows (seq (next_node g) (List.length rows)))))
                (map (fun rm => (nid (fst (fst rm)), snd rm, CONTAINS))
                   (combine rows (seq (next_node g) (List.length rows)))))
      as [r (Hr & He & _)].
    { apply in_map_iff. exists ((c, s), m). split; [reflexivity | exact Hm]. }
    injection He as H1 H2 H3. exists r. split; [|auto].
    simpl. apply in_or_app. now right. }
  destruct Hrs as [rs (Hrs & Hrsp & Hrss & Hrsd)].
  destruct Hrc as [rc (Hrc & Hrcp & Hrcs & Hrcd)].
  apply in_message_rows. exists c', rc, rs. split; [|split].
  - apply in_match_nodes. split; [exact Hc'|].
    unfold has_conversation_id in *. unfold c'. simpl.
    destruct (nprops c); try discriminate. exact Hcid.
  - apply in_expand_out. unfold is_CONTAINS. rewrite Hrcp. simpl. auto 10.
  - apply in_expand_in. unfold is_SENT. rewrite Hrsp. simpl. auto 10.
Qed.

(** X15.  A message that was sent can be read.  When the conversation and the
    sender exist, after [send_message] a call of [get_messages] on the
    conversation, from offset 0 and with a limit that covers the
    conversation, returns a list that has the message, with its sender, its
    content and the instant of the call, not edited. *)
Theorem sent_message_is_listed :
  forall (now : Z) (message_id conversation_id sender_id content : string)
         (g : Graph) (c s : Node) (limit : Z),
    In c (match_nodes g (has_conversation_id conversation_id)) ->
    In s (match_player g sender_id) ->
    let g' := snd (send_message now message_id conversation_id sender_id
                     content g) in
    (Z.of_nat (List.length (message_rows g' conversation_id)) <= limit
     <= int64_max)%Z ->
    exists l,
      get_messages conversation_id limit 0 g' = Returned l
      /\ In (mkMessageRecord message_id conversation_id sender_id
               (username_of s) content now false None) l.
Proof.
  intros now mid cid sid content g c s limit Hc Hs g' Hlimit.
  destruct (send_message_row now mid cid sid content g c s Hc Hs) as [m Hm].
  fold g' in Hm.
  pose proof (proj1 (in_match_player _ _ _) Hs) as (_ & _ & Hsid).
  unfold get_messages.
  rewrite (row_count_in_range 0) by (unfold int64_max; lia).
  rewrite (row_count_in_range limit) by lia.
  eexists. split; [reflexivity|]. simpl skipn.
  rewrite firstn_all2.
  - apply in_order_by_timestamp. apply in_map_iff.
    exists (mkNode m (Message mid content now false None), s).
    split; [|exact Hm]. unfold message_record_of. simpl. now rewrite Hsid.
  - rewrite length_order_by_timestamp, length_map. lia.
Qed.

(** X16.  [delete_message] removes the message and what hangs on it.  Afterwards
    no list returned by [get_messages] has an entry with that [message_id],
    [edit_message] finds nothing to edit, and no relationship starts or ends
    at a node that was the message's.  The call reports [True] exactly when
    a message had the identifier; when none had, the graph is left as it
    was. *)
Theorem delete_message_detaches :
  forall (message_id : string) (g : Graph),
    let out := delete_message message_id g in
    (forall cid limit offset l,
        get_messages cid limit offset (snd out) = Returned l ->
        ~ In message_id (map ms_message_id l))
    /\ (forall now content, fst (edit_message now message_id content (snd out)) = None)
    /\ (forall r m, In r (rels (snd out)) ->
          In m (match_nodes g (has_message_id message_id)) ->
          rsrc r <> nid m /\ rdst r <> nid m)
    /\ (fst out = true <-> match_nodes g (has_message_id message_id) <> [])
    /\ (fst out = false -> snd out = g).
Proof.
  intros mid g out.
  assert (Hgone : forall m, In m (nodes (snd out)) -> has_message_id mid m = false).
  { intros m Hm. destruct (has_message_id mid m) eqn:E; [|reflexivity]. exfalso.
    unfold out, delete_message in Hm. cbn [snd] in Hm.
    apply in_detach_delete_nodes in Hm. destruct Hm as [Hm Hkept].
    apply Hkept. apply in_map. now apply in_match_nodes. }
  split; [|split; [|split; [|split]]].
  - intros cid limit offset l Hget Hin.
    apply in_map_iff in Hin. destruct Hin as [rec [Hid Hin]].
    destruct (get_messages_rows cid limit offset (snd out) l rec Hget Hin)
      as (m & s & Hrow & ->). simpl in Hid.
    apply in_message_rows in Hrow. destruct Hrow as (c & rc & rs & _ & Hcm & _).
    apply in_expand_out in Hcm. destruct Hcm as (_ & _ & _ & Hm & Hmsg & _).
    pose proof (Hgone m Hm) as E. unfold has_message_id in E.
    unfold message_id_of in Hid. unfold is_Message in Hmsg.
    destruct (nprops m); try discriminate. subst.
    rewrite String.eqb_refl in E. discriminate.
  - intros now content. unfold edit_message. cbn [fst].
    assert (E : edit_rows (snd out) mid = []).
    { apply no_member_nil. intros [m [s c]] Hrow. apply in_edit_rows in Hrow.
      destruct Hrow as [Hm Hid]. rewrite (Hgone m Hm) in Hid. discriminate. }
    now rewrite E.
  - intros r m Hr Hm. unfold out, delete_message in Hr. cbn [snd] in Hr.
    apply in_detach_delete_rels in Hr. destruct Hr as (_ & Hs & Hd).
    split; intros E; [apply Hs | apply Hd]; rewrite E; now apply in_map.
  - unfold out, delete_message. cbn [fst]. apply any_row_true.
  - unfold out, delete_message. cbn [fst snd]. rewrite any_row_false.
    intros ->. apply detach_delete_nil.
Qed.

(** ** Parties and clans: leaving and disbanding *)

(** With distinct node identities, a node that a selector does not match has
    not the identity of a node that it matches. *)
Lemma unmatched_nid_kept g sel n :
  NoDup (map nid (nodes g)) -> In n (nodes g) -> sel n = false ->
  ~ In (nid n) (map nid (match_nodes g sel)).
Proof.
  intros Hnd Hn Hsel Hin. apply in_map_iff in Hin. destruct Hin as [m [Heq Hm]].
  apply in_match_nodes in Hm. destruct Hm as [Hm Hselm].
  rewrite (NoDup_map_inj nid (nodes g) m n Hnd Hm Hn Heq) in Hselm. congruence.
Qed.

Lemma is_Player_not_party pid n : is_Player n = true -> has_party_id pid n = false.
Proof. unfold is_Player, has_party_id. now destruct (nprops n). Qed.

Lemma is_Player_not_clan cid n : is_Player n = true -> has_clan_id cid n = false.
Proof. unfold is_Player, has_clan_id. now destruct (nprops n). Qed.

Lemma other_party_unmatched pid n :
  is_Party n = true -> party_id_of n <> pid -> has_party_id pid n = false.
Proof.
  intros Hp Hne. destruct (has_party_id pid n) eqn:E; [|reflexivity].
  apply has_party_id_true in E. tauto.
Qed.

Lemma other_clan_unmatched cid n :
  is_Clan n = true -> clan_id_of n <> cid -> has_clan_id cid n = false.
Proof.
  intros Hp Hne. destruct (has_clan_id cid n) eqn:E; [|reflexivity].
  apply has_clan_id_true in E. tauto.
Qed.

(** [DETACH DELETE] of the nodes that [sel] matches keeps a node that [sel]
    does not match, and a relationship between two such nodes. *)
Lemma detach_delete_keeps g sel p r m :
  NoDup (map nid (nodes g)) ->
  In p (nodes g) -> sel p = false -> In m (nodes g) -> sel m = false ->
  In r (rels g) -> rsrc r = nid p -> rdst r = nid m ->
  let g' := detach_delete (map nid (match_nodes g sel)) g in
  In p (nodes g') /\ In m (nodes g') /\ In r (rels g').
Proof.
  intros Hnd Hp Hsp Hm Hsm Hr Hs Hd g'.
  pose proof (unmatched_nid_kept g sel p Hnd Hp Hsp) as Kp.
  pose proof (unmatched_nid_kept g sel m Hnd Hm Hsm) as Km.
  unfold g'. rewrite !in_detach_delete_nodes, in_detach_delete_rels.
  rewrite Hs, Hd. tauto.
Qed.

(** X17.  [disband_party] deletes the party with its memberships and invitations.
    With distinct node identities: afterwards no Party node has the
    identifier, the parties of every player are those they had, less the
    disbanded one, no relationship starts or ends at a node that was the
    party's, and [join_party] on the identifier fails.  The call reports
    [True] exactly when the party existed; when it did not, the graph is
    left as it was. *)
Theorem disband_party_removes_memberships :
  forall (party_id : string) (g : Graph),
    NoDup (map nid (nodes g)) ->
    let out := disband_party party_id g in
    match_party (snd out) party_id = []
    /\ (forall P q, In q (player_parties (snd out) P)
                    <-> In q (player_parties g P) /\ q <> party_id)
    /\ (forall r n, In r (rels (snd out)) -> In n (match_party g party_id) ->
          rsrc r <> nid n /\ rdst r <> nid n)
    /\ (forall now P, fst (join_party now party_id P (snd out)) = None)
    /\ (fst out = true <-> match_party g party_id <> [])
    /\ (fst out = false -> snd out = g).
Proof.
  intros party_id g Hnd out.
  assert (Hgone : match_party (snd out) party_id = []).
  { apply no_member_nil. intros n Hn. apply in_match_nodes in Hn.
    destruct Hn as [Hn Hsel]. unfold out, disband_party in Hn. cbn [snd] in Hn.
    apply in_detach_delete_nodes in Hn. destruct Hn as [Hn Hkept].
    apply Hkept. apply in_map. now apply in_match_nodes. }
  split; [exact Hgone|]. split; [|split; [|split; [|split]]].
  - intros P q. rewrite !in_player_parties. split.
    + intros (p & r & party & Hp & Hr & Hty & Hs & Hparty & Hpy & Hd & Hq).
      unfold out, disband_party in Hp, Hr, Hparty. cbn [snd] in Hp, Hr, Hparty.
      apply in_match_player in Hp. destruct Hp as (Hp & Hpp & Hpid).
      apply in_detach_delete_nodes in Hp, Hparty.
      apply in_detach_delete_rels in Hr. split.
      * exists p, r, party. rewrite in_match_player. tauto.
      * intros ->. destruct Hparty as [Hparty Hkept]. apply Hkept.
        apply in_map. apply in_match_nodes. split; [exact Hparty|].
        apply has_party_id_true. tauto.
    + intros [(p & r & party & Hp & Hr & Hty & Hs & Hparty & Hpy & Hd & Hq) Hne].
      apply in_match_player in Hp. destruct Hp as (Hp & Hpp & Hpid).
      destruct (detach_delete_keeps g (has_party_id party_id) p r party Hnd Hp
                  (is_Player_not_party _ _ Hpp) Hparty
                  (other_party_unmatched party_id party Hpy
                     ltac:(rewrite Hq; exact Hne))
                  Hr Hs (eq_sym Hd)) as (Kp & Kparty & Kr).
      exists p, r, party. unfold out, disband_party. cbn [snd].
      rewrite in_match_player. unfold match_party. tauto.
  - intros r n Hr Hn. unfold out, disband_party in Hr. cbn [snd] in Hr.
    apply in_detach_delete_rels in Hr. destruct Hr as (_ & Hs & Hd).
    split; intros E; [apply Hs | apply Hd]; rewrite E; now apply in_map.
  - intros now P. unfold join_party, join_party_rows. cbn [fst].
    rewrite Hgone, list_prod_nil_r. reflexivity.
  - unfold out, disband_party. cbn [fst]. apply any_row_true.
  - unfold out, disband_party. cbn [fst snd]. rewrite any_row_false.
    intros ->. apply detach_delete_nil.
Qed.

Lemma clan_members_nil g cid : match_clan g cid = [] -> clan_members g cid = [].
Proof. unfold clan_members. now intros ->. Qed.

(** X18.  [disband_clan] deletes the clan with its memberships.  With distinct
    node identities: afterwards no Clan node has the identifier, the clan has
    no member, the clans of every player are those they had, less the
    disbanded one, and [join_clan] on the identifier fails.  The call
    reports [True] exactly when the clan existed; when it did not, the graph
    is left as it was. *)
Theorem disband_clan_removes_memberships :
  forall (clan_id : string) (g : Graph),
    NoDup (map nid (nodes g)) ->
    let out := disband_clan clan_id g in
    match_clan (snd out) clan_id = []
    /\ clan_member_count (snd out) clan_id = 0%Z
    /\ (forall P q, In q (player_clans (snd out) P)
                    <-> In q (player_clans g P) /\ q <> clan_id)
    /\ (forall now P, fst (join_clan now clan_id P (snd out)) = None)
    /\ (fst out = true <-> match_clan g clan_id <> [])
    /\ (fst out = false -> snd out = g).
Proof.
  intros clan_id g Hnd out.
  assert (Hgone : match_clan (snd out) clan_id = []).
  { apply no_member_nil. intros n Hn. apply in_match_nodes in Hn.
    destruct Hn as [Hn Hsel]. unfold out, disband_clan in Hn. cbn [snd] in Hn.
    apply in_detach_delete_nodes in Hn. destruct Hn as [Hn Hkept].
    apply Hkept. apply in_map. now apply in_match_nodes. }
  split; [exact Hgone|]. split; [|split; [|split; [|split]]].
  - rewrite clan_member_count_members, clan_members_nil by exact Hgone. reflexivity.
  - intros P q. rewrite !in_player_clans. split.
    + intros (p & r & clan & Hp & Hr & Hty & Hs & Hclan & Hcl & Hd & Hq).
      unfold out, disband_clan in Hp, Hr, Hclan. cbn [snd] in Hp, Hr, Hclan.
      apply in_match_player in Hp. destruct Hp as (Hp & Hpp & Hpid).
      apply in_detach_delete_nodes in Hp, Hclan.
      apply in_detach_delete_rels in Hr. split.
      * exists p, r, clan. rewrite in_match_player. tauto.
      * intros ->. destruct Hclan as [Hclan Hkept]. apply Hkept.
        apply in_map. apply in_match_nodes. split; [exact Hclan|].
        apply has_clan_id_true. tauto.
    + intros [(p & r & clan & Hp & Hr & Hty & Hs & Hclan & Hcl & Hd & Hq) Hne].
      apply in_match_player in Hp. destruct Hp as (Hp & Hpp & Hpid).
      destruct (detach_delete_keeps g (has_clan_id clan_id) p r clan Hnd Hp
                  (is_Player_not_clan _ _ Hpp) Hclan
                  (other_clan_unmatched clan_id clan Hcl
                     ltac:(rewrite Hq; exact Hne))
                  Hr Hs (eq_sym Hd)) as (Kp & Kclan & Kr).
      exists p, r, clan. unfold out, disband_clan. cbn [snd].
      rewrite in_match_player. unfold match_clan. tauto.
  - intros now P. unfold join_clan. cbn [fst].
    rewrite Hgone, list_prod_nil_r. reflexivity.
  - unfold out, disband_clan. cbn [fst]. apply any_row_true.
  - unfold out, disband_clan. cbn [fst snd]. rewrite any_row_false.
    intros ->. apply detach_delete_nil.
Qed.

Section Leaving.

(** The pattern [(p:Player {player_id: $player_id})-[e:TYPE]->(x:Kind {id: $id})]
    of [leave_party] and [leave_clan], for a relationship type [ty] and a
    kind of node with its identifier. *)
Variables (ty : Rel -> bool) (kind : Node -> bool) (id_of : Node -> string)
          (has_id : string -> Node -> bool).
Hypothesis has_id_true :
  forall x n, has_id x n = true <-> kind n = true /\ id_of n = x.

Lemma in_leave_rows g X P r m :
  In (r, m) (flat_map (expand_out g ty (has_id X)) (match_player g P))
  <-> In (r, m) (flat_map (expand_out g ty kind) (match_player g P))
      /\ id_of m = X.
Proof.
  rewrite !in_flat_map. split.
  - intros [p [Hp Hin]]. apply in_expand_out in Hin.
    rewrite has_id_true in Hin. split; [|tauto].
    exists p. split; [exact Hp|]. apply in_expand_out. tauto.
  - intros [[p [Hp Hin]] Hid]. exists p. split; [exact Hp|].
    apply in_expand_out in Hin. apply in_expand_out. rewrite has_id_true. tauto.
Qed.

Lemma rows_after_leave g X P Q r m :
  wf_graph g ->
  let g' := delete_rels
              (map (fun row => rid (fst row))
                 (flat_map (expand_out g ty (has_id X)) (match_player g P))) g in
  In (r, m) (flat_map (expand_out g' ty kind) (match_player g' Q))
  <-> In (r, m) (flat_map (expand_out g ty kind) (match_player g Q))
      /\ ~ (Q = P /\ id_of m = X).
Proof.
  intros (Hnd & _ & Hrd & _) g'.
  assert (Hn : nodes g' = nodes g) by reflexivity.
  rewrite (match_player_same_nodes g g' Q Hn). rewrite !in_flat_map. split.
  - intros [p [Hp Hin]]. apply in_expand_out in Hin.
    destruct Hin as (Hr & Hty & Hs & Hm & Hk & Hd).
    unfold g' in Hr. apply in_delete_rels in Hr. destruct Hr as [Hr Hkept].
    rewrite Hn in Hm. split.
    + exists p. split; [exact Hp|]. apply in_expand_out. tauto.
    + intros [-> Hid]. apply Hkept.
      apply (in_map (fun row => rid (fst row)) _ (r, m)).
      apply in_leave_rows. split; [|exact Hid].
      apply in_flat_map. exists p. split; [exact Hp|]. apply in_expand_out. tauto.
  - intros [[p [Hp Hin]] Hne]. exists p. split; [exact Hp|].
    apply in_expand_out in Hin. destruct Hin as (Hr & Hty & Hs & Hm & Hk & Hd).
    apply in_expand_out. rewrite Hn. repeat split; try assumption.
    unfold g'. apply in_delete_rels. split; [exact Hr|]. intros Hdel.
    apply in_map_iff in Hdel. destruct Hdel as [[r0 m0] [Heq Hrow]]. simpl in Heq.
    apply in_leave_rows in Hrow. destruct Hrow as [Hrow Hid0].
    apply in_flat_map in Hrow. destruct Hrow as [p0 [Hp0 Hin0]].
    apply in_expand_out in Hin0.
    destruct Hin0 as (Hr0 & _ & Hs0 & Hm0 & _ & Hd0).
    pose proof (NoDup_map_inj rid (rels g) r0 r Hrd Hr0 Hr Heq) as ->.
    apply in_match_player in Hp, Hp0.
    destruct Hp as (Hp & _ & HQ), Hp0 as (Hp0 & _ & HP).
    assert (p0 = p) by (apply (NoDup_map_inj nid (nodes g)); auto; congruence).
    assert (m0 = m) by (apply (NoDup_map_inj nid (nodes g)); auto; congruence).
    subst p0 m0. apply Hne. split; congruence.
Qed.

Lemma ids_after_leave g X P Q q :
  wf_graph g ->
  let rows g Q := flat_map (expand_out g ty kind) (match_player g Q) in
  let g' := delete_rels
              (map (fun row => rid (fst row))
                 (flat_map (expand_out g ty (has_id X)) (match_player g P))) g in
  In q (map (fun row => id_of (snd row)) (rows g' Q))
  <-> In q (map (fun row => id_of (snd row)) (rows g Q))
      /\ ~ (Q = P /\ q = X).
Proof.
  intros Hwf rows g'. rewrite !in_map_iff. split.
  - intros [[r m] [Hq Hin]]. apply (rows_after_leave g X P Q r m Hwf) in Hin.
    simpl in Hq. subst q. split; [|tauto]. exists (r, m). tauto.
  - intros [[[r m] [Hq Hin]] Hne]. exists (r, m). split; [exact Hq|].
    apply (rows_after_leave g X P Q r m Hwf). simpl in Hq. subst q. tauto.
Qed.

Lemma leave_rows_nonempty g X P :
  flat_map (expand_out g ty (has_id X)) (match_player g P) <> []
  <-> In X (map (fun row => id_of (snd row))
              (flat_map (expand_out g ty kind) (match_player g P))).
Proof.
  rewrite in_map_iff. split.
  - intros Hne.
    destruct (flat_map (expand_out g ty (has_id X)) (match_player g P))
      as [|[r m] rest] eqn:E; [congruence|].
    assert (Hin : In (r, m)
                    (flat_map (expand_out g ty (has_id X)) (match_player g P)))
      by (rewrite E; now left).
    apply in_leave_rows in Hin. exists (r, m). tauto.
  - intros [[r m] [Hid Hin]] E.
    assert (Hrow : In (r, m)
                     (flat_map (expand_out g ty (has_id X)) (match_player g P)))
      by (apply in_leave_rows; tauto).
    rewrite E in Hrow. destruct Hrow.
Qed.

End Leaving.

(** X19.  [leave_party] and [leave_clan] end the one membership they name.  In a
    well-formed graph: afterwards the player is not in that party (clan);
    every other membership, of this player and of the others, is as it was;
    the call reports [True] exactly when the player was a member, and leaves
    the graph as it was otherwise. *)
Theorem leave_removes_one_membership :
  forall (id player_id : string) (g : Graph),
    wf_graph g ->
    let party := leave_party id player_id g in
    let clan := leave_clan id player_id g in
    (forall Q q, In q (player_parties (snd party) Q)
                 <-> In q (player_parties g Q) /\ ~ (Q = player_id /\ q = id))
    /\ (fst party = true <-> In id (player_parties g player_id))
    /\ (fst party = false -> snd party = g)
    /\ (forall Q q, In q (player_clans (snd clan) Q)
                    <-> In q (player_clans g Q) /\ ~ (Q = player_id /\ q = id))
    /\ (fst clan = true <-> In id (player_clans g player_id))
    /\ (fst clan = false -> snd clan = g).
Proof.
  intros id P g Hwf party clan.
  split; [|split; [|split; [|split; [|split]]]].
  - intros Q q.
    apply (ids_after_leave is_IN_PARTY is_Party party_id_of has_party_id
             has_party_id_true g id P Q q Hwf).
  - unfold party, leave_party. cbn [fst]. rewrite any_row_true.
    apply (leave_rows_nonempty is_IN_PARTY is_Party party_id_of has_party_id
             has_party_id_true).
  - unfold party, leave_party. cbn [fst snd]. rewrite any_row_false.
    intros ->. apply delete_rels_nil.
  - intros Q q.
    apply (ids_after_leave is_BELONGS_TO is_Clan clan_id_of has_clan_id
             has_clan_id_true g id P Q q Hwf).
  - change (any_row (flat_map (expand_out g is_BELONGS_TO (has_clan_id id))
                       (match_player g P)) = true
            <-> In id (player_clans g P)).
    rewrite any_row_true.
    apply (leave_rows_nonempty is_BELONGS_TO is_Clan clan_id_of has_clan_id
             has_clan_id_true).
  - unfold clan, leave_clan. cbn [fst snd].
    intros E. apply (proj1 (any_row_false _)) in E. rewrite E.
    apply delete_rels_nil.
Qed.

(** ** Joining a party *)

Lemma join_party_rows_single g party_id P p party :
  match_player g P = [p] -> match_party g party_id = [party] ->
  join_party_rows g party_id P
  = map (fun i => ((p, party), i))
      (optional (rels_from_to g is_INVITED_TO p party)).
Proof.
  intros Hp Hparty. unfold join_party_rows. rewrite Hp, Hparty.
  cbn [list_prod map flat_map app fst snd]. now rewrite app_nil_r.
Qed.

Lemma match_party_single g party_id party :
  match_party g party_id = [party] ->
  In party (nodes g) /\ is_Party party = true /\ party_id_of party = party_id.
Proof.
  intros H.
  assert (Hin : In party (match_party g party_id)) by (rewrite H; now left).
  apply in_match_nodes in Hin. rewrite has_party_id_true in Hin. tauto.
Qed.

(** The entries of a party among the parties of a player are the [IN_PARTY]
    edges from the player to the party. *)
Lemma player_parties_entries g P party_id p party :
  NoDup (map nid (nodes g)) ->
  match_player g P = [p] -> match_party g party_id = [party] ->
  List.length (filter (String.eqb party_id) (player_parties g P))
  = List.length (rels_from_to g is_IN_PARTY p party).
Proof.
  intros Hnd Hp Hparty.
  destruct (match_party_single g party_id party Hparty) as (Hn & Hk & Hid).
  unfold player_parties, player_party_rows. rewrite Hp. simpl. rewrite app_nil_r.
  rewrite filter_map_comm, length_map.
  rewrite <- (expand_out_count_to g is_IN_PARTY is_Party p party Hnd Hn Hk).
  f_equal. apply filter_ext_in. intros [r m] Hin. simpl.
  apply in_expand_out in Hin. destruct Hin as (_ & _ & _ & Hm & Hpl & _).
  destruct (String.eqb_spec party_id (party_id_of m)) as [E|E].
  - assert (Hin : In m (match_party g party_id)).
    { apply in_match_nodes. split; [exact Hm|]. apply has_party_id_true. auto. }
    rewrite Hparty in Hin. destruct Hin as [<-|[]]. symmetry. apply Nat.eqb_refl.
  - symmetry. apply Nat.eqb_neq. intros Heq. apply E.
    assert (m = party) by (apply (NoDup_map_inj nid (nodes g)); auto).
    subst m. now symmetry.
Qed.

Lemma invitation_is_bound g party_id P p party r :
  match_player g P = [p] -> match_party g party_id = [party] ->
  In r (rels_from_to g is_INVITED_TO p party) ->
  In (rid r) (bound_rids (map snd (join_party_rows g party_id P))).
Proof.
  intros Hp Hparty Hr. apply in_bound_rids.
  rewrite (join_party_rows_single g party_id P p party Hp Hparty).
  rewrite map_map. simpl. rewrite map_id. now apply in_optional.
Qed.

Lemma membership_kept_by_join g party_id P r :
  NoDup (map rid (rels g)) -> In r (rels g) -> is_IN_PARTY r = true ->
  negb (existsb (Nat.eqb (rid r))
          (bound_rids (map snd (join_party_rows g party_id P)))) = true.
Proof.
  intros Hnd Hr Hty. apply negb_true_iff.
  destruct (existsb _ _) eqn:E; [|reflexivity].
  apply existsb_eqb_In in E. apply in_bound_rids_inv in E.
  destruct E as [i [Hi Hid]]. apply in_map_iff in Hi.
  destruct Hi as [[pp o] [Ho Hrow]]. simpl in Ho. subst o.
  unfold join_party_rows in Hrow. apply in_flat_map in Hrow.
  destruct Hrow as [pp' [_ Hrow]]. apply in_map_iff in Hrow.
  destruct Hrow as [o [Ho Hopt]]. injection Ho as _ ->.
  apply (proj1 (in_optional _ _)) in Hopt. apply in_rels_from_to in Hopt.
  destruct Hopt as (Hi & Hity & _).
  assert (i = r) by (apply (NoDup_map_inj rid (rels g)); auto). subst i.
  unfold is_IN_PARTY in Hty. unfold is_INVITED_TO in Hity.
  destruct (rprops r); discriminate.
Qed.

(** X20.  [join_party] consumes the invitations of the player to the party and
    creates one membership per invitation, and one when there is none.  In a
    well-formed graph with one node for the player and one for the party:
    the call returns the record of the player; afterwards no [INVITED_TO]
    edge from the player to the party is left; and the party is listed
    [max 1 k] times more among the parties of the player, where [k] is the
    number of invitations: a player who was invited twice is a member
    twice. *)
Theorem join_party_one_membership_per_invitation :
  forall (now : Z) (party_id player_id : string) (g : Graph) (p party : Node),
    wf_graph g ->
    match_player g player_id = [p] -> match_party g party_id = [party] ->
    let k := List.length (rels_from_to g is_INVITED_TO p party) in
    let out := join_party now party_id player_id g in
    let entries l := List.length (filter (String.eqb party_id) l) in
    fst out = Some (mkJoinRecord party_id player_id (username_of p))
    /\ rels_from_to (snd out) is_INVITED_TO p party = []
    /\ entries (player_parties (snd out) player_id)
       = entries (player_parties g player_id) + Nat.max 1 k.
Proof.
  intros now party_id P g p party Hwf Hp Hparty k out entries.
  pose proof Hwf as (Hnd & _ & Hrd & _).
  pose proof (nodes_join_party now party_id P g) as Hn. fold out in Hn.
  pose proof (join_party_rows_single g party_id P p party Hp Hparty) as Hrows.
  destruct (match_player_single g P p Hp) as (_ & _ & Hpid).
  split; [|split].
  - unfold out, join_party. cbn [fst]. rewrite Hrows.
    unfold optional. destruct (rels_from_to g is_INVITED_TO p party);
      simpl; now rewrite Hpid.
  - apply no_member_nil. intros r Hr. apply in_rels_from_to in Hr.
    destruct Hr as (Hr & Hty & Hs & Hd).
    unfold out, join_party in Hr. cbn [snd] in Hr.
    rewrite create_rels_spec in Hr. cbn [rels] in Hr.
    apply in_app_or in Hr. destruct Hr as [Hr|Hr].
    + apply in_delete_rels in Hr. destruct Hr as [Hr Hkept]. apply Hkept.
      apply (invitation_is_bound g party_id P p party r Hp Hparty).
      apply in_rels_from_to. tauto.
    + apply in_number_rels in Hr. destruct Hr as [Hr _].
      apply in_map_iff in Hr. destruct Hr as [row [Heq _]].
      injection Heq as _ _ H3. unfold is_INVITED_TO in Hty.
      rewrite <- H3 in Hty. discriminate.
  - unfold entries.
    rewrite (player_parties_entries (snd out) P party_id p party);
      [| now rewrite Hn
       | now rewrite (match_player_same_nodes g _ _ Hn)
       | unfold match_party; now rewrite (match_nodes_same_nodes g _ _ Hn)].
    rewrite (player_parties_entries g P party_id p party Hnd Hp Hparty).
    unfold rels_from_to, out, join_party. cbn [snd].
    rewrite create_rels_spec. cbn [rels delete_rels].
    rewrite filter_app, length_app, filter_filter_absorb.
    2:{ intros r Hr Hf. apply membership_kept_by_join; auto.
        apply andb_true_iff in Hf. destruct Hf as [Hf _].
        apply andb_true_iff in Hf. tauto. }
    f_equal. rewrite filter_all.
    + rewrite length_number_rels, length_map, Hrows.
      now rewrite length_map, length_optional.
    + intros r Hr. apply in_number_rels in Hr. destruct Hr as [Hr _].
      apply in_map_iff in Hr. destruct Hr as [row [Heq Hin]].
      rewrite Hrows in Hin.
      apply in_map_iff in Hin. destruct Hin as [o [<- _]]. simpl in Heq.
      injection Heq as H1 H2 H3. unfold is_IN_PARTY.
      now rewrite <- H1, <- H2, <- H3, !Nat.eqb_refl.
Qed.

(** * The store under a sequence of calls *)

(** ** Distinct identities *)

Lemma NoDup_nid_filter (keep : Node -> bool) (ns : list Node) :
  NoDup (map nid ns) -> NoDup (map nid (filter keep ns)).
Proof.
  induction ns as [|n ns IH]; simpl; intros Hnd; [exact Hnd|].
  inversion Hnd as [|k ks Hfresh Hrest]; subst.
  destruct (keep n); simpl; auto.
  constructor; auto. rewrite in_map_iff. intros [m [Hid Hm]].
  apply filter_In in Hm. apply Hfresh. rewrite <- Hid. apply in_map. tauto.
Qed.

Lemma wf_detach_delete ids g : wf_graph g -> wf_graph (detach_delete ids g).
Proof.
  intros (Hn & Hnb & Hr & Hrb). unfold wf_graph. simpl.
  split; [|split; [|split]].
  - now apply NoDup_nid_filter.
  - rewrite Forall_forall in *. intros n Hin. apply filter_In in Hin.
    apply Hnb. tauto.
  - now apply NoDup_rid_filter.
  - rewrite Forall_forall in *. intros r Hin. apply filter_In in Hin.
    apply Hrb. tauto.
Qed.

Lemma wf_set_rels ids upd g : wf_graph g -> wf_graph (set_rels ids upd g).
Proof.
  intros (Hn & Hnb & Hr & Hrb). unfold wf_graph. simpl.
  assert (Hid : forall r,
             rid (if existsb (Nat.eqb (rid r)) ids
                  then mkRel (rid r) (rsrc r) (rdst r) (upd (rprops r)) else r)
             = rid r).
  { intros r. now destruct (existsb _ _). }
  split; [assumption|]. split; [assumption|]. split.
  - rewrite map_map. rewrite (map_ext _ rid Hid). assumption.
  - rewrite Forall_forall in *. intros r Hin. apply in_map_iff in Hin.
    destruct Hin as [r0 [<- Hin]]. rewrite Hid. now apply Hrb.
Qed.

Lemma wf_run c g : wf_graph g -> wf_graph (run c g).
Proof.
  intros H.
  destruct (wf_operations g H)
    as (Hcreate & Hsend & Haccept & Hblock & Hfollow & Hunfollow & Hconv
        & Hmsg & Hedit & Hparty & Hinvite & Hjoin & Hclan & Hjoinc & Hleavec).
  destruct c; cbn [run].
  - apply Hcreate.
  - unfold update_player_status. cbn [snd]. now apply wf_set_nodes.
  - unfold update_player_username. cbn [snd]. now apply wf_set_nodes.
  - unfold delete_player_node. cbn [snd]. now apply wf_detach_delete.
  - apply Hsend.
  - apply Haccept.
  - unfold set_friend_nickname. cbn [snd]. now apply wf_set_rels.
  - unfold decline_friend_request. cbn [snd]. now apply wf_delete_rels.
  - unfold remove_friend. cbn [snd]. now apply wf_delete_rels.
  - apply Hblock.
  - unfold unblock_player. cbn [snd]. now apply wf_delete_rels.
  - apply Hconv.
  - apply Hmsg.
  - apply Hedit.
  - unfold mute_conversation. cbn [snd]. now apply wf_set_rels.
  - unfold delete_message. cbn [snd]. now apply wf_detach_delete.
  - unfold leave_conversation. cbn [snd]. now apply wf_delete_rels.
  - apply Hparty.
  - apply Hinvite.
  - apply Hjoin.
  - unfold leave_party. cbn [snd]. now apply wf_delete_rels.
  - unfold disband_party. cbn [snd]. now apply wf_detach_delete.
  - apply Hclan.
  - apply Hjoinc.
  - unfold update_member_role. cbn [snd]. now apply wf_set_rels.
  - apply Hleavec.
  - unfold disband_clan. cbn [snd]. now apply wf_detach_delete.
  - apply Hfollow.
  - apply Hunfollow.
Qed.

(** ** No dangling relationship *)

Lemma matched_nid g sel n :
  In n (match_nodes g sel) -> In (nid n) (map nid (nodes g)).
Proof. intros H. apply in_match_nodes in H. apply in_map. tauto. Qed.

Lemma closed_create_rels es g :
  closed_graph g ->
  (forall e, In e es -> In (fst (fst e)) (map nid (nodes g))
                        /\ In (snd (fst e)) (map nid (nodes g))) ->
  closed_graph (create_rels es g).
Proof.
  intros Hc Hes. unfold closed_graph. rewrite create_rels_spec. simpl.
  apply Forall_app. split; [exact Hc|].
  apply Forall_forall. intros r Hr. apply in_number_rels in Hr.
  destruct Hr as [Hr _]. apply (Hes _ Hr).
Qed.

Lemma closed_same_rels g g' :
  rels g' = rels g -> incl (map nid (nodes g)) (map nid (nodes g')) ->
  closed_graph g -> closed_graph g'.
Proof.
  unfold closed_graph. intros -> Hincl Hc. rewrite Forall_forall in *.
  intros r Hr. destruct (Hc r Hr). auto.
Qed.

Lemma closed_create_nodes ps g : closed_graph g -> closed_graph (create_nodes ps g).
Proof.
  apply closed_same_rels; rewrite create_nodes_spec; simpl; [reflexivity|].
  rewrite map_app. apply incl_appl, incl_refl.
Qed.

Lemma closed_create_node p g : closed_graph g -> closed_graph (create_node p g).
Proof. apply (closed_create_nodes [p]). Qed.

Lemma nid_set_nodes ids upd g :
  map nid (nodes (set_nodes ids upd g)) = map nid (nodes g).
Proof.
  simpl. rewrite map_map. apply map_ext. intros n. now destruct (existsb _ _).
Qed.

Lemma closed_set_nodes ids upd g : closed_graph g -> closed_graph (set_nodes ids upd g).
Proof.
  apply closed_same_rels; [reflexivity|]. rewrite nid_set_nodes. apply incl_refl.
Qed.

Lemma closed_delete_rels ids g : closed_graph g -> closed_graph (delete_rels ids g).
Proof.
  unfold closed_graph. simpl. rewrite !Forall_forall. intros Hc r Hr.
  apply filter_In in Hr. apply Hc. tauto.
Qed.

Lemma closed_set_rels ids upd g : closed_graph g -> closed_graph (set_rels ids upd g).
Proof.
  unfold closed_graph. simpl. rewrite !Forall_forall. intros Hc r Hr.
  apply in_map_iff in Hr. destruct Hr as [r0 [<- Hr]].
  destruct (existsb _ _); simpl; now apply Hc.
Qed.

Lemma closed_detach_delete ids g : closed_graph g -> closed_graph (detach_delete ids g).
Proof.
  unfold closed_graph. rewrite !Forall_forall. intros Hc r Hr.
  apply in_detach_delete_rels in Hr. destruct Hr as (Hr & Hs & Hd).
  destruct (Hc r Hr) as [Hsn Hdn].
  apply in_map_iff in Hsn, Hdn. destruct Hsn as [a [Ha Han]], Hdn as [b [Hb Hbn]].
  split; apply in_map_iff; [exists a | exists b]; (split; [assumption|]);
    apply in_detach_delete_nodes; split; auto; congruence.
Qed.

Lemma nid_number_nodes k ps : map nid (number_nodes k ps) = seq k (List.length ps).
Proof.
  revert k. induction ps as [|p ps IH]; intros k; simpl; [reflexivity|].
  now rewrite IH.
Qed.

(** The ends of the relationships that a statement creates towards the nodes
    it has just created: a matched node and a new node. *)
Lemma closed_create_towards_new {A : Type} (src : A -> Node) (props : RelProps)
    (p : NodeProps) (rows : list A) g :
  (forall row, In row rows -> In (src row) (nodes g)) ->
  closed_graph g ->
  closed_graph
    (create_rels
       (map (fun rm => (nid (src (fst rm)), snd rm, props))
          (combine rows (fresh_nodes g (List.length rows))))
       (create_nodes (map (fun _ => p) rows) g)).
Proof.
  intros Hsrc Hc. apply closed_create_rels; [now apply closed_create_nodes|].
  intros e He. apply in_map_iff in He. destruct He as [[row m] [<- Hin]].
  cbn [fst snd]. rewrite create_nodes_spec. cbn [nodes]. rewrite map_app.
  split; apply in_or_app.
  - left. apply in_map. apply Hsrc. now apply in_combine_l in Hin.
  - right. rewrite nid_number_nodes, length_map.
    now apply in_combine_r in Hin.
Qed.

Lemma closed_add_participants clock k cid pids g :
  closed_graph g -> closed_graph (add_participants clock k cid pids g).
Proof.
  revert k g. induction pids as [|pid pids IH]; intros k g H; simpl;
    [assumption|].
  apply IH. unfold add_participant. apply closed_create_rels; [assumption|].
  intros e He. apply in_map_iff in He. destruct He as [[c p] [<- Hin]].
  apply in_prod_iff in Hin. destruct Hin as [Hc Hp]. cbn [fst snd].
  split; [apply (matched_nid g _ p Hp) | apply (matched_nid g _ c Hc)].
Qed.

Lemma closed_run c g : closed_graph g -> closed_graph (run c g).
Proof.
  intros H. destruct c; cbn [run].
  - apply closed_create_node, H.
  - apply closed_set_nodes, H.
  - apply closed_set_nodes, H.
  - apply closed_detach_delete, H.
  - unfold send_friend_request. cbn [snd]. apply closed_create_rels; [exact H|].
    intros e He. apply in_map_iff in He. destruct He as [[a b] [<- Hin]].
    apply in_prod_iff in Hin. destruct Hin as [Ha Hb]. cbn [fst snd].
    split; [apply (matched_nid g _ a Ha) | apply (matched_nid g _ b Hb)].
  - unfold accept_friend_request. cbn [snd].
    assert (Hends : forall row, In row (request_rows g from_id to_id) ->
              In (nid (fst row)) (map nid (nodes g))
              /\ In (nid (snd (snd row))) (map nid (nodes g))).
    { intros [a [r b]] Hin. apply in_request_rows in Hin.
      destruct Hin as (Ha & Hb & _). cbn [fst snd].
      split; [apply (matched_nid g _ a Ha) | apply (matched_nid g _ b Hb)]. }
    apply closed_create_rels; [apply closed_create_rels|].
    + now apply closed_delete_rels.
    + intros e He. apply in_map_iff in He. destruct He as [row [<- Hin]].
      cbn [fst snd nodes delete_rels]. now apply Hends.
    + intros e He. apply in_map_iff in He. destruct He as [row [<- Hin]].
      rewrite create_rels_spec. cbn [fst snd nodes delete_rels].
      destruct (Hends row Hin). auto.
  - apply closed_set_rels, H.
  - apply closed_delete_rels, H.
  - apply closed_delete_rels, H.
  - unfold block_player. cbn [snd].
    apply closed_create_rels; [now apply closed_delete_rels|].
    intros e He. apply in_map_iff in He. destruct He as [[[a b] o] [<- Hin]].
    unfold block_rows in Hin. apply in_flat_map in Hin.
    destruct Hin as [[a' b'] [Hab Hin]]. apply in_map_iff in Hin.
    destruct Hin as [o' [Heq _]]. injection Heq as -> -> ->.
    apply in_prod_iff in Hab. destruct Hab as [Ha Hb].
    cbn [fst snd nodes delete_rels].
    split; [apply (matched_nid g _ a Ha) | apply (matched_nid g _ b Hb)].
  - apply closed_delete_rels, H.
  - unfold create_conversation. cbn [snd].
    apply closed_add_participants, closed_create_node, H.
  - unfold send_message. cbn [snd]. apply closed_set_nodes.
    apply closed_create_rels.
    + apply (closed_create_towards_new (fun row => snd row) SENT); [|exact H].
      intros [c s] Hin. apply in_prod_iff in Hin. destruct Hin as [_ Hs].
      apply in_match_nodes in Hs. cbn [snd]. tauto.
    + intros e He. apply in_map_iff in He. destruct He as [[[c s] m] [<- Hin]].
      rewrite create_rels_spec, create_nodes_spec. cbn [fst snd nodes].
      rewrite map_app. split; apply in_or_app.
      * left. apply in_combine_l in Hin. apply in_prod_iff in Hin.
        destruct Hin as [Hc _]. apply (matched_nid g _ c Hc).
      * right. rewrite nid_number_nodes, length_map.
        now apply in_combine_r in Hin.
  - apply closed_set_nodes, H.
  - apply closed_set_rels, H.
  - apply closed_detach_delete, H.
  - apply closed_delete_rels, H.
  - unfold create_party. cbn [snd].
    apply (closed_create_towards_new (fun row => row) (IN_PARTY now "leader"));
      [|exact H].
    intros p Hp. apply in_match_nodes in Hp. tauto.
  - unfold invite_to_party. cbn [snd]. apply closed_create_rels; [exact H|].
    intros e He. apply in_map_iff in He. destruct He as [[a b] [<- Hin]].
    apply in_prod_iff in Hin. destruct Hin as [Ha Hb]. cbn [fst snd].
    split; [apply (matched_nid g _ b Hb) | apply (matched_nid g _ a Ha)].
  - unfold join_party. cbn [snd].
    apply closed_create_rels; [now apply closed_delete_rels|].
    intros e He. apply in_map_iff in He. destruct He as [[[a b] o] [<- Hin]].
    unfold join_party_rows in Hin. apply in_flat_map in Hin.
    destruct Hin as [[a' b'] [Hab Hin]]. apply in_map_iff in Hin.
    destruct Hin as [o' [Heq _]]. injection Heq as -> -> ->.
    apply in_prod_iff in Hab. destruct Hab as [Ha Hb].
    cbn [fst snd nodes delete_rels].
    split; [apply (matched_nid g _ a Ha) | apply (matched_nid g _ b Hb)].
  - apply closed_delete_rels, H.
  - apply closed_detach_delete, H.
  - unfold create_clan. cbn [snd].
    apply (closed_create_towards_new (fun row => row) (BELONGS_TO now "owner" 1));
      [|exact H].
    intros p Hp. apply in_match_nodes in Hp. tauto.
  - unfold join_clan. cbn [snd]. apply closed_create_rels; [exact H|].
    intros e He. apply in_map_iff in He. destruct He as [[a b] [<- Hin]].
    apply in_prod_iff in Hin. destruct Hin as [Ha Hb]. cbn [fst snd].
    split; [apply (matched_nid g _ a Ha) | apply (matched_nid g _ b Hb)].
  - apply closed_set_rels, H.
  - apply closed_delete_rels, H.
  - apply closed_detach_delete, H.
  - unfold follow_player. cbn [snd]. apply closed_create_rels; [exact H|].
    intros e He. apply in_map_iff in He. destruct He as [[a b] [<- Hin]].
    apply in_prod_iff in Hin. destruct Hin as [Ha Hb]. cbn [fst snd].
    split; [apply (matched_nid g _ a Ha) | apply (matched_nid g _ b Hb)].
  - apply closed_delete_rels, H.
Qed.

(** ** Friendships come in pairs *)

Lemma paired_same_rels g g' :
  rels g' = rels g -> friendships_paired g -> friendships_paired g'.
Proof. unfold friendships_paired. intros ->. auto. Qed.

(** A [CREATE] of relationships of another type. *)
Lemma paired_create_other es g :
  (forall r, In (rsrc r, rdst r, rprops r) es -> is_FRIENDS_WITH r = false) ->
  friendships_paired g -> friendships_paired (create_rels es g).
Proof.
  intros Hes Hp r Hr Hty. rewrite create_rels_spec in Hr. cbn [rels] in Hr.
  apply in_app_or in Hr. destruct Hr as [Hr|Hr].
  - destruct (Hp r Hr Hty) as [r' [Hr' Hrest]]. exists r'.
    split; [|exact Hrest]. rewrite create_rels_spec. cbn [rels].
    apply in_or_app. now left.
  - apply in_number_rels in Hr. destruct Hr as [Hr _].
    rewrite (Hes r Hr) in Hty. discriminate.
Qed.

(** The two [CREATE]s of [accept_friend_request]. *)
Lemma paired_create_pairs {A : Type} (x y : A -> nat) (p : RelProps)
    (rows : list A) g :
  friendships_paired g ->
  friendships_paired
    (create_rels (map (fun row => (y row, x row, p)) rows)
       (create_rels (map (fun row => (x row, y row, p)) rows) g)).
Proof.
  intros Hp r Hr Hty. rewrite !create_rels_spec in *. cbn [rels next_rel] in *.
  assert (Hsame : forall r', rprops r' = rprops r -> is_FRIENDS_WITH r' = true).
  { intros r' E. unfold is_FRIENDS_WITH in *. now rewrite E. }
  apply in_app_or in Hr. destruct Hr as [Hr|Hr];
    [apply in_app_or in Hr; destruct Hr as [Hr|Hr]|].
  - destruct (Hp r Hr Hty) as [r' [Hr' Hrest]]. exists r'.
    split; [|exact Hrest]. apply in_or_app. left. apply in_or_app. now left.
  - apply in_number_rels in Hr. destruct Hr as [Hr _].
    apply in_map_iff in Hr. destruct Hr as [row [Heq Hrow]].
    injection Heq as H1 H2 H3.
    match goal with |- exists r', In r' (_ ++ number_rels ?k ?es) /\ _ =>
      destruct (number_rels_in (y row, x row, p) k es) as [r' (Hr' & He & _)]
    end.
    { apply in_map_iff. exists row. auto. }
    injection He as E1 E2 E3. exists r'.
    split; [apply in_or_app; now right|].
    split; [apply Hsame; congruence|]. split; congruence.
  - apply in_number_rels in Hr. destruct Hr as [Hr _].
    apply in_map_iff in Hr. destruct Hr as [row [Heq Hrow]].
    injection Heq as H1 H2 H3.
    match goal with |- exists r', In r' ((_ ++ number_rels ?k ?es) ++ _) /\ _ =>
      destruct (number_rels_in (x row, y row, p) k es) as [r' (Hr' & He & _)]
    end.
    { apply in_map_iff. exists row. auto. }
    injection He as E1 E2 E3. exists r'.
    split; [apply in_or_app; left; apply in_or_app; now right|].
    split; [apply Hsame; congruence|]. split; congruence.
Qed.

(** A [DELETE] that takes the edge the other way along with each friendship
    edge it takes. *)
Lemma paired_delete ids g :
  (forall r r', In r (rels g) -> In r' (rels g) ->
     is_FRIENDS_WITH r = true -> is_FRIENDS_WITH r' = true ->
     rsrc r' = rdst r -> rdst r' = rsrc r ->
     In (rid r') ids -> In (rid r) ids) ->
  friendships_paired g -> friendships_paired (delete_rels ids g).
Proof.
  intros Hids Hp r Hr Hty. apply in_delete_rels in Hr. destruct Hr as [Hr Hkept].
  destruct (Hp r Hr Hty) as [r' (Hr' & Hty' & Hs & Hd)].
  exists r'. split; [|tauto]. apply in_delete_rels. split; [exact Hr'|].
  intros Hin. apply Hkept. apply (Hids r r'); auto.
Qed.

(** A [DELETE] of relationships of another type. *)
Lemma paired_delete_other ids g :
  NoDup (map rid (rels g)) ->
  (forall k, In k ids ->
     exists d, In d (rels g) /\ rid d = k /\ is_FRIENDS_WITH d = false) ->
  friendships_paired g -> friendships_paired (delete_rels ids g).
Proof.
  intros Hnd Hids. apply paired_delete. intros r r' Hr Hr' Hty Hty' _ _ Hin.
  destruct (Hids _ Hin) as [d (Hd & Hid & Hdty)].
  assert (d = r') by (apply (NoDup_map_inj rid (rels g)); auto).
  subst d. congruence.
Qed.

Lemma expand_out_row_ids g ty sel ps k :
  In k (map (fun row => rid (fst row)) (flat_map (expand_out g ty sel) ps)) ->
  exists d, In d (rels g) /\ rid d = k /\ ty d = true.
Proof.
  intros Hk. apply in_map_iff in Hk. destruct Hk as [[d m] [Hid Hin]].
  apply in_flat_map in Hin. destruct Hin as [p [_ Hin]].
  apply in_expand_out in Hin. exists d. simpl in Hid. tauto.
Qed.

(** A [DELETE] of the relationships of a type that is not [FRIENDS_WITH],
    bound by a pattern [(p)-[e:TYPE]->(x)]. *)
Lemma paired_delete_expand_out g ty sel ps :
  NoDup (map rid (rels g)) ->
  (forall d, ty d = true -> is_FRIENDS_WITH d = false) ->
  friendships_paired g ->
  friendships_paired
    (delete_rels (map (fun row => rid (fst row))
                    (flat_map (expand_out g ty sel) ps)) g).
Proof.
  intros Hnd Hty. apply paired_delete_other; [exact Hnd|].
  intros k Hk. apply expand_out_row_ids in Hk.
  destruct Hk as [d (Hd & Hid & Hd')]. exists d. auto.
Qed.

(** A [DELETE] of the friendship edges between matched pairs of nodes, as in
    [remove_friend] and [block_player]. *)
Lemma paired_delete_between g ids (pairs : list (Node * Node)) :
  NoDup (map rid (rels g)) ->
  (forall k, In k ids ->
     exists d a b, In (a, b) pairs
                   /\ In d (rels_between g is_FRIENDS_WITH a b) /\ rid d = k) ->
  (forall a b d, In (a, b) pairs -> In d (rels_between g is_FRIENDS_WITH a b) ->
     In (rid d) ids) ->
  friendships_paired g -> friendships_paired (delete_rels ids g).
Proof.
  intros Hnd Hfrom Hto. apply paired_delete.
  intros r r' Hr Hr' Hty Hty' Hs Hd Hin.
  destruct (Hfrom _ Hin) as (d & a & b & Hab & Hbetween & Hid).
  pose proof (proj1 (in_rels_between _ _ _ _ _) Hbetween) as (Hdin & _ & Hends).
  assert (d = r') by (apply (NoDup_map_inj rid (rels g)); auto). subst d.
  apply (Hto a b r Hab). apply in_rels_between.
  split; [exact Hr|]. split; [exact Hty|].
  rewrite Hs, Hd in Hends. tauto.
Qed.

Lemma paired_set_rels ids upd g :
  (forall r, is_FRIENDS_WITH (mkRel (rid r) (rsrc r) (rdst r) (upd (rprops r)))
             = is_FRIENDS_WITH r) ->
  friendships_paired g -> friendships_paired (set_rels ids upd g).
Proof.
  intros Hupd Hp r Hr Hty. cbn [rels set_rels] in *.
  set (F := fun r => if existsb (Nat.eqb (rid r)) ids
                     then mkRel (rid r) (rsrc r) (rdst r) (upd (rprops r))
                     else r) in *.
  assert (HF : forall x, is_FRIENDS_WITH (F x) = is_FRIENDS_WITH x
                         /\ rsrc (F x) = rsrc x /\ rdst (F x) = rdst x).
  { intros x. unfold F. destruct (existsb _ _); [|auto].
    split; [apply Hupd | split; reflexivity]. }
  apply in_map_iff in Hr. destruct Hr as [r0 [<- Hr0]].
  destruct (HF r0) as (E1 & E2 & E3). rewrite E1 in Hty.
  destruct (Hp r0 Hr0 Hty) as [r' (Hr' & Hty' & Hs & Hd)].
  exists (F r'). destruct (HF r') as (E1' & E2' & E3').
  split; [now apply in_map|]. split; [congruence|]. split; congruence.
Qed.

Lemma paired_detach_delete ids g :
  friendships_paired g -> friendships_paired (detach_delete ids g).
Proof.
  intros Hp r Hr Hty. apply in_detach_delete_rels in Hr.
  destruct Hr as (Hr & Hs & Hd).
  destruct (Hp r Hr Hty) as [r' (Hr' & Hty' & Hs' & Hd')].
  exists r'. split; [|tauto]. apply in_detach_delete_rels.
  rewrite Hs', Hd'. tauto.
Qed.

Lemma paired_add_participants clock k cid pids g :
  friendships_paired g ->
  friendships_paired (add_participants clock k cid pids g).
Proof.
  revert k g. induction pids as [|pid pids IH]; intros k g H; simpl;
    [assumption|].
  apply IH. unfold add_participant. apply paired_create_other; [|assumption].
  intros r Hr. apply in_map_iff in Hr. destruct Hr as [row [Heq _]].
  injection Heq as _ _ E. unfold is_FRIENDS_WITH. now rewrite <- E.
Qed.

(** Closes the side condition of [paired_create_other] for a [CREATE] of a
    relationship of a fixed type. *)
Ltac other_type_created :=
  let r := fresh "r" in
  let Hr := fresh "Hr" in
  let row := fresh "row" in
  let Heq := fresh "Heq" in
  let E := fresh "E" in
  intros r Hr; apply in_map_iff in Hr; destruct Hr as [row [Heq _]];
  injection Heq as _ _ E; unfold is_FRIENDS_WITH; now rewrite <- E.

(** Closes [ty d = true -> is_FRIENDS_WITH d = false] for another type. *)
Ltac other_type_matched :=
  let d := fresh "d" in
  let H := fresh "H" in
  intros d H;
  unfold is_SENT_REQUEST, is_BLOCKED, is_FOLLOWS, is_MEMBER_OF, is_IN_PARTY,
    is_INVITED_TO, is_BELONGS_TO in H;
  unfold is_FRIENDS_WITH; destruct (rprops d); congruence.

Lemma request_not_friendship :
  forall d, is_SENT_REQUEST d = true -> is_FRIENDS_WITH d = false.
Proof. other_type_matched. Qed.

Lemma invitation_not_friendship :
  forall d, is_INVITED_TO d = true -> is_FRIENDS_WITH d = false.
Proof. other_type_matched. Qed.

Lemma request_row_ids g A B k :
  In k (map (fun row => rid (fst (snd row))) (request_rows g A B)) ->
  exists d, In d (rels g) /\ rid d = k /\ is_FRIENDS_WITH d = false.
Proof.
  intros Hk. apply in_map_iff in Hk. destruct Hk as [[a [d b]] [Hid Hin]].
  apply in_request_rows in Hin. destruct Hin as (_ & _ & Hd & Hty & _).
  exists d. simpl in Hid. split; [exact Hd|]. split; [exact Hid|].
  now apply request_not_friendship.
Qed.

Lemma invitation_row_ids g party_id P k :
  In k (bound_rids (map snd (join_party_rows g party_id P))) ->
  exists d, In d (rels g) /\ rid d = k /\ is_FRIENDS_WITH d = false.
Proof.
  intros Hk. apply in_bound_rids_inv in Hk. destruct Hk as [d [Hd Hid]].
  apply in_map_iff in Hd. destruct Hd as [[pp o] [Ho Hrow]]. simpl in Ho. subst o.
  unfold join_party_rows in Hrow. apply in_flat_map in Hrow.
  destruct Hrow as [pp' [_ Hrow]]. apply in_map_iff in Hrow.
  destruct Hrow as [o [Ho Hopt]]. injection Ho as _ ->.
  apply (proj1 (in_optional _ _)) in Hopt. apply in_rels_from_to in Hopt.
  destruct Hopt as (Hin & Hty & _). exists d.
  split; [exact Hin|]. split; [exact Hid|].
  now apply invitation_not_friendship.
Qed.

Lemma paired_run c g :
  wf_graph g -> friendships_paired g -> friendships_paired (run c g).
Proof.
  intros (_ & _ & Hnd & _) H. destruct c; cbn [run].
  - now apply (paired_same_rels g).
  - now apply (paired_same_rels g).
  - now apply (paired_same_rels g).
  - apply paired_detach_delete, H.
  - unfold send_friend_request. cbn [snd].
    apply paired_create_other; [other_type_created | exact H].
  - unfold accept_friend_request. cbn [snd].
    apply (paired_create_pairs (fun row => nid (fst row))
             (fun row => nid (snd (snd row))) (FRIENDS_WITH now None)).
    apply paired_delete_other; [exact Hnd | apply request_row_ids | exact H].
  - unfold set_friend_nickname. cbn [snd].
    apply paired_set_rels; [apply is_FRIENDS_WITH_set_nickname | exact H].
  - unfold decline_friend_request. cbn [snd].
    apply paired_delete_other; [exact Hnd | apply request_row_ids | exact H].
  - unfold remove_friend. cbn [snd].
    apply (paired_delete_between g _
             (list_prod (match_player g player_id) (match_player g friend_id)));
      [exact Hnd | | | exact H].
    + intros k Hk. apply in_map_iff in Hk. destruct Hk as [[[a b] d] [Hid Hin]].
      apply in_unfriend_rows in Hin. destruct Hin as (Ha & Hb & Hd).
      exists d, a, b. split; [now apply in_prod|]. auto.
    + intros a b d Hab Hd. apply in_prod_iff in Hab.
      apply (in_map (fun row => rid (snd row)) _ ((a, b), d)).
      apply in_unfriend_rows. tauto.
  - unfold block_player. cbn [snd].
    apply paired_create_other; [other_type_created|].
    apply (paired_delete_between g _
             (list_prod (match_player g blocker_id) (match_player g blocked_id)));
      [exact Hnd | | | exact H].
    + intros k Hk. apply in_bound_rids_inv in Hk. destruct Hk as [d [Hd Hid]].
      apply in_map_iff in Hd. destruct Hd as [[[a b] o] [Ho Hrow]].
      simpl in Ho. subst o. unfold block_rows in Hrow.
      apply in_flat_map in Hrow. destruct Hrow as [[a' b'] [Hab Hrow]].
      apply in_map_iff in Hrow. destruct Hrow as [o [Ho Hopt]].
      injection Ho as -> -> ->. apply (proj1 (in_optional _ _)) in Hopt.
      exists d, a, b. auto.
    + intros a b d Hab Hd. apply in_prod_iff in Hab.
      apply (block_rows_bind_friendship g blocker_id blocked_id a b d); tauto.
  - unfold unblock_player. cbn [snd].
    apply paired_delete_expand_out; [exact Hnd | other_type_matched | exact H].
  - unfold create_conversation. cbn [snd].
    apply paired_add_participants. now apply (paired_same_rels g).
  - unfold send_message. cbn [snd].
    match goal with |- friendships_paired (set_nodes ?ids ?upd ?g1) =>
      apply (paired_same_rels g1); [reflexivity|]
    end.
    apply paired_create_other; [other_type_created|].
    apply paired_create_other; [other_type_created|].
    apply (paired_same_rels g); [|exact H].
    now rewrite create_nodes_spec.
  - now apply (paired_same_rels g).
  - unfold mute_conversation. cbn [snd].
    apply paired_set_rels; [|exact H].
    intros r. unfold is_FRIENDS_WITH. simpl. now destruct (rprops r).
  - apply paired_detach_delete, H.
  - unfold leave_conversation, membership_rows. cbn [snd].
    apply paired_delete_expand_out; [exact Hnd | other_type_matched | exact H].
  - unfold create_party. cbn [snd].
    apply paired_create_other; [other_type_created|].
    apply (paired_same_rels g); [|exact H].
    now rewrite create_nodes_spec.
  - unfold invite_to_party. cbn [snd].
    apply paired_create_other; [other_type_created | exact H].
  - unfold join_party. cbn [snd].
    apply paired_create_other; [other_type_created|].
    apply paired_delete_other; [exact Hnd | apply invitation_row_ids | exact H].
  - unfold leave_party. cbn [snd].
    apply paired_delete_expand_out; [exact Hnd | other_type_matched | exact H].
  - apply paired_detach_delete, H.
  - unfold create_clan. cbn [snd].
    apply paired_create_other; [other_type_created|].
    apply (paired_same_rels g); [|exact H].
    now rewrite create_nodes_spec.
  - unfold join_clan. cbn [snd].
    apply paired_create_other; [other_type_created | exact H].
  - unfold update_member_role. cbn [snd].
    apply paired_set_rels; [|exact H].
    intros r. unfold is_FRIENDS_WITH. simpl. now destruct (rprops r).
  - unfold leave_clan. cbn [snd].
    apply paired_delete_expand_out; [exact Hnd | other_type_matched | exact H].
  - apply paired_detach_delete, H.
  - unfold follow_player. cbn [snd].
    apply paired_create_other; [other_type_created | exact H].
  - unfold unfollow_player. cbn [snd].
    apply (paired_delete_expand_out g is_FOLLOWS (has_player_id following_id));
      [exact Hnd | other_type_matched | exact H].
Qed.

Lemma run_all_invariants calls g :
  wf_graph g -> closed_graph g -> friendships_paired g ->
  wf_graph (run_all calls g) /\ closed_graph (run_all calls g)
  /\ friendships_paired (run_all calls g).
Proof.
  revert g. induction calls as [|c calls IH]; intros g Hwf Hc Hp; simpl;
    [auto|].
  apply IH; [now apply wf_run | now apply closed_run | now apply paired_run].
Qed.

Lemma invariants_empty_graph :
  wf_graph empty_graph /\ closed_graph empty_graph
  /\ friendships_paired empty_graph.
Proof.
  split; [apply wf_empty_graph|]. split; [constructor|]. intros r [].
Qed.

(** X21.  Whatever the calls, the store stays well formed.  In the graph that any
    sequence of calls of the writing CRUD methods builds from the empty
    graph, with any arguments, node identities are distinct, relationship
    identities are distinct, and every relationship starts and ends at a
    node of the graph: relationships are created between matched or new
    nodes only, and nodes are deleted with [DETACH DELETE] only. *)
Theorem calls_keep_the_graph_well_formed :
  forall (calls : list Call),
    let g := run_all calls empty_graph in
    wf_graph g /\ closed_graph g.
Proof.
  intros calls g. destruct invariants_empty_graph as (Hwf & Hc & Hp).
  destruct (run_all_invariants calls empty_graph Hwf Hc Hp) as (H1 & H2 & _).
  split; assumption.
Qed.

Lemma paired_friends g A B :
  friendships_paired g ->
  In B (map fd_player_id (get_friends A g)) ->
  In A (map fd_player_id (get_friends B g)).
Proof.
  intros Hp Hin. apply in_get_friends in Hin.
  destruct Hin as (p & f & friend & Hpm & Hrow & Hid).
  apply in_expand_out in Hrow. destruct Hrow as (Hf & Hty & Hs & Hm & Hpl & Hd).
  apply in_match_player in Hpm. destruct Hpm as (Hpn & Hpp & Hpid).
  destruct (Hp f Hf Hty) as [f' (Hf' & Hty' & Hs' & Hd')].
  apply in_get_friends. exists friend, f', p.
  split; [apply in_match_player; auto|]. split; [|exact Hpid].
  apply in_expand_out. repeat split; auto; congruence.
Qed.

(** X22.  Friendship is mutual.  In the graph that any sequence of calls of the
    writing CRUD methods builds from the empty graph, [get_friends(A)] lists
    [B] exactly when [get_friends(B)] lists [A]: [accept_friend_request]
    creates the two edges together, [remove_friend] and [block_player]
    delete them together, and no other method creates or deletes a
    [FRIENDS_WITH] edge alone. *)
Theorem friendship_is_mutual :
  forall (calls : list Call) (A B : string),
    let g := run_all calls empty_graph in
    In B (map fd_player_id (get_friends A g))
    <-> In A (map fd_player_id (get_friends B g)).
Proof.
  intros calls A B g. destruct invariants_empty_graph as (Hwf & Hc & Hp).
  destruct (run_all_invariants calls empty_graph Hwf Hc Hp) as (_ & _ & H).
  split; apply paired_friends; exact H.
Qed.

(** * Clans: creation and roles *)

Lemma closed_ends_below g r :
  wf_graph g -> closed_graph g -> In r (rels g) ->
  rsrc r < next_node g /\ rdst r < next_node g.
Proof.
  intros (_ & Hnb & _) Hc Hr. unfold closed_graph in Hc.
  rewrite Forall_forall in Hc, Hnb. destruct (Hc r Hr) as [Hs Hd].
  apply in_map_iff in Hs, Hd. destruct Hs as [a [<- Ha]], Hd as [b [<- Hb]].
  split; now apply Hnb.
Qed.

Lemma flat_map_same_in {A B : Type} (f h : A -> list B) (l : list A) :
  (forall x, In x l -> f x = h x) -> flat_map f l = flat_map h l.
Proof.
  induction l as [|x l IH]; intros H; simpl; [reflexivity|].
  rewrite (H x) by now left. f_equal. apply IH. intros y Hy. apply H. now right.
Qed.

(** A node that no relationship reaches adds no row to a pattern that
    follows the relationships of the graph. *)
Lemma expand_out_new_node g g' ty sel n c :
  nodes g' = nodes g ++ [c] -> rels g' = rels g ->
  (forall r, In r (rels g) -> rdst r <> nid c) ->
  expand_out g' ty sel n = expand_out g ty sel n.
Proof.
  intros Hn Hr Hfresh. unfold expand_out. rewrite Hn, Hr.
  apply flat_map_same_in. intros r Hin. apply filter_In in Hin.
  rewrite filter_app. simpl.
  replace (Nat.eqb (nid c) (rdst r)) with false.
  - now rewrite andb_false_r, app_nil_r.
  - symmetry. apply Nat.eqb_neq. intros E. apply (Hfresh r); [tauto | auto].
Qed.

Lemma expand_in_nothing g ty sel c :
  (forall r, In r (rels g) -> rdst r <> nid c) -> expand_in g ty sel c = [].
Proof.
  intros Hfresh. unfold expand_in. rewrite filter_none; [reflexivity|].
  intros r Hr. replace (Nat.eqb (rdst r) (nid c)) with false.
  - apply andb_false_r.
  - symmetry. apply Nat.eqb_neq. now apply Hfresh.
Qed.

Lemma filter_below (f : Node -> bool) (k : nat) (ns : list Node) :
  Forall (fun n => nid n < k) ns ->
  filter (fun m => f m && Nat.eqb (nid m) k) ns = [].
Proof.
  intros Hb. apply filter_none. intros n Hn. rewrite Forall_forall in Hb.
  replace (Nat.eqb (nid n) k) with false; [apply andb_false_r|].
  symmetry. apply Nat.eqb_neq. specialize (Hb n Hn). lia.
Qed.

(** X23.  [create_clan] makes the owner the first member.  In a well-formed
    graph without dangling relationships, with one node for the owner and
    no clan under the new identifier: the call returns the clan's record;
    afterwards the clan has one member, with rank 1; the owner's clans are
    those they had, followed by the new one (an earlier membership is no
    obstacle); and for an owner who was in no clan [get_player_clan]
    answers with the new clan, role [owner] and rank 1. *)
Theorem create_clan_owner_is_first_member :
  forall (now : Z) (clan_id name tag owner_id : string)
         (description : option string) (g : Graph) (o : Node),
    wf_graph g -> closed_graph g ->
    match_player g owner_id = [o] -> match_clan g clan_id = [] ->
    let out := create_clan now clan_id name tag owner_id description g in
    fst out = Some (mkClanRecord clan_id name tag description now)
    /\ clan_ranks (snd out) clan_id = [1%Z]
    /\ clan_member_count (snd out) clan_id = 1%Z
    /\ player_clans (snd out) owner_id = player_clans g owner_id ++ [clan_id]
    /\ (player_clans g owner_id = [] ->
        get_player_clan owner_id (snd out)
        = Some (mkPlayerClanRecord clan_id name tag "owner" 1)).
Proof.
  intros now cid name tag owner description g o Hwf Hclosed Ho Hnone out.
  pose proof Hwf as (Hnd & Hnb & _ & _).
  destruct (match_player_single g owner o Ho) as (Hon & Hop & Hoid).
  set (c := mkNode (next_node g) (Clan cid name tag description now)).
  set (e := mkRel (next_rel g) (nid o) (next_node g) (BELONGS_TO now "owner" 1)).
  set (g1 := mkGraph (nodes g ++ [c]) (rels g) (S (next_node g)) (next_rel g)).
  assert (Hout : snd out
                 = mkGraph (nodes g ++ [c]) (rels g ++ [e]) (S (next_node g))
                     (S (next_rel g))).
  { unfold out, create_clan. rewrite Ho. reflexivity. }
  assert (Hfresh : forall r, In r (rels g) -> rdst r <> nid c).
  { intros r Hr. destruct (closed_ends_below g r Hwf Hclosed Hr). simpl. lia. }
  assert (Hplayers : match_player (snd out) owner = [o]).
  { rewrite Hout. unfold match_player, match_nodes in *. cbn [nodes].
    rewrite filter_app, Ho. reflexivity. }
  assert (Hclans : match_clan (snd out) cid = [c]).
  { rewrite Hout. unfold match_clan, match_nodes in *. cbn [nodes].
    rewrite filter_app, Hnone. simpl. unfold has_clan_id. simpl.
    now rewrite String.eqb_refl. }
  assert (Hmembers : clan_members (snd out) cid = [(e, o)]).
  { unfold clan_members. rewrite Hclans. simpl. rewrite app_nil_r.
    rewrite (expand_in_snoc g1 (snd out) _ _ c e)
      by (rewrite Hout; reflexivity).
    rewrite (expand_in_nothing g1) by exact Hfresh.
    change (is_BELONGS_TO e) with true. change (rdst e) with (nid c).
    rewrite Nat.eqb_refl. cbn [andb app].
    change (rsrc e) with (nid o). change (nodes g1) with (nodes g ++ [c]).
    rewrite filter_app.
    rewrite (filter_nid_unique is_Player (nodes g) o Hnd Hon Hop).
    reflexivity. }
  assert (Hrows : player_clan_rows (snd out) owner
                  = player_clan_rows g owner ++ [(e, c)]).
  { unfold player_clan_rows. rewrite Hplayers, Ho. simpl. rewrite !app_nil_r.
    rewrite (expand_out_snoc g1 (snd out) _ _ o e)
      by (rewrite Hout; reflexivity).
    rewrite (expand_out_new_node g g1 _ _ o c) by (auto; reflexivity).
    f_equal. change (is_BELONGS_TO e) with true. change (rsrc e) with (nid o).
    rewrite Nat.eqb_refl. cbn [andb].
    change (rdst e) with (next_node g). change (nodes g1) with (nodes g ++ [c]).
    rewrite filter_app.
    rewrite (filter_below is_Clan (next_node g) (nodes g) Hnb).
    simpl. now rewrite Nat.eqb_refl. }
  split; [|split; [|split; [|split]]].
  - unfold out, create_clan. rewrite Ho. reflexivity.
  - unfold clan_ranks. now rewrite Hmembers.
  - rewrite clan_member_count_members. now rewrite Hmembers.
  - unfold player_clans. rewrite Hrows, map_app. reflexivity.
  - intros Hempty. unfold player_clans in Hempty. apply map_eq_nil in Hempty.
    unfold get_player_clan. rewrite Hrows, Hempty. reflexivity.
Qed.






(** * Conversations: members *)

Lemma has_conversation_id_true (cid : string) (n : Node) :
  has_conversation_id cid n = true
  <-> is_Conversation n = true /\ conversation_id_of n = cid.
Proof.
  unfold has_conversation_id, is_Conversation, conversation_id_of.
  destruct (nprops n); try (split; [discriminate | intros [H _]; discriminate]).
  rewrite String.eqb_eq. tauto.
Qed.

Lemma nodes_add_participant now cid pid g :
  nodes (add_participant now cid pid g) = nodes g.
Proof. unfold add_participant. now rewrite create_rels_spec. Qed.

Lemma nodes_add_participants clock k cid pids g :
  nodes (add_participants clock k cid pids g) = nodes g.
Proof.
  revert k g. induction pids as [|pid pids IH]; intros k g; simpl;
    [reflexivity|].
  now rewrite IH, nodes_add_participant.
Qed.

Lemma rels_add_participants clock k cid pids g :
  incl (rels g) (rels (add_participants clock k cid pids g)).
Proof.
  revert k g. induction pids as [|pid pids IH]; intros k g r Hr; simpl;
    [exact Hr|].
  apply IH. unfold add_participant. rewrite create_rels_spec. simpl.
  apply in_or_app. now left.
Qed.

(** Every participant that has a node gets a [MEMBER_OF] edge to every node
    of the conversation. *)
Lemma add_participants_member clock k cid pids g pid p c :
  In pid pids -> In p (match_player g pid) ->
  In c (match_nodes g (has_conversation_id cid)) ->
  exists r, In r (rels (add_participants clock k cid pids g))
            /\ is_MEMBER_OF r = true /\ rsrc r = nid p /\ rdst r = nid c.
Proof.
  revert k g. induction pids as [|q pids IH]; intros k g Hin Hp Hc;
    [destruct Hin|].
  simpl. destruct Hin as [->|Hin].
  - destruct (number_rels_in
                (nid p, nid c, MEMBER_OF (clock k) "member" false) (next_rel g)
                (map (fun row => (nid (snd row), nid (fst row),
                                  MEMBER_OF (clock k) "member" false))
                   (list_prod (match_nodes g (has_conversation_id cid))
                      (match_player g pid))))
      as [r (Hr & He & _)].
    { apply in_map_iff. exists (c, p). split; [reflexivity|]. now apply in_prod. }
    exists r. split.
    + apply rels_add_participants. unfold add_participant.
      rewrite create_rels_spec. simpl. apply in_or_app. now right.
    + injection He as H1 H2 H3. unfold is_MEMBER_OF. rewrite H3. auto.
  - apply IH; [exact Hin | |].
    + now rewrite (match_player_same_nodes g _ _ (nodes_add_participant _ _ _ g)).
    + now rewrite (match_nodes_same_nodes g _ _ (nodes_add_participant _ _ _ g)).
Qed.

(** X25.  [create_conversation] makes a member of every participant that exists,
    and skips the others without a word.  In a well-formed graph the call
    always returns the conversation's record.  Afterwards a participant with
    a Player node is a member: [mute_conversation] and [leave_conversation]
    find the membership and report [True], and after [leave_conversation] it
    is gone.  A participant identifier without a Player node gets no
    membership. *)
Theorem create_conversation_adds_members :
  forall (clock : nat -> Z) (conversation_id conversation_type : string)
         (participant_ids : list string) (name : option string) (g : Graph),
    wf_graph g ->
    let out := create_conversation clock conversation_id conversation_type
                 participant_ids name g in
    fst out = Some (mkConversationRecord conversation_id conversation_type name
                      (clock 0))
    /\ (forall pid muted,
          In pid participant_ids -> match_player g pid <> [] ->
          membership_rows (snd out) pid conversation_id <> []
          /\ fst (mute_conversation pid conversation_id muted (snd out)) = true
          /\ fst (leave_conversation pid conversation_id (snd out)) = true
          /\ membership_rows
               (snd (leave_conversation pid conversation_id (snd out)))
               pid conversation_id = [])
    /\ (forall pid, match_player g pid = [] ->
          membership_rows (snd out) pid conversation_id = []).
Proof.
  intros clock cid ctype pids name g Hwf out.
  set (conv := mkNode (next_node g) (Conversation cid ctype name (clock 0) None)).
  set (g1 := create_node (Conversation cid ctype name (clock 0) None) g).
  assert (Hnodes : nodes (snd out) = nodes g ++ [conv]).
  { unfold out, create_conversation. cbn [snd].
    now rewrite nodes_add_participants. }
  assert (Hplayers : forall pid, match_player (snd out) pid = match_player g pid).
  { intros pid. unfold match_player, match_nodes. rewrite Hnodes, filter_app.
    simpl. apply app_nil_r. }
  assert (Hwf' : wf_graph (snd out)).
  { destruct (wf_operations g Hwf) as (_ & _ & _ & _ & _ & _ & H & _). apply H. }
  split; [reflexivity|]. split.
  - intros pid muted Hin Hsome.
    assert (Hrows : membership_rows (snd out) pid cid <> []).
    { destruct (match_player g pid) as [|p ps] eqn:Ep; [congruence|].
      assert (Hp : In p (match_player g1 pid)).
      { unfold match_player, match_nodes, g1 in *. cbn [nodes create_node].
        rewrite filter_app, Ep. now left. }
      assert (Hc : In conv (match_nodes g1 (has_conversation_id cid))).
      { apply in_match_nodes. split.
        - unfold g1. cbn [nodes create_node]. apply in_or_app. right. now left.
        - unfold has_conversation_id. simpl. apply String.eqb_refl. }
      destruct (add_participants_member clock 1 cid pids g1 pid p conv Hin Hp Hc)
        as [r (Hr & Hty & Hs & Hd)].
      assert (Hrow : In (r, conv) (membership_rows (snd out) pid cid)).
      { unfold membership_rows. apply in_flat_map. exists p. split.
        - rewrite Hplayers, Ep. now left.
        - apply in_expand_out. split; [exact Hr|]. split; [exact Hty|].
          split; [exact Hs|]. split; [|split; [|now symmetry]].
          + rewrite Hnodes. apply in_or_app. right. now left.
          + unfold has_conversation_id. simpl. apply String.eqb_refl. }
      intros E. rewrite E in Hrow. destruct Hrow. }
    split; [exact Hrows|]. split; [|split].
    + unfold mute_conversation. cbn [fst]. now apply any_row_true.
    + unfold leave_conversation. cbn [fst]. now apply any_row_true.
    + apply no_member_nil. intros [r m] Hrow.
      unfold membership_rows at 1 in Hrow.
      apply (in_leave_rows is_MEMBER_OF is_Conversation conversation_id_of
               has_conversation_id has_conversation_id_true) in Hrow.
      destruct Hrow as [Hrow Hid].
      unfold leave_conversation, membership_rows in Hrow. cbn [snd] in Hrow.
      apply (rows_after_leave is_MEMBER_OF is_Conversation conversation_id_of
               has_conversation_id has_conversation_id_true
               (snd out) cid pid pid r m Hwf') in Hrow.
      tauto.
  - intros pid Hnone. unfold membership_rows. now rewrite Hplayers, Hnone.
Qed.

(** * Parties: creation *)


(** * Joining while already a member *)







(** * The further properties on example graphs *)

(** Closes [wf_graph g] for a closed graph [g]. *)
Ltac solve_wf_graph :=
  split; [solve_NoDup|];
  split; [vm_compute; repeat constructor|];
  split; [solve_NoDup | vm_compute; repeat constructor].

(** [A] goes online in a graph of two players. *)
Lemma update_player_status_sets_status_witness :
  let out := update_player_status "A" "online" two_players in
  fst out = get_player_node "A" (snd out)
  /\ get_player_node "A" (snd out)
     = option_map (fun r => mkPlayerRecord (pr_player_id r) (pr_username r) "online")
         (get_player_node "A" two_players)
  /\ (forall other, other <> "A"%string ->
        get_player_node other (snd out) = get_player_node other two_players)
  /\ rels (snd out) = rels two_players
  /\ (get_player_node "A" two_players = None -> snd out = two_players).
Proof.
  apply (update_player_status_sets_status "A" "online" two_players).
  solve_NoDup.
Defined.

(** The request of [A] is in the list of [B]. *)
Lemma sent_request_is_pending_witness :
  In (mkPendingRequestRecord "A" "A" "B" "B" "hi" (Some 1%Z))
     (get_pending_requests "B"
        (snd (send_friend_request 1 "A" "B" "hi" two_players))).
Proof.
  apply (sent_request_is_pending 1 "A" "B" "hi" two_players
           (mkNode 0 (Player "A" "A" "offline" 0))
           (mkNode 1 (Player "B" "B" "offline" 0))).
  - vm_compute. auto.
  - vm_compute. auto.
Defined.

(** Two pending requests from [A] to [B]: accepting lists each twice. *)
Lemma accept_friend_request_one_pair_per_request_witness :
  let k := List.length (request_rows two_requests "A" "B") in
  let out := accept_friend_request 3 "A" "B" two_requests in
  let entries X l :=
    List.length (filter (fun e => String.eqb (fd_player_id e) X) l) in
  k = 2
  /\ entries "B"%string (get_friends "A" (snd out))
     = entries "B"%string (get_friends "A" two_requests) + k
  /\ entries "A"%string (get_friends "B" (snd out))
     = entries "A"%string (get_friends "B" two_requests) + k
  /\ ~ In "A"%string (map pq_from_player_id (get_pending_requests "B" (snd out)))
  /\ (fst out = None <-> k = 0)
  /\ (k = 0 -> snd out = two_requests).
Proof.
  split; [reflexivity|].
  apply (accept_friend_request_one_pair_per_request 3 "A" "B" two_requests
           (mkNode 0 (Player "A" "A" "offline" 0))
           (mkNode 1 (Player "B" "B" "offline" 0))).
  - solve_wf_graph.
  - discriminate.
  - reflexivity.
  - reflexivity.
Defined.

(** [A] blocks the friend [B]: two friendship edges, two [BLOCKED] edges. *)
Lemma block_player_one_edge_per_friendship_witness :
  let a := mkNode 0 (Player "A" "A" "offline" 0) in
  let b := mkNode 1 (Player "B" "B" "offline" 0) in
  let k := List.length (rels_between two_friends is_FRIENDS_WITH a b) in
  let out := block_player 5 "A" "B" None two_friends in
  let blocked X l :=
    List.length (filter (fun e => String.eqb (bl_blocked_player_id e) X) l) in
  let friends X l :=
    List.length (filter (fun e => String.eqb (fd_player_id e) X) l) in
  k = 2
  /\ blocked "B"%string (get_blocked_players "A" (snd out))
     = blocked "B"%string (get_blocked_players "A" two_friends) + Nat.max 1 k
  /\ ("A"%string <> "B"%string ->
      k = friends "B"%string (get_friends "A" two_friends)
          + friends "A"%string (get_friends "B" two_friends)).
Proof.
  split; [reflexivity|].
  apply (block_player_one_edge_per_friendship 5 "A" "B" None two_friends).
  - solve_wf_graph.
  - reflexivity.
  - reflexivity.
Defined.

(** [F] is the mutual friend of [A] and [C]. *)
Lemma get_mutual_friends_is_intersection_witness :
  In "F"%string (map pr_player_id (get_mutual_friends "A" "C" friend_of_friend))
  <-> In "F"%string (map fd_player_id (get_friends "A" friend_of_friend))
      /\ In "F"%string (map fd_player_id (get_friends "C" friend_of_friend)).
Proof.
  apply (get_mutual_friends_is_intersection "A" "C" "F" friend_of_friend).
  - solve_wf_graph.
  - solve_NoDup.
  - discriminate.
Defined.

(** [A] names the friend [B]; the list of [B] is as it was. *)
Lemma set_friend_nickname_one_sided_witness :
  let out := set_friend_nickname "A" "B" "bee" two_friends in
  get_friends "A" (snd out)
  = map (fun e => if String.eqb (fd_player_id e) "B"
                  then mkFriendRecord (fd_player_id e) (fd_username e)
                         (fd_status e) (fd_friends_since e) (Some "bee"%string)
                  else e)
      (get_friends "A" two_friends)
  /\ (forall C, C <> "A"%string ->
        get_friends C (snd out) = get_friends C two_friends)
  /\ (fst out = None
      <-> ~ In "B"%string (map fd_player_id (get_friends "A" two_friends))).
Proof.
  apply (set_friend_nickname_one_sided "A" "B" "bee" two_friends).
  solve_wf_graph.
Defined.

(** The two messages of the conversation, the later one first. *)
Lemma get_messages_newest_first_witness :
  let l := [mkMessageRecord "m2" "conv" "B" "B" "second" 9 false None;
            mkMessageRecord "m1" "conv" "A" "A" "first" 7 false None] in
  get_messages "conv" 10 0 two_messages = Returned l
  /\ StronglySorted newest_first l
  /\ (Z.of_nat (List.length l) <= 10)%Z
  /\ (0 <= 0)%Z
  /\ (forall rec, In rec l ->
        exists m sender,
          In (m, sender) (message_rows two_messages "conv")
          /\ rec = message_record_of "conv" (m, sender)).
Proof.
  split; [reflexivity|].
  apply (get_messages_newest_first "conv" 10 0 two_messages).
  reflexivity.
Defined.

(** The first message and the page after it are the first two messages. *)
Lemma get_messages_pages_join_witness :
  exists first next,
    get_messages "conv" 1 0 two_messages = Returned first
    /\ get_messages "conv" 1 1 two_messages = Returned next
    /\ get_messages "conv" (1 + 1) 0 two_messages = Returned (first ++ next).
Proof.
  apply (get_messages_pages_join "conv" 1 1 two_messages).
  - solve_NoDup.
  - lia.
  - lia.
  - unfold int64_max. lia.
Defined.

(** The message of [B] is listed after it was sent. *)
Lemma sent_message_is_listed_witness :
  exists l,
    get_messages "conv" 10 0 two_messages = Returned l
    /\ In (mkMessageRecord "m2" "conv" "B" "B" "second" 9 false None) l.
Proof.
  apply (sent_message_is_listed 9 "m2" "conv" "B" "second" one_message
           (mkNode 2 (Conversation "conv" "group" (Some "solo"%string) 0
                        (Some 7%Z)))
           (mkNode 1 (Player "B" "B" "offline" 0)) 10).
  - vm_compute. auto.
  - vm_compute. auto.
  - vm_compute. split; discriminate.
Defined.

(** Party [p1] is disbanded; party [p2] keeps its leader. *)
Lemma disband_party_removes_memberships_witness :
  let out := disband_party "p1" parties_and_clans in
  match_party (snd out) "p1" = []
  /\ (forall P q, In q (player_parties (snd out) P)
                  <-> In q (player_parties parties_and_clans P)
                      /\ q <> "p1"%string)
  /\ (forall r n, In r (rels (snd out)) ->
        In n (match_party parties_and_clans "p1") ->
        rsrc r <> nid n /\ rdst r <> nid n)
  /\ (forall now P, fst (join_party now "p1" P (snd out)) = None)
  /\ (fst out = true <-> match_party parties_and_clans "p1" <> [])
  /\ (fst out = false -> snd out = parties_and_clans).
Proof.
  apply (disband_party_removes_memberships "p1" parties_and_clans).
  solve_NoDup.
Defined.

(** Clan [c1] is disbanded; clan [c2] keeps its owner. *)
Lemma disband_clan_removes_memberships_witness :
  let out := disband_clan "c1" parties_and_clans in
  match_clan (snd out) "c1" = []
  /\ clan_member_count (snd out) "c1" = 0%Z
  /\ (forall P q, In q (player_clans (snd out) P)
                  <-> In q (player_clans parties_and_clans P)
                      /\ q <> "c1"%string)
  /\ (forall now P, fst (join_clan now "c1" P (snd out)) = None)
  /\ (fst out = true <-> match_clan parties_and_clans "c1" <> [])
  /\ (fst out = false -> snd out = parties_and_clans).
Proof.
  apply (disband_clan_removes_memberships "c1" parties_and_clans).
  solve_NoDup.
Defined.

(** [A] leaves clan [c1]; no party has this identifier. *)
Lemma leave_removes_one_membership_witness :
  let party := leave_party "c1" "A" parties_and_clans in
  let clan := leave_clan "c1" "A" parties_and_clans in
  (forall Q q, In q (player_parties (snd party) Q)
               <-> In q (player_parties parties_and_clans Q)
                   /\ ~ (Q = "A"%string /\ q = "c1"%string))
  /\ (fst party = true <-> In "c1"%string (player_parties parties_and_clans "A"))
  /\ (fst party = false -> snd party = parties_and_clans)
  /\ (forall Q q, In q (player_clans (snd clan) Q)
                  <-> In q (player_clans parties_and_clans Q)
                      /\ ~ (Q = "A"%string /\ q = "c1"%string))
  /\ (fst clan = true <-> In "c1"%string (player_clans parties_and_clans "A"))
  /\ (fst clan = false -> snd clan = parties_and_clans).
Proof.
  apply (leave_removes_one_membership "c1" "A" parties_and_clans).
  solve_wf_graph.
Defined.

(** [B], invited twice, joins once and is a member twice. *)
Lemma join_party_one_membership_per_invitation_witness :
  let p := mkNode 1 (Player "B" "B" "offline" 0) in
  let party := mkNode 2 (Party "p1" "chess" 4 false 1) in
  let k := List.length (rels_from_to invited_twice is_INVITED_TO p party) in
  let out := join_party 4 "p1" "B" invited_twice in
  let entries l := List.length (filter (String.eqb "p1") l) in
  k = 2
  /\ fst out = Some (mkJoinRecord "p1" "B" "B")
  /\ rels_from_to (snd out) is_INVITED_TO p party = []
  /\ entries (player_parties (snd out) "B")
     = entries (player_parties invited_twice "B") + Nat.max 1 k.
Proof.
  split; [reflexivity|].
  apply (join_party_one_membership_per_invitation 4 "p1" "B" invited_twice
           (mkNode 1 (Player "B" "B" "offline" 0))
           (mkNode 2 (Party "p1" "chess" 4 false 1))).
  - solve_wf_graph.
  - reflexivity.
  - reflexivity.
Defined.

(** [A] founds the first clan. *)
Lemma create_clan_owner_is_first_member_witness :
  let out := create_clan 1 "c1" "Owls" "OWL" "A" None four_players in
  fst out = Some (mkClanRecord "c1" "Owls" "OWL" None 1)
  /\ clan_ranks (snd out) "c1" = [1%Z]
  /\ clan_member_count (snd out) "c1" = 1%Z
  /\ player_clans (snd out) "A" = player_clans four_players "A" ++ ["c1"%string]
  /\ (player_clans four_players "A" = [] ->
      get_player_clan "A" (snd out)
      = Some (mkPlayerClanRecord "c1" "Owls" "OWL" "owner" 1)).
Proof.
  apply (create_clan_owner_is_first_member 1 "c1" "Owls" "OWL" "A" None
           four_players (mkNode 0 (Player "A" "A" "offline" 0))).
  - solve_wf_graph.
  - unfold closed_graph. vm_compute. constructor.
  - reflexivity.
  - reflexivity.
Defined.


(** A conversation of [A] and of [Z], who has no node. *)
Lemma create_conversation_adds_members_witness :
  let out := create_conversation (fun k => Z.of_nat k) "conv" "group"
               ["A"%string; "Z"%string] None two_players in
  fst out = Some (mkConversationRecord "conv" "group" None 0)
  /\ (forall pid muted,
        In pid ["A"%string; "Z"%string] -> match_player two_players pid <> [] ->
        membership_rows (snd out) pid "conv" <> []
        /\ fst (mute_conversation pid "conv" muted (snd out)) = true
        /\ fst (leave_conversation pid "conv" (snd out)) = true
        /\ membership_rows (snd (leave_conversation pid "conv" (snd out)))
             pid "conv" = [])
  /\ (forall pid, match_player two_players pid = [] ->
        membership_rows (snd out) pid "conv" = []).
Proof.
  apply (create_conversation_adds_members (fun k => Z.of_nat k) "conv" "group"
           ["A"%string; "Z"%string] None two_players).
  solve_wf_graph.
Defined.


